(** * erlich: training orchestration core

    A shallow embedding of [erlich/trainer.py] (the running estimator, the
    optimizer assignment, validation and the training loop) and of
    [erlich/manager.py] (configuration resolution and training setup),
    together with the properties of the design document that they satisfy
    or break.

    Conventions.  The running estimator is given twice: over exact
    rationals ([Q], compared with [==]), which is what the statements
    about weighted means and about the weights that raise are about, and
    over binary64 floats ([F64], the arithmetic of Python's [float]),
    where rounding, infinities and NaN decide; a Python [dict] is an
    association list in insertion order; a Python [set] of batch indices
    is a [gset Z]; a method that mutates [self] and may raise is a
    function from the state to the new state and a result, so that the
    mutations done before an exception are kept. *)

From Stdlib Require Import ZArith QArith Lqa List String Ascii Bool Permutation Floats.
From stdpp Require Import gmap strings pretty.
Import ListNotations.

Local Open Scope string_scope.
Local Open Scope list_scope.

(** ** Configuration trees (OmegaConf)

    A configuration is a nested mapping of string keys to scalars, lists
    and mappings.  YAML [null], the mandatory-missing marker and
    interpolations are not part of the model, and reading a key that is
    not there raises. *)

Inductive scalar : Type :=
  | SBool (b : bool)
  | SInt (n : Z)
  | SFloat (f : float)
  | SStr (s : string).

#[warnings="-register-all"] Inductive node : Type :=
  | Leaf (v : scalar)
  | NList (items : list node)
  | NDict (entries : list (string * node)).

(** ** Exceptions and the state-and-exception monad *)

Inductive exn : Type :=
  | ZeroDivisionError
  | KeyError (key : string)
  | IndexError
  | AttributeError (attr : string)
  | TypeError
  | ValueError
  | FileNotFoundError (path : string)
  | AssertionError
  | UnknownOptimizer (name : option node)
  | KeyValidationError
  | Collaborator (msg : string).

Inductive result (A : Type) : Type :=
  | Ok (a : A)
  | Raise (e : exn).
Arguments Ok {A} a.
Arguments Raise {A} e.

Definition is_ok {A} (r : result A) : bool :=
  match r with Ok _ => true | Raise _ => false end.

Definition rbind {A B} (r : result A) (k : A -> result B) : result B :=
  match r with Ok a => k a | Raise e => Raise e end.

Notation "x <-? c ;; k" := (rbind c (fun x => k))
  (at level 100, c at next level, right associativity).

(** [M S A]: a computation on a mutable object of type [S]. *)
Definition M (S A : Type) : Type := S -> S * result A.

Definition ret {S A} (a : A) : M S A := fun s => (s, Ok a).
Definition raise {S A} (e : exn) : M S A := fun s => (s, Raise e).
Definition bind {S A B} (c : M S A) (k : A -> M S B) : M S B :=
  fun s => match c s with
           | (s', Ok a) => k a s'
           | (s', Raise e) => (s', Raise e)
           end.
Definition lift {S A} (r : result A) : M S A := fun s => (s, r).
Definition gets {S A} (f : S -> A) : M S A := fun s => (s, Ok (f s)).
Definition modify {S} (f : S -> S) : M S unit := fun s => (f s, Ok tt).

Notation "x <- c ;; k" := (bind c (fun x => k))
  (at level 100, c at next level, right associativity).
Notation "c ;;; k" := (bind c (fun _ => k))
  (at level 100, right associativity).

(** [for x in xs: body x] *)
Fixpoint for_each {S A} (xs : list A) (body : A -> M S unit) : M S unit :=
  match xs with
  | [] => ret tt
  | x :: rest => body x ;;; for_each rest body
  end.

(** ** trainer.py: [AvgEstimator] *)

Section Estimator.
Local Open Scope Q_scope.

Record AvgEstimator : Type := mkAvgEstimator {
  avg : Q;
  tot_weight : Q
}.

(** [AvgEstimator.__init__] *)
Definition AvgEstimator_init : AvgEstimator :=
  {| avg := 0; tot_weight := 0 |}.

(** [AvgEstimator.update], on numbers: [self.tot_weight += w] is done
    first, then [self.avg += (x - self.avg) * w / self.tot_weight]; the
    division of Python numbers raises [ZeroDivisionError] on a zero
    divisor, after [tot_weight] has been written. *)
Definition update (x w : Q) : M AvgEstimator unit := fun self =>
  let self1 := {| avg := avg self; tot_weight := tot_weight self + w |} in
  if Qeq_bool (tot_weight self1) 0 then (self1, Raise ZeroDivisionError)
  else ({| avg := avg self1 + (x - avg self1) * w / tot_weight self1;
           tot_weight := tot_weight self1 |}, Ok tt).

(** [AvgEstimator.get] *)
Definition get (self : AvgEstimator) : Q := avg self.

(** A sequence of calls [update(x_i, w_i)], in order. *)
Definition updates (l : list (Q * Q)) : M AvgEstimator unit :=
  for_each l (fun xw => update (fst xw) (snd xw)).

(** The sums of the weighted mean. *)
Definition sum_w (l : list (Q * Q)) : Q :=
  fold_right (fun xw acc => snd xw + acc) 0 l.
Definition sum_wx (l : list (Q * Q)) : Q :=
  fold_right (fun xw acc => snd xw * fst xw + acc) 0 l.
Definition weighted_mean (l : list (Q * Q)) : Q := sum_wx l / sum_w l.

Definition nonneg_weight (xw : Q * Q) : Prop := 0 <= snd xw.
Definition pos_weight (xw : Q * Q) : Prop := 0 < snd xw.

(** After the calls of [l] on a fresh estimator, [get()] returns the
    weighted mean of [l]. *)
Definition returns_weighted_mean (l : list (Q * Q)) : Prop :=
  exists self, updates l AvgEstimator_init = (self, Ok tt) /\
    get self == weighted_mean l.

End Estimator.

(** A binary64 number, as the standard library specifies it, that is
    neither an infinity nor a NaN. *)
Definition sf_finite (f : spec_float) : bool :=
  match f with
  | S754_zero _ | S754_finite _ _ _ => true
  | S754_infinity _ | S754_nan => false
  end.

(** ** trainer.py: [AvgEstimator] on binary64 numbers

    The estimator as Python runs it on floats: [avg], [tot_weight], [x]
    and [w] are IEEE 754 binary64 numbers, every operation rounds, and
    the division raises [ZeroDivisionError] exactly when the divisor
    compares equal to zero (a zero of either sign; an infinity or a NaN
    does not raise). *)
Module F64.

Record AvgEstimator : Type := mkAvgEstimator {
  avg : float;
  tot_weight : float
}.

(** [AvgEstimator.__init__] *)
Definition AvgEstimator_init : AvgEstimator :=
  {| avg := 0%float; tot_weight := 0%float |}.

(** [AvgEstimator.update] *)
Definition update (x w : float) : M AvgEstimator unit := fun self =>
  let self1 := {| avg := avg self; tot_weight := (tot_weight self + w)%float |} in
  if (tot_weight self1 =? 0)%float then (self1, Raise ZeroDivisionError)
  else ({| avg := (avg self1 + (x - avg self1) * w / tot_weight self1)%float;
           tot_weight := tot_weight self1 |}, Ok tt).

(** [AvgEstimator.get] *)
Definition get (self : AvgEstimator) : float := avg self.

(** The number is neither an infinity nor a NaN. *)
Definition finite (d : float) : bool := sf_finite (Prim2SF d).

End F64.

(** ** Python dictionaries, in insertion order *)

Definition dict (V : Type) : Type := list (string * V).

(** [d.get(k)] / [d[k]] when present. *)
Fixpoint dget {V} (k : string) (d : dict V) : option V :=
  match d with
  | [] => None
  | (k', v) :: rest => if String.eqb k k' then Some v else dget k rest
  end.

(** [k in d] *)
Definition dmem {V} (k : string) (d : dict V) : bool :=
  match dget k d with Some _ => true | None => false end.

(** [d[k] = v]: an existing key keeps its place, a new key goes last. *)
Fixpoint dset {V} (k : string) (v : V) (d : dict V) : dict V :=
  match d with
  | [] => [(k, v)]
  | (k', v') :: rest =>
      if String.eqb k k' then (k, v) :: rest else (k', v') :: dset k v rest
  end.

(** The dictionary without the key [k]. *)
Definition ddel {V} (k : string) (d : dict V) : dict V :=
  List.filter (fun kv => negb (String.eqb k (fst kv))) d.

(** [d.pop(k)]: raises [KeyError] on a missing key. *)
Definition dpop {V} (k : string) (d : dict V) : result (dict V) :=
  if dmem k d then Ok (ddel k d) else Raise (KeyError k).

(** [d[k]], raising [KeyError] on a missing key. *)
Definition dindex {V} (k : string) (d : dict V) : result V :=
  match dget k d with Some v => Ok v | None => Raise (KeyError k) end.

Definition dkeys {V} (d : dict V) : list string := map fst d.
Definition dvalues {V} (d : dict V) : list V := map snd d.

(** ** Python strings *)

(** [s.split(sep)] for a one-character separator. *)
Fixpoint split (sep : ascii) (s : string) : list string :=
  match s with
  | EmptyString => [EmptyString]
  | String c rest =>
      match split sep rest with
      | [] => [String c EmptyString]
      | h :: t =>
          if Ascii.eqb c sep then EmptyString :: h :: t else String c h :: t
      end
  end.

(** [c in s] for a one-character [c]. *)
Fixpoint contains_char (c : ascii) (s : string) : bool :=
  match s with
  | EmptyString => false
  | String c' rest => Ascii.eqb c' c || contains_char c rest
  end.

(** [sub in s] *)
Fixpoint contains_sub (sub s : string) : bool :=
  String.prefix sub s ||
  match s with
  | EmptyString => false
  | String _ rest => contains_sub sub rest
  end.

(** [a, b = xs]: unpacking into exactly two targets. *)
Definition unpack2 {A} (xs : list A) : result (A * A) :=
  match xs with
  | [a; b] => Ok (a, b)
  | _ => Raise ValueError
  end.

(** [s.endswith(suffix)] *)
Definition endswith (s suffix : string) : bool :=
  let n := String.length s in
  let m := String.length suffix in
  (m <=? n)%nat && String.eqb (substring (n - m) m s) suffix.

(** [os.path.join(a, b)] *)
Definition path_join (a b : string) : string :=
  if String.prefix "/" b then b
  else if String.eqb a EmptyString || endswith a "/" then a ++ b
  else a ++ "/" ++ b.

(** The characters of a string, each as a string (iterating a [str]). *)
Fixpoint chars (s : string) : list string :=
  match s with
  | EmptyString => []
  | String c rest => String c EmptyString :: chars rest
  end.

(** ** Operations on configuration trees *)

(** The mapping held by a node; anything else is not subscriptable by key. *)
Definition as_dict (c : node) : result (dict node) :=
  match c with
  | NDict d => Ok d
  | _ => Raise TypeError
  end.

(** [OmegaConf.merge(a, b)]: keys of [b] are written into [a]; where both
    sides hold a mapping the mappings are merged, otherwise [b] wins. *)
Fixpoint merge (a b : node) {struct b} : node :=
  match b with
  | NDict db =>
      match a with
      | NDict da =>
          NDict ((fix merge_into (db : list (string * node)) (acc : dict node)
                    {struct db} : dict node :=
                    match db with
                    | [] => acc
                    | (k, vb) :: rest =>
                        merge_into rest
                          (dset k (match dget k acc with
                                   | Some va => merge va vb
                                   | None => vb
                                   end) acc)
                    end) db da)
      | _ => b
      end
  | _ => b
  end.

(** The inner loop of [merge], by name: the entries of [db] written into
    [acc], one after the other. *)
Fixpoint merge_into (db : list (string * node)) (acc : dict node) : dict node :=
  match db with
  | [] => acc
  | (k, vb) :: rest =>
      merge_into rest
        (dset k (match dget k acc with
                 | Some va => merge va vb
                 | None => vb
                 end) acc)
  end.

(** [conf.update(key, value)] for a dotted key, already cut at the dots. *)
Fixpoint update_path (path : list string) (v : node) (d : dict node) : dict node :=
  match path with
  | [] => d
  | [k] => dset k v d
  | k :: rest =>
      let sub := match dget k d with Some (NDict sd) => sd | _ => [] end in
      dset k (NDict (update_path rest v sub)) d
  end.

(** [OmegaConf.from_dotlist(additional)]; each entry [key.path=value] is
    given as its key path and its parsed value. *)
Definition from_dotlist (additional : list (list string * node)) : node :=
  NDict (fold_left (fun d kv => update_path (fst kv) (snd kv) d) additional []).

(** [x * 2] on a configuration value. *)
Definition py_mul2 (c : node) : result node :=
  match c with
  | Leaf (SBool b) => Ok (Leaf (SInt (if b then 2 else 0)))
  | Leaf (SInt n) => Ok (Leaf (SInt (n * 2)))
  | Leaf (SFloat f) => Ok (Leaf (SFloat (f * 2)%float))
  | Leaf (SStr s) => Ok (Leaf (SStr (s ++ s)))
  | NList _ | NDict _ => Raise TypeError
  end.

(** Truth value of a configuration value. *)
Definition truthy (c : node) : bool :=
  match c with
  | Leaf (SBool b) => b
  | Leaf (SInt n) => negb (n =? 0)%Z
  | Leaf (SFloat f) => negb (PrimFloat.eqb f 0%float)
  | Leaf (SStr s) => negb (String.eqb s EmptyString)
  | NList l => match l with [] => false | _ => true end
  | NDict d => match d with [] => false | _ => true end
  end.

(** ** manager.py: [Erlich.parse_config] *)

Record Erlich : Type := mkErlich {
  config_folder : string;
  model_folder : string;
  shared_file_path : string
}.

(** The YAML files on disk, by path, as [OmegaConf.load] reads them. *)
Definition omegaconf_load (files : gmap string node) (path : string) : result node :=
  match files !! path with
  | Some c => Ok c
  | None => Raise (FileNotFoundError path)
  end.

(** [OmegaConf.merge] called on two whole configurations: both are
    mappings. *)
Definition merge_top (a b : node) : result node :=
  match a, b with
  | NDict _, NDict _ => Ok (merge a b)
  | _, _ => Raise TypeError
  end.

Fixpoint merge_from (acc : node) (rest : list node) : result node :=
  match rest with
  | [] => Ok acc
  | c :: rest' => m <-? merge_top acc c ;; merge_from m rest'
  end.

(** [OmegaConf.merge] of the configurations [configs], first to last; it
    needs at least one. *)
Definition merge_all (configs : list node) : result node :=
  match configs with
  | [] => Raise AssertionError
  | c :: rest => merge_from c rest
  end.

(** [conf.key] / [conf[key]] on a key that has to be there. *)
Definition attr (key : string) (conf : dict node) : result node :=
  match dget key conf with
  | Some v => Ok v
  | None => Raise (AttributeError key)
  end.

(** [conf.get(key, default)] *)
Definition conf_get (key : string) (default : node) (conf : dict node) : node :=
  match dget key conf with
  | Some v => v
  | None => default
  end.

Definition as_str (c : node) : result string :=
  match c with
  | Leaf (SStr s) => Ok s
  | _ => Raise TypeError
  end.

(** What [for name in v] visits. *)
Definition iter_node (v : node) : result (list node) :=
  match v with
  | NList items => Ok items
  | NDict d => Ok (map (fun k => Leaf (SStr k)) (dkeys d))
  | Leaf (SStr s) => Ok (map (fun k => Leaf (SStr k)) (chars s))
  | Leaf _ => Raise TypeError
  end.

(** [name[:-5]] when [name] ends with [.yaml]. *)
Definition strip_yaml (name : string) : string :=
  if endswith name ".yaml" then substring 0 (String.length name - 5) name
  else name.

(** The loop that reads the configurations named by the [load] list. *)
Fixpoint read_loads (self : Erlich) (files : gmap string node) (names : list node)
  : result (list node) :=
  match names with
  | [] => Ok []
  | n :: rest =>
      name <-? as_str n ;;
      c <-? omegaconf_load files (path_join (config_folder self) (name ++ ".yaml")) ;;
      cs <-? read_loads self files rest ;;
      Ok (c :: cs)
  end.

(** Lines 58-74: read the named configuration, merge the overrides, merge
    the loaded configurations below it and drop the [load] list. *)
Definition load_config (self : Erlich) (files : gmap string node)
  (name : string) (additional : list (list string * node)) : result (dict node) :=
  let name := strip_yaml name in
  let path := path_join (config_folder self) (name ++ ".yaml") in
  conf <-? omegaconf_load files path ;;
  conf <-? merge_top conf (from_dotlist additional) ;;
  conf <-? as_dict conf ;;
  match dget "load" conf with
  | Some lv =>
      names <-? iter_node lv ;;
      loads <-? read_loads self files names ;;
      merged <-? merge_all (loads ++ [NDict conf]) ;;
      merged <-? as_dict merged ;;
      dpop "load" merged
  | None => Ok conf
  end.

(** Lines 79-85: cut [modelID.partName[@checkpoint]] into its pieces. *)
Definition parse_load_path (load_path : string) : result (string * string * string) :=
  lc <-? (if contains_char "@" load_path then unpack2 (split "@" load_path)
          else Ok (load_path, "latest")) ;;
  ms <-? unpack2 (split "." (fst lc)) ;;
  Ok (fst ms, snd ms, snd lc).

(** The f-string [f"{model_name}.{src_part_name}@{checkpoint}"]. *)
Definition weights_reference (model_name src_part_name checkpoint : string) : string :=
  model_name ++ "." ++ src_part_name ++ "@" ++ checkpoint.

(** Lines 79-93, inside [if "load" in conf.parts[part_name]]: the
    specification that replaces [part], whose [load] entry is [lv]. *)
Definition inherit_part (self : Erlich) (files : gmap string node)
  (lv : node) (part : dict node) : result (dict node) :=
  load_path <-? as_str lv ;;
  ref <-? parse_load_path load_path ;;
  let '(model_name, src_part_name, checkpoint) := ref in
  src_model_cfg <-? omegaconf_load files
                      (path_join (model_folder self) (model_name ++ ".yaml")) ;;
  src_model_cfg <-? as_dict src_model_cfg ;;
  src_parts <-? attr "parts" src_model_cfg ;;
  src_parts <-? as_dict src_parts ;;
  part_cfg <-? dindex src_part_name src_parts ;;
  merged <-? merge_top part_cfg (NDict part) ;;
  merged <-? as_dict merged ;;
  merged <-? dpop "load" merged ;;
  if dmem "weights" merged then Ok merged
  else Ok (dset "weights"
             (Leaf (SStr (weights_reference model_name src_part_name checkpoint)))
             merged).

(** [x == s] for an element [x] of a list configuration. *)
Definition is_str (s : string) (x : node) : bool :=
  match x with
  | Leaf (SStr t) => String.eqb t s
  | _ => false
  end.

(** Lines 78-79: ["load" in part] and, where it holds, [part["load"]],
    for the value [part] of [conf.parts[part_name]].  A mapping is asked
    for the key, a list for an element equal to ["load"] and a string for
    the substring; a string indexed by ["load"] is a [TypeError], a list
    configuration indexed by it is OmegaConf's [KeyValidationError], and a
    number or a boolean has no [in]. *)
Definition load_entry (part : node) : result (option (node * dict node)) :=
  match part with
  | NDict spec =>
      match dget "load" spec with
      | Some lv => Ok (Some (lv, spec))
      | None => Ok None
      end
  | NList items =>
      if existsb (is_str "load") items then Raise KeyValidationError else Ok None
  | Leaf (SStr s) => if contains_sub "load" s then Raise TypeError else Ok None
  | Leaf _ => Raise TypeError
  end.

(** Lines 78-93, the body of the loop over the parts, for [part_name]. *)
Definition resolve_part (self : Erlich) (files : gmap string node)
  (part_name : string) (parts : dict node) : result (dict node) :=
  part <-? attr part_name parts ;;
  entry <-? load_entry part ;;
  match entry with
  | None => Ok parts
  | Some (lv, part) =>
      spec <-? inherit_part self files lv part ;;
      Ok (dset part_name (NDict spec) parts)
  end.

(** [for part_name in conf.parts: ...] *)
Fixpoint resolve_parts (self : Erlich) (files : gmap string node)
  (names : list string) (parts : dict node) : result (dict node) :=
  match names with
  | [] => Ok parts
  | part_name :: rest =>
      parts <-? resolve_part self files part_name parts ;;
      resolve_parts self files rest parts
  end.

(** Lines 95-98: the mandatory parameters.  [conf.batch_size * 2] is
    evaluated whether or not [validation_batch_size] is there. *)
Definition fill_defaults (conf : dict node) : result (dict node) :=
  let conf := dset "batch_size" (conf_get "batch_size" (Leaf (SInt 16)) conf) conf in
  let conf := dset "epochs" (conf_get "epochs" (Leaf (SInt 10)) conf) conf in
  batch_size <-? attr "batch_size" conf ;;
  twice <-? py_mul2 batch_size ;;
  Ok (dset "validation_batch_size" (conf_get "validation_batch_size" twice conf) conf).

(** [conf.parts[part_name]] where [conf.parts] is a list of [n]
    elements: the position that the key [part_name] names.  Only an
    integer (a boolean counts as one) indexes a list; a negative one
    counts from the end. *)
Definition list_position (part_name : node) (n : nat) : result nat :=
  let position (i : Z) : result nat :=
    if ((0 <=? i) && (i <? Z.of_nat n))%Z then Ok (Z.to_nat i)
    else if ((- Z.of_nat n <=? i) && (i <? 0))%Z then Ok (Z.to_nat (Z.of_nat n + i))
    else Raise IndexError in
  match part_name with
  | Leaf (SInt i) => position i
  | Leaf (SBool b) => position (if b then 1 else 0)%Z
  | _ => Raise KeyValidationError
  end.

(** Lines 78-93 where [conf.parts] is a list: the body of the loop for
    the element that the iteration yields at position [j]. *)
Definition resolve_item (self : Erlich) (files : gmap string node)
  (j : nat) (items : list node) : result (list node) :=
  match items !! j with
  | None => Ok items
  | Some part_name =>
      i <-? list_position part_name (length items) ;;
      match items !! i with
      | None => Raise IndexError
      | Some part =>
          entry <-? load_entry part ;;
          match entry with
          | None => Ok items
          | Some (lv, part) =>
              spec <-? inherit_part self files lv part ;;
              Ok (<[i := NDict spec]> items)
          end
      end
  end.

Fixpoint resolve_items (self : Erlich) (files : gmap string node)
  (positions : list nat) (items : list node) : result (list node) :=
  match positions with
  | [] => Ok items
  | j :: rest =>
      items <-? resolve_item self files j items ;;
      resolve_items self files rest items
  end.

(** Lines 77-93: the loop over [conf.parts].  A mapping yields its keys,
    a list its elements and a string its characters, and a string
    indexed by a character is a [TypeError]; a number or a boolean is
    not iterable. *)
Definition resolve_conf_parts (self : Erlich) (files : gmap string node)
  (parts : node) : result node :=
  match parts with
  | NDict entries =>
      entries <-? resolve_parts self files (dkeys entries) entries ;;
      Ok (NDict entries)
  | NList items =>
      items <-? resolve_items self files (seq 0 (length items)) items ;;
      Ok (NList items)
  | Leaf (SStr s) => if String.eqb s "" then Ok parts else Raise TypeError
  | Leaf _ => Raise TypeError
  end.

(** [Erlich.parse_config(name, additional)] *)
Definition parse_config (self : Erlich) (files : gmap string node)
  (name : string) (additional : list (list string * node)) : result node :=
  conf <-? load_config self files name additional ;;
  parts <-? attr "parts" conf ;;
  parts <-? resolve_conf_parts self files parts ;;
  conf <-? fill_defaults (dset "parts" parts conf) ;;
  Ok (NDict conf).

(** A load reference [modelID.partName] or [modelID.partName@tag]. *)
Definition load_reference (model part : string) (tag : option string) : string :=
  match tag with
  | Some t => model ++ "." ++ part ++ "@" ++ t
  | None => model ++ "." ++ part
  end.

Definition tag_or_latest (tag : option string) : string :=
  match tag with Some t => t | None => "latest" end.

(** The pieces of a reference do not hold its separators. *)
Definition reference_ok (model part : string) (tag : option string) : bool :=
  negb (contains_char "." model) && negb (contains_char "@" model) &&
  negb (contains_char "." part) && negb (contains_char "@" part) &&
  negb (contains_char "@" (tag_or_latest tag)).

(** A part that the loop body skips: its value answers [False] to
    ["load" in part]. *)
Definition part_settled (parts : dict node) (part_name : string) : Prop :=
  exists part, dget part_name parts = Some part /\ load_entry part = Ok None.

(** A part specification without a [load] key. *)
Definition part_resolved (parts : dict node) (part_name : string) : bool :=
  match dget part_name parts with
  | Some (NDict spec) => negb (dmem "load" spec)
  | _ => false
  end.

(** A fully resolved configuration: a mapping with no top-level [load],
    whose [parts] is a mapping of part specifications without [load], and
    which holds [batch_size] (a number or a string), [epochs] and
    [validation_batch_size]. *)
Definition fully_resolved (c : node) : bool :=
  match c with
  | NDict conf =>
      negb (dmem "load" conf) &&
      match dget "parts" conf with
      | Some (NDict parts) => forallb (part_resolved parts) (dkeys parts)
      | _ => false
      end &&
      match dget "batch_size" conf with
      | Some batch_size => is_ok (py_mul2 batch_size)
      | None => false
      end &&
      dmem "epochs" conf && dmem "validation_batch_size" conf
  | _ => false
  end.

(** The entry that [merge] leaves at a key, from the entry [below] of the
    left mapping and the entry [above] of the right one. *)
Definition overlay (below above : option node) : option node :=
  match above with
  | Some vb => Some (match below with
                     | Some va => merge va vb
                     | None => vb
                     end)
  | None => below
  end.

(** The specification that lines 88-93 build from the [stored]
    specification of the source part and the [current] one, for the
    weights reference [reference]. *)
Definition inherited_spec (stored current : dict node) (reference : string) : dict node :=
  let merged := ddel "load" (merge_into current stored) in
  if dmem "weights" merged then merged
  else dset "weights" (Leaf (SStr reference)) merged.

(** ** Example data *)

Definition example_erlich : Erlich :=
  {| config_folder := "configs"; model_folder := "models";
     shared_file_path := "/code/sharedfile" |}.

(** The stored configuration of model [5], trained from scratch. *)
Definition example_model_5 : node :=
  NDict [("parts", NDict [("encoder", NDict [("arch", Leaf (SStr "resnet"));
                                             ("frozen", Leaf (SBool false))])]);
         ("batch_size", Leaf (SInt 8)); ("epochs", Leaf (SInt 3));
         ("validation_batch_size", Leaf (SInt 16))].

(** The stored configuration of a model [5] whose encoder was itself
    loaded from model [3]: its resolved specification holds [weights]. *)
Definition example_model_5_chained : node :=
  NDict [("parts", NDict [("encoder", NDict [("arch", Leaf (SStr "resnet"));
                                             ("weights", Leaf (SStr "3.encoder@latest"))])]);
         ("batch_size", Leaf (SInt 8)); ("epochs", Leaf (SInt 3));
         ("validation_batch_size", Leaf (SInt 16))].

(** A configuration [exp] whose part [A] loads [5.encoder@2.0] and gives
    no [weights]. *)
Definition example_part_A : dict node :=
  [("load", Leaf (SStr "5.encoder@2.0")); ("frozen", Leaf (SBool true))].

Definition example_exp : node :=
  NDict [("parts", NDict [("A", NDict example_part_A)])].

Definition example_files : gmap string node :=
  <["configs/exp.yaml" := example_exp]>
    (<["models/5.yaml" := example_model_5]>
       (<["configs/done.yaml" := example_model_5]> ∅)).

Definition example_files_chained : gmap string node :=
  <["configs/exp.yaml" := example_exp]>
    (<["models/5.yaml" := example_model_5_chained]> ∅).

(** ** The tensor engine and the trainer's collaborators

    [torch] is outside the program: parameter tensors, state
    dictionaries, batches, losses and model parts ([nn.Module]) are
    abstract, with the few operations the trainer calls on them. *)

Class Torch : Type := {
  tensor : Type;
  state_dict : Type;
  batch : Type;
  loss : Type;
  module : Type;
  (** [part.parameters()] *)
  parameters : module -> list tensor;
  (** [part.load_state_dict(state)] *)
  module_load_state_dict : state_dict -> module -> result module;
  (** [part.to(device)] *)
  module_to : Z -> module -> module;
  (** [move_to_device(batch, device)] *)
  move_to_device : batch -> Z -> batch
}.

Section TrainerModel.
Context `{Torch}.

(** ** trainer.py: optimizers *)

Inductive algorithm : Type := Adam | SGD.

(** A [torch.optim] optimizer: its algorithm, its keyword arguments, the
    parameters it was built over, and the state last loaded into it. *)
Record Optimizer : Type := mkOptimizer {
  opt_algorithm : algorithm;
  opt_kwargs : dict node;
  opt_params : list tensor;
  opt_state : option state_dict
}.

(** [BaseTrainer.standardize_kwargs(cfg, **kwargs)] *)
Definition standardize_kwargs (cfg : dict node) (kwargs : dict node) : dict node :=
  map (fun kv => (fst kv, conf_get (fst kv) (snd kv) cfg)) kwargs.

#[warnings="-inexact-float"] Definition adam_defaults : dict node :=
  [("lr", Leaf (SFloat 0.001%float));
   ("betas", NList [Leaf (SFloat 0.9%float); Leaf (SFloat 0.999%float)]);
   ("eps", Leaf (SFloat 1e-8%float));
   ("weight_decay", Leaf (SInt 0));
   ("amsgrad", Leaf (SBool false))].

#[warnings="-inexact-float"] Definition sgd_defaults : dict node :=
  [("lr", Leaf (SFloat 0.001%float));
   ("momentum", Leaf (SInt 0));
   ("dampening", Leaf (SInt 0));
   ("weight_decay", Leaf (SInt 0));
   ("nesterov", Leaf (SBool false))].

(** [name == s] for the value [name] that [get_optimizer] is called
    with ([None] for Python's [None]). *)
Definition name_is (name : option node) (s : string) : bool :=
  match name with
  | Some (Leaf (SStr n)) => String.eqb n s
  | _ => false
  end.

(** [BaseTrainer.default_get_optimizer(name, optim_cfg, parameters, cfg)];
    [torch.optim.Adam] and [torch.optim.SGD] are recorded with their
    arguments.  [UnknownOptimizer name] is the [Exception] of line 79,
    whose message is written from [name]. *)
Definition default_get_optimizer (name : option node) (optim_cfg : dict node)
  (params : list tensor) (cfg : node) : result Optimizer :=
  if name_is name "adam" then
    Ok (mkOptimizer Adam (standardize_kwargs optim_cfg adam_defaults) params None)
  else if name_is name "sgd" then
    Ok (mkOptimizer SGD (standardize_kwargs optim_cfg sgd_defaults) params None)
  else Raise (UnknownOptimizer name).

(** [BaseTrainer.get_optimizer] *)
Definition get_optimizer (name : option node) (optim_cfg : dict node)
  (params : list tensor) (cfg : node) : result Optimizer :=
  default_get_optimizer name optim_cfg params cfg.

(** [optimizer.load_state_dict(state)] *)
Definition optimizer_load_state_dict (state : state_dict) (o : Optimizer) : Optimizer :=
  mkOptimizer (opt_algorithm o) (opt_kwargs o) (opt_params o) (Some state).

(** ** trainer.py: [BaseTrainer] *)

(** The checkpoint writer and the progress logger come from modules that
    the trainer only calls; each call is recorded with its arguments. *)
Record ModelSaver : Type := mkModelSaver { saver_path : string }.
Record TrainLogger : Type := mkTrainLogger {
  logger_path : string;
  logger_epochs : node;
  (** [None] until [train] sets it *)
  min_wait : option Z
}.

Inductive call : Type :=
  | SaverSave (parts : dict module) (optimizers : dict Optimizer) (with_amp : bool)
              (epoch train_batch : Z) (metrics : dict Q)
  | LoggerAddMeter (metric : string)
  | LoggerStart
  | LoggerBatch
  | LoggerEpoch
  | ZeroGrad (opt : Optimizer)
  | Backward (l : loss) (scaled : bool)
  | Step (opt : Optimizer).

Record BaseTrainer : Type := mkBaseTrainer {
  cfg : node;
  batch_size : node;
  validation_batch_size : node;
  epochs : node;
  device : Z;
  optimizers : dict Optimizer;
  model_parts : dict module;
  saver : option ModelSaver;
  logger : option TrainLogger;
  dataloader : list batch;
  validation_dataloader : option (list batch);
  train_metrics : list string;
  (** the calls made to the collaborators so far, oldest first *)
  calls : list call
}.

Definition set_optimizers (f : dict Optimizer -> dict Optimizer) (t : BaseTrainer) : BaseTrainer :=
  mkBaseTrainer (cfg t) (batch_size t) (validation_batch_size t) (epochs t) (device t)
    (f (optimizers t)) (model_parts t) (saver t) (logger t) (dataloader t)
    (validation_dataloader t) (train_metrics t) (calls t).

Definition set_model_parts (parts : dict module) (t : BaseTrainer) : BaseTrainer :=
  mkBaseTrainer (cfg t) (batch_size t) (validation_batch_size t) (epochs t) (device t)
    (optimizers t) parts (saver t) (logger t) (dataloader t)
    (validation_dataloader t) (train_metrics t) (calls t).

Definition set_logger (l : option TrainLogger) (t : BaseTrainer) : BaseTrainer :=
  mkBaseTrainer (cfg t) (batch_size t) (validation_batch_size t) (epochs t) (device t)
    (optimizers t) (model_parts t) (saver t) l (dataloader t)
    (validation_dataloader t) (train_metrics t) (calls t).

Definition record_call (c : call) : M BaseTrainer unit := fun t =>
  (mkBaseTrainer (cfg t) (batch_size t) (validation_batch_size t) (epochs t) (device t)
     (optimizers t) (model_parts t) (saver t) (logger t) (dataloader t)
     (validation_dataloader t) (train_metrics t) (calls t ++ [c]), Ok tt).

(** A loop with a local variable [acc]. *)
Fixpoint for_fold {S A B} (xs : list A) (acc : B) (body : B -> A -> M S B) : M S B :=
  match xs with
  | [] => ret acc
  | x :: rest => acc' <- body acc x ;; for_fold rest acc' body
  end.

(** [self.model_parts[name].parameters()] *)
Definition part_parameters (name : string) : M BaseTrainer (list tensor) := fun t =>
  match dget name (model_parts t) with
  | Some p => (t, Ok (parameters p))
  | None => (t, Raise (KeyError name))
  end.

(** ["frozen" not in part or part["frozen"] is False] *)
Definition requires_optimizer (part : dict node) : bool :=
  match dget "frozen" part with
  | None => true
  | Some (Leaf (SBool false)) => true
  | Some _ => false
  end.

(** [optim_cfg.name] and [optim_cfg] of an [optimizer] entry, which has
    to be a mapping. *)
Definition optimizer_spec (v : node) : result (option node * dict node) :=
  optim_cfg <-? as_dict v ;;
  name <-? attr "name" optim_cfg ;;
  Ok (Some name, optim_cfg).

(** The body of the loop over [cfg.parts] (lines 87-95);
    [require_global_optimizer] is the local list. *)
Definition assign_part (c : node) (parts : dict node)
  (require_global_optimizer : list string) (part_name : string)
  : M BaseTrainer (list string) :=
  part <- lift (attr part_name parts) ;;
  part <- lift (as_dict part) ;;
  if requires_optimizer part then
    match dget "optimizer" part with
    | Some ov =>
        spec <- lift (optimizer_spec ov) ;;
        params <- part_parameters part_name ;;
        opt <- lift (get_optimizer (fst spec) (snd spec) params c) ;;
        modify (set_optimizers (dset part_name opt)) ;;;
        ret require_global_optimizer
    | None => ret (require_global_optimizer ++ [part_name])
    end
  else ret require_global_optimizer.

(** The reserved key of the global optimizer. *)
Definition global_key : string := "__global".

(** [BaseTrainer.instantiate_optimizers(cfg)] *)
Definition instantiate_optimizers (c : node) : M BaseTrainer unit :=
  conf <- lift (as_dict c) ;;
  parts <- lift (attr "parts" conf) ;;
  parts <- lift (as_dict parts) ;;
  require_global_optimizer <- for_fold (dkeys parts) [] (assign_part c parts) ;;
  match require_global_optimizer with
  | [] => ret tt
  | _ :: _ =>
      global_opt_parameters <-
        for_fold require_global_optimizer []
          (fun acc x => ps <- part_parameters x ;; ret (acc ++ ps)) ;;
      ov <- lift (attr "optimizer" conf) ;;
      spec <- lift (optimizer_spec ov) ;;
      opt <- lift (get_optimizer (fst spec) (snd spec) global_opt_parameters c) ;;
      modify (set_optimizers (dset global_key opt))
  end.

(** The parts that get an optimizer of their own, and the parts pooled
    under the global one, as the loop sorts them. *)
Definition has_own_optimizer (parts : dict node) (part_name : string) : bool :=
  match dget part_name parts with
  | Some (NDict part) => requires_optimizer part && dmem "optimizer" part
  | _ => false
  end.

Definition is_pooled (parts : dict node) (part_name : string) : bool :=
  match dget part_name parts with
  | Some (NDict part) => requires_optimizer part && negb (dmem "optimizer" part)
  | _ => false
  end.

Definition is_frozen (parts : dict node) (part_name : string) : bool :=
  match dget part_name parts with
  | Some (NDict part) => negb (requires_optimizer part)
  | _ => false
  end.

(** The parameters of the parts [names], one part after the other. *)
Definition pooled_parameters (parts : dict module) (names : list string) : list tensor :=
  flat_map (fun x => match dget x parts with
                     | Some p => parameters p
                     | None => []
                     end) names.

End TrainerModel.

(** A small tensor engine for the examples: a tensor is its name, a model
    part is the list of its parameters with the state last loaded. *)
Definition example_torch : Torch :=
  {| tensor := string;
     state_dict := string;
     batch := Z;
     loss := Z;
     module := list string * option string;
     parameters := fun m => fst m;
     module_load_state_dict := fun st m => Ok (fst m, Some st);
     module_to := fun _ m => m;
     move_to_device := fun b _ => b |}.

(** Parts A (frozen), B (with its own optimizer), C and D. *)
Definition example_parts : dict node :=
  [("A", NDict [("arch", Leaf (SStr "resnet")); ("frozen", Leaf (SBool true))]);
   ("B", NDict [("arch", Leaf (SStr "head"));
                ("optimizer", NDict [("name", Leaf (SStr "sgd"));
                                     ("momentum", Leaf (SInt 1))])]);
   ("C", NDict [("arch", Leaf (SStr "mlp"))]);
   ("D", NDict [("arch", Leaf (SStr "mlp")); ("frozen", Leaf (SBool false))])].

Definition example_cfg : node :=
  NDict [("parts", NDict example_parts);
         ("optimizer", NDict [("name", Leaf (SStr "adam"))])].

Definition example_model_parts : dict (@module example_torch) :=
  [("A", (["a.weight"], None)); ("B", (["b.weight"; "b.bias"], None));
   ("C", (["c.weight"], None)); ("D", (["d.weight"; "d.bias"], None))].

(** A trainer of rank 0 just after its construction. *)
Definition example_trainer : @BaseTrainer example_torch :=
  {| cfg := example_cfg;
     batch_size := Leaf (SInt 16);
     validation_batch_size := Leaf (SInt 32);
     epochs := Leaf (SInt 2);
     device := 0;
     optimizers := [];
     model_parts := example_model_parts;
     saver := Some (mkModelSaver "models/0");
     logger := Some (mkTrainLogger "models/0.log" (Leaf (SInt 2)) None);
     dataloader := [10; 11; 12]%Z;
     validation_dataloader := None;
     train_metrics := [];
     calls := [] |}.

(** The same trainer after [instantiate_optimizers]. *)
#[warnings="-inexact-float"] Definition example_trainer_assigned : @BaseTrainer example_torch :=
  set_optimizers
    (fun _ =>
       [("B", mkOptimizer (H := example_torch) SGD
                [("lr", Leaf (SFloat 0.001%float)); ("momentum", Leaf (SInt 1));
                 ("dampening", Leaf (SInt 0)); ("weight_decay", Leaf (SInt 0));
                 ("nesterov", Leaf (SBool false))]
                ["b.weight"; "b.bias"] None);
        (global_key,
         mkOptimizer (H := example_torch) Adam adam_defaults
           ["c.weight"; "d.weight"; "d.bias"] None)])
    example_trainer.

(** ** Python [range], [enumerate], [sorted], [dict(zip(...))] *)

(** [list(range(start, stop, step))]; a zero step raises [ValueError]. *)
Definition py_range (start stop step : Z) : result (list Z) :=
  if (step =? 0)%Z then Raise ValueError
  else
    let count :=
      if (0 <? step)%Z then ((stop - start + step - 1) / step)%Z
      else ((start - stop - step - 1) / (- step))%Z in
    Ok (map (fun i => (start + Z.of_nat i * step)%Z) (seq 0 (Z.to_nat count))).

(** [enumerate(xs)], counting from [i]. *)
Fixpoint enumerate_from {A} (i : Z) (xs : list A) : list (Z * A) :=
  match xs with
  | [] => []
  | x :: rest => (i, x) :: enumerate_from (i + 1) rest
  end.

Definition enumerate {A} (xs : list A) : list (Z * A) := enumerate_from 0 xs.

Fixpoint insert_sorted (k : string) (ks : list string) : list string :=
  match ks with
  | [] => [k]
  | k' :: rest => if String.leb k k' then k :: ks else k' :: insert_sorted k rest
  end.

(** [sorted(keys)] *)
Definition sorted (ks : list string) : list string :=
  fold_right insert_sorted [] ks.

(** [{k: x for k, x in zip(keys, values)}] *)
Definition dict_of_zip {V} (keys : list string) (values : list V) : dict V :=
  fold_left (fun d kv => dset (fst kv) (snd kv) d) (combine keys values) [].

(** [range(n)] for a configuration value [n]. *)
Definition range_of (n : node) : result (list Z) :=
  match n with
  | Leaf (SInt e) => py_range 0 e 1
  | Leaf (SBool b) => py_range 0 (if b then 1 else 0) 1
  | _ => Raise TypeError
  end.

(** ** trainer.py: the validation trigger set (lines 146-152)

    [n] is [len(self.dataloader)]. *)
Definition validation_triggers (validate_every n : Z) : result (gset Z) :=
  if (validate_every =? -1)%Z then Ok ∅
  else
    r <-? py_range validate_every n validate_every ;;
    Ok (list_to_set r ∖ {[ (n - 1)%Z ]}).

(** The set the design describes: the positive multiples of [v] below
    [n], without [n - 1]. *)
Definition is_trigger (v n i : Z) : Prop :=
  (0 < i /\ (v | i) /\ i < n /\ i <> n - 1)%Z.

Section TrainingLoop.
Context `{Torch}.

(** [amp] of apex, when it is there. *)
Class Apex : Type := {
  (** [amp.initialize(parts, optimizers, opt_level=...)] *)
  amp_initialize : list module -> list Optimizer -> node ->
                   list module * list Optimizer;
  (** whether [from apex import amp] succeeded *)
  HAS_APEX : bool
}.

(** What a concrete trainer supplies: the two abstract methods
    [train_step] and [get_dataloader], and the methods that
    [BaseTrainer] defines with a default. *)
Record TrainerClass : Type := mkTrainerClass {
  train_step : batch -> Z -> list string -> result loss;
  get_dataloader : node -> list batch;
  validation_step : batch -> Z -> result (dict Q);
  get_validation_dataloader : node -> option (list batch);
  get_train_metrics : string + list string
}.

(** [BaseTrainer]'s own [validation_step], [get_validation_dataloader]
    and [get_train_metrics]. *)
Definition default_validation_step (b : batch) (batch_idx : Z) : result (dict Q) :=
  Ok [].
Definition default_get_validation_dataloader (validation_batch_size : node)
  : option (list batch) := None.
Definition default_get_train_metrics : string + list string := inr [].

(** The name of the method that a call invokes. *)
Definition call_method (c : call) : string :=
  match c with
  | SaverSave _ _ _ _ _ _ => "save"
  | LoggerAddMeter _ => "add_meter"
  | LoggerStart => "start"
  | LoggerBatch => "batch"
  | LoggerEpoch => "epoch"
  | ZeroGrad _ => "zero_grad"
  | Backward _ _ => "backward"
  | Step _ => "step"
  end.

(** A method call on [self.logger], which is [None] off rank 0: the
    attribute access on [None] raises. *)
Definition logger_call (c : call) : M BaseTrainer unit :=
  lg <- gets logger ;;
  match lg with
  | Some _ => record_call c
  | None => raise (AttributeError (call_method c))
  end.

(** [BaseTrainer.__init__(cfg, model_parts, saver, logger, device)] *)
Definition BaseTrainer_init (tc : TrainerClass) (c : node) (parts : dict module)
  (sv : option ModelSaver) (lg : option TrainLogger) (dev : Z) : result BaseTrainer :=
  conf <-? as_dict c ;;
  bs <-? attr "batch_size" conf ;;
  vbs <-? attr "validation_batch_size" conf ;;
  ep <-? attr "epochs" conf ;;
  let metrics := match get_train_metrics tc with
                 | inl m => [m]
                 | inr ms => ms
                 end in
  let self := mkBaseTrainer c bs vbs ep dev [] parts sv lg
                (get_dataloader tc bs) (get_validation_dataloader tc vbs) metrics [] in
  match for_each metrics (fun m => logger_call (LoggerAddMeter m)) self with
  | (self', Ok _) => Ok self'
  | (_, Raise e) => Raise e
  end.

(** Lines 133-136: the metrics of one validation batch go into the
    estimators. *)
Fixpoint update_estimators (keys : list string) (metrics : dict Q) (w : Q)
  (estimators : dict AvgEstimator) : result (dict AvgEstimator) :=
  match keys with
  | [] => Ok estimators
  | k :: rest =>
      x <-? dindex k metrics ;;
      let e := match dget k estimators with
               | Some e => e
               | None => AvgEstimator_init
               end in
      match update x w e with
      | (e', Ok _) => update_estimators rest metrics w (dset k e' estimators)
      | (_, Raise ex) => Raise ex
      end
  end.

(** Lines 127-136: one batch of the validation pass. *)
Definition validation_batch (tc : TrainerClass) (estimators : dict AvgEstimator)
  (ib : Z * batch) : M BaseTrainer (dict AvgEstimator) :=
  dev <- gets device ;;
  metrics <- lift (validation_step tc (move_to_device (snd ib) dev) (fst ib)) ;;
  let w := match dget "weight" metrics with Some w => w | None => 1%Q end in
  lift (update_estimators (dkeys metrics) metrics w estimators).

(** Lines 124-141: the metrics of a validation; empty without a
    validation dataloader. *)
Definition validation_pass (tc : TrainerClass) : M BaseTrainer (dict Q) :=
  vdl <- gets validation_dataloader ;;
  match vdl with
  | Some batches =>
      estimators <- for_fold (enumerate batches) [] (validation_batch tc) ;;
      ret (map (fun ke => (fst ke, get (snd ke))) estimators)
  | None => ret []
  end.

(** [BaseTrainer.validate(epoch, train_batch, use_apex)] *)
Definition validate (tc : TrainerClass) (epoch train_batch : Z) (use_apex : bool)
  : M BaseTrainer unit :=
  estimators <- validation_pass tc ;;
  sv <- gets saver ;;
  match sv with
  | Some _ =>
      parts <- gets model_parts ;;
      opts <- gets optimizers ;;
      record_call (SaverSave parts opts use_apex epoch train_batch estimators)
  | None => raise (AttributeError "save")
  end.

(** Lines 157-172: the parts and the optimizers go through
    [amp.initialize], in the order of their sorted keys. *)
Definition apex_wrap `{Apex} (optimization_level : node) : M BaseTrainer unit :=
  fun self =>
    let part_keys := sorted (dkeys (model_parts self)) in
    let opt_keys := sorted (dkeys (optimizers self)) in
    match fold_right (fun k acc => ps <-? acc ;; p <-? dindex k (model_parts self) ;; Ok (p :: ps))
                     (Ok []) part_keys,
          fold_right (fun k acc => os <-? acc ;; o <-? dindex k (optimizers self) ;; Ok (o :: os))
                     (Ok []) opt_keys with
    | Ok parts, Ok opts =>
        let wrapped := amp_initialize parts opts optimization_level in
        (set_optimizers (fun _ => dict_of_zip opt_keys (snd wrapped))
           (set_model_parts (dict_of_zip part_keys (fst wrapped)) self), Ok tt)
    | Raise e, _ => (self, Raise e)
    | _, Raise e => (self, Raise e)
    end.

(** Lines 178-201: one batch of an epoch. *)
Definition train_batch (tc : TrainerClass) (using_apex : bool) (triggers : gset Z)
  (epoch : Z) (ib : Z * batch) : M BaseTrainer unit :=
  opts <- gets (fun self => dvalues (optimizers self)) ;;
  for_each opts (fun o => record_call (ZeroGrad o)) ;;;
  dev <- gets device ;;
  metrics <- gets train_metrics ;;
  l <- lift (train_step tc (move_to_device (snd ib) dev) (fst ib) metrics) ;;
  record_call (Backward l using_apex) ;;;
  opts <- gets (fun self => dvalues (optimizers self)) ;;
  for_each opts (fun o => record_call (Step o)) ;;;
  logger_call LoggerBatch ;;;
  if decide (fst ib ∈ triggers) then validate tc epoch (fst ib) using_apex
  else ret tt.

(** Lines 177-204: one epoch, with the validation at its end. *)
Definition train_epoch (tc : TrainerClass) (using_apex : bool) (triggers : gset Z)
  (epoch : Z) : M BaseTrainer unit :=
  batches <- gets dataloader ;;
  for_each (enumerate batches) (train_batch tc using_apex triggers epoch) ;;;
  logger_call LoggerEpoch ;;;
  n <- gets (fun self => Z.of_nat (length (dataloader self))) ;;
  validate tc epoch n using_apex.

(** [BaseTrainer.train(validate_every, logger_min_wait)] *)
Definition train `{Apex} (tc : TrainerClass) (validate_every logger_min_wait : Z)
  : M BaseTrainer unit :=
  n <- gets (fun self => Z.of_nat (length (dataloader self))) ;;
  triggers <- lift (validation_triggers validate_every n) ;;
  lg <- gets logger ;;
  match lg with
  | Some l =>
      modify (set_logger (Some (mkTrainLogger (logger_path l) (logger_epochs l)
                                  (Some logger_min_wait))))
  | None => raise (AttributeError "min_wait")
  end ;;;
  c <- gets cfg ;;
  conf <- lift (as_dict c) ;;
  let apex := conf_get "apex" (Leaf (SBool false)) conf in
  let using_apex := truthy apex && HAS_APEX in
  (if using_apex then apex_wrap apex else ret tt) ;;;
  logger_call LoggerStart ;;;
  ep <- gets epochs ;;
  epoch_list <- lift (range_of ep) ;;
  for_each epoch_list (train_epoch tc using_apex triggers).

(** The calls of the checkpoint writer among [cs]. *)
Definition is_save (c : call) : bool :=
  match c with
  | SaverSave _ _ _ _ _ _ => true
  | _ => false
  end.

Definition saves (cs : list call) : list call := List.filter is_save cs.

(** The checkpoints labelled with the batch index [n], the label of the
    end of an epoch. *)
Definition is_save_at (n : Z) (c : call) : bool :=
  match c with
  | SaverSave _ _ _ _ train_batch _ => (train_batch =? n)%Z
  | _ => false
  end.

End TrainingLoop.

(** ** Counting checkpoints in a run *)

Section SaveCount.
Context `{Torch}.

(** The number of checkpoints labelled with batch index [n] that the
    trainer has written. *)
Definition saves_at (n : Z) (self : BaseTrainer) : nat :=
  length (List.filter (is_save_at n) (calls self)).

(** A computation that, started on a trainer with [n] batches, when it
    returns has kept the dataloader and the number of epochs and has
    written [k] checkpoints labelled [n]. *)
Definition adds_saves {A} (n : Z) (k : nat) (c : M BaseTrainer A) : Prop :=
  forall (self self' : BaseTrainer) (a : A),
    Z.of_nat (length (dataloader self)) = n ->
    c self = (self', Ok a) ->
    dataloader self' = dataloader self /\
    epochs self' = epochs self /\
    saves_at n self' = (saves_at n self + k)%nat.

(** A computation that never changes the trainer. *)
Definition reads_only {A} (c : M BaseTrainer A) : Prop :=
  forall (self self' : BaseTrainer) (r : result A), c self = (self', r) -> self' = self.

End SaveCount.

(** ** manager.py: training setup *)

Section Manager.
Context `{Torch}.

(** A snapshot written by the checkpoint writer: the state of each part
    and of each optimizer, and the position in the training. *)
Record Checkpoint : Type := mkCheckpoint {
  ck_parts : dict state_dict;
  ck_optimizers : dict state_dict;
  ck_epoch : Z;
  ck_batch : Z
}.

(** What the manager is given from outside: the constructor of the
    parts, JIT tracing of a part from its [jit] entry (lines 132-149,
    which leave the part as it is when the shapes do not parse), the
    text [str(x)] of a configuration value that is not a string, an
    integer or a boolean, and the checkpoint files on disk. *)
Class World : Type := {
  part_constructor : option node -> node -> node -> result module;
  jit_trace : node -> node -> module -> module;
  node_repr : node -> string;
  checkpoint_files : gmap string Checkpoint
}.
Context `{World}.

(** [torch.load(path)] *)
Definition torch_load (path : string) : result Checkpoint :=
  match checkpoint_files !! path with
  | Some ck => Ok ck
  | None => Raise (FileNotFoundError path)
  end.

(** [str(x)] *)
Definition py_str (x : node) : string :=
  match x with
  | Leaf (SStr s) => s
  | Leaf (SInt n) => pretty n
  | Leaf (SBool b) => if b then "True" else "False"
  | _ => node_repr x
  end.

(** [Erlich.get_checkpoint(checkpoint_name)] *)
Definition get_checkpoint (self : Erlich) (checkpoint_name : string)
  : result (string * string * string) :=
  ml <-? (if contains_char "@" checkpoint_name
          then unpack2 (split "@" checkpoint_name)
          else Ok (checkpoint_name, "latest")) ;;
  let checkpoint_path :=
    path_join (path_join (model_folder self) (fst ml)) (snd ml ++ ".pth") in
  Ok (fst ml, snd ml, checkpoint_path).

(** The loop of [load_state_dicts] over [checkpoint["parts"]]. *)
Fixpoint load_parts (keys : list string) (states : dict state_dict)
  (parts : dict module) : result (dict module) :=
  match keys with
  | [] => Ok parts
  | k :: rest =>
      p <-? dindex k parts ;;
      st <-? dindex k states ;;
      p' <-? module_load_state_dict st p ;;
      load_parts rest states (dset k p' parts)
  end.

(** [Erlich.load_state_dicts(model_parts, checkpoint_path, device)]; the
    parts are loaded in place. *)
Definition load_state_dicts (parts : dict module) (checkpoint_path : string)
  : result (dict module * Checkpoint) :=
  checkpoint <-? torch_load checkpoint_path ;;
  parts' <-? load_parts (dkeys (ck_parts checkpoint)) (ck_parts checkpoint) parts ;;
  Ok (parts', checkpoint).

(** Lines 119-130: the weights of one part, from the checkpoint that its
    [weights] entry names. *)
Definition load_weights (self : Erlich) (weights : node) (p : module) : result module :=
  w <-? as_str weights ;;
  mb <-? (if contains_char "@" w then unpack2 (split "@" w) else Ok (w, "latest")) ;;
  ml <-? unpack2 (split "." (fst mb)) ;;
  let checkpoint_path :=
    path_join (path_join (model_folder self) (fst ml)) (snd mb ++ ".pth") in
  checkpoint <-? torch_load checkpoint_path ;;
  st <-? dindex (snd ml) (ck_parts checkpoint) ;;
  module_load_state_dict st p.

(** The body of the loop of [instantiate_model_parts] for the part
    [name]. *)
Definition instantiate_part (self : Erlich) (c : node) (parts_cfg : dict node)
  (dev : Z) (jit load : bool) (parts : dict module) (name : string)
  : result (dict module) :=
  part <-? attr name parts_cfg ;;
  spec <-? as_dict part ;;
  if negb (dmem "arch" spec || dmem "architecture" spec) then Raise AssertionError
  else
    let arch := match dget "arch" spec with
                | Some a => Some a
                | None => dget "architecture" spec
                end in
    p <-? part_constructor arch part c ;;
    let p := module_to dev p in
    p <-? (match dget "weights" spec with
           | Some w => if load then load_weights self w p else Ok p
           | None => Ok p
           end) ;;
    match dget "jit" spec with
    | Some j => if truthy j && jit then Ok (dset name (jit_trace j c p) parts)
                else Ok (dset name p parts)
    | None => Ok (dset name p parts)
    end.

Fixpoint instantiate_parts (self : Erlich) (c : node) (parts_cfg : dict node)
  (dev : Z) (jit load : bool) (names : list string) (parts : dict module)
  : result (dict module) :=
  match names with
  | [] => Ok parts
  | name :: rest =>
      parts' <-? instantiate_part self c parts_cfg dev jit load parts name ;;
      instantiate_parts self c parts_cfg dev jit load rest parts'
  end.

(** [Erlich.instantiate_model_parts(cfg, device, jit, load)] *)
Definition instantiate_model_parts (self : Erlich) (c : node) (dev : Z)
  (jit load : bool) : result (dict module) :=
  conf <-? as_dict c ;;
  parts_cfg <-? attr "parts" conf ;;
  parts_cfg <-? as_dict parts_cfg ;;
  instantiate_parts self c parts_cfg dev jit load (dkeys parts_cfg) [].

(** Lines 253-254: each optimizer state of the checkpoint goes into the
    trainer's optimizer of the same key. *)
Fixpoint load_optimizers (keys : list string) (states : dict state_dict)
  : M BaseTrainer unit :=
  match keys with
  | [] => ret tt
  | k :: rest =>
      opts <- gets optimizers ;;
      o <- lift (dindex k opts) ;;
      st <- lift (dindex k states) ;;
      modify (set_optimizers (dset k (optimizer_load_state_dict st o))) ;;;
      load_optimizers rest states
  end.

(** Lines 244-254: the checkpoint named by [load_checkpoint], if any. *)
Definition load_checkpoint (self : Erlich) (conf : dict node) : M BaseTrainer unit :=
  match dget "load_checkpoint" conf with
  | Some name =>
      ref <- lift (get_checkpoint self (py_str name)) ;;
      parts <- gets model_parts ;;
      loaded <- lift (load_state_dicts parts (snd ref)) ;;
      modify (set_model_parts (fst loaded)) ;;;
      if negb (dmem "load_optimizers" conf) ||
         truthy (conf_get "load_optimizers" (Leaf (SBool true)) conf)
      then load_optimizers (dkeys (ck_optimizers (snd loaded)))
                           (ck_optimizers (snd loaded))
      else ret tt
  | None => ret tt
  end.

(** [Erlich._train], from its start to the instantiation of the
    optimizers (lines 212-263), for the worker [rank].  The process
    group and the seed of lines 215-220 are the tensor library's.  Line
    241 calls the trainer class with seven arguments; the class here is
    one whose constructor hands the first five to [BaseTrainer.__init__]
    and keeps the rank and the world size to itself ([train_setup_with]
    below takes any constructor).  [create_dataloaders] is the concrete
    trainer's.  The call of [trainer.train] that follows is [train]
    above. *)
Definition train_setup (self : Erlich) (tc : TrainerClass)
  (create_dataloaders : M BaseTrainer unit)
  (rank : nat) (devices : list Z) (c : node) (mdl_path : string)
  : result BaseTrainer :=
  dev <-? (match nth_error devices rank with
           | Some d => Ok d
           | None => Raise IndexError
           end) ;;
  conf <-? as_dict c ;;
  ls <-? (if (rank =? 0)%nat
          then ep <-? attr "epochs" conf ;;
               Ok (Some (mkTrainLogger (mdl_path ++ ".log") ep None),
                   Some (mkModelSaver mdl_path))
          else Ok (None, None)) ;;
  parts <-? instantiate_model_parts self c dev true true ;;
  trainer <-? BaseTrainer_init tc c parts (snd ls) (fst ls) dev ;;
  match (load_checkpoint self conf ;;;
         create_dataloaders ;;;
         instantiate_optimizers c) trainer with
  | (trainer', Ok _) => Ok trainer'
  | (_, Raise e) => Raise e
  end.

End Manager.

(** A concrete trainer, for the examples: three training batches, two
    validation batches, an accuracy of 1/2 on each with weight 2. *)
Definition example_train_step (b batch_idx : Z) (metrics : list string) : result Z :=
  Ok (b + batch_idx)%Z.

Definition example_validation_step (b batch_idx : Z) : result (dict Q) :=
  Ok [("acc", (1 # 2)%Q); ("weight", 2%Q)].

Definition example_trainer_class : @TrainerClass example_torch :=
  @mkTrainerClass example_torch
    example_train_step                 (* train_step *)
    (fun _ => [10; 11; 12]%Z)          (* get_dataloader *)
    example_validation_step            (* validation_step *)
    (fun _ => Some [1; 2]%Z)           (* get_validation_dataloader *)
    (inr []).                          (* get_train_metrics *)

Definition example_apex : @Apex example_torch :=
  @Build_Apex example_torch (fun parts opts _ => (parts, opts)) false.

(** A checkpoint of model [0], saved with the global optimizer. *)
Definition example_checkpoint : @Checkpoint example_torch :=
  @mkCheckpoint example_torch
    [("C", "state of C")]                                     (* parts *)
    [(global_key, "state of the global optimizer")]           (* optimizers *)
    1 3.

Definition example_world : @World example_torch :=
  @Build_World example_torch
    (fun _ _ _ => Ok ((["weight"; "bias"], None) : @module example_torch))
    (fun _ _ m => m)
    (fun _ => "?")
    {[ "models/0/latest.pth" := example_checkpoint ]}.

(** A resolved configuration with one part under the global optimizer. *)
Definition example_train_cfg : node :=
  NDict [("parts", NDict [("C", NDict [("arch", Leaf (SStr "mlp"))])]);
         ("optimizer", NDict [("name", Leaf (SStr "adam"))]);
         ("batch_size", Leaf (SInt 16)); ("epochs", Leaf (SInt 2));
         ("validation_batch_size", Leaf (SInt 32))].

(** The same configuration, resuming from the latest checkpoint of
    model [0]. *)
Definition example_resume_cfg : node :=
  NDict [("parts", NDict [("C", NDict [("arch", Leaf (SStr "mlp"))])]);
         ("optimizer", NDict [("name", Leaf (SStr "adam"))]);
         ("batch_size", Leaf (SInt 16)); ("epochs", Leaf (SInt 2));
         ("validation_batch_size", Leaf (SInt 32));
         ("load_checkpoint", Leaf (SInt 0))].

(** ** Predicates used by the further properties *)

(** The number of occurrences of the character [c] in [s]. *)
Fixpoint count_char (c : ascii) (s : string) : nat :=
  match s with
  | EmptyString => 0
  | String c' rest => (if Ascii.eqb c' c then 1 else 0) + count_char c rest
  end.

(** The example world with no checkpoint file on disk. *)
Definition example_world_no_files : @World example_torch :=
  @Build_World example_torch
    (fun _ _ _ => Ok ((["weight"; "bias"], None) : @module example_torch))
    (fun _ _ m => m)
    (fun _ => "?")
    ∅.

(** A model with the parts C and D, before and after the state of C is
    loaded from the example checkpoint. *)
Definition example_two_parts : dict (@module example_torch) :=
  [("C", (["weight"; "bias"], None)); ("D", (["d.weight"], None))].

Definition example_two_parts_loaded : dict (@module example_torch) :=
  [("C", (["weight"; "bias"], Some "state of C")); ("D", (["d.weight"], None))].

Section FreshOptimizers.
Context `{Torch}.

(** No optimizer holds a loaded state. *)
Definition all_fresh (opts : dict Optimizer) : Prop :=
  forall k o, dget k opts = Some o -> opt_state o = None.

End FreshOptimizers.

(** The trainer that [BaseTrainer.__init__] builds on rank 0 for the
    example configuration. *)
Definition example_trainer_fresh : @BaseTrainer example_torch :=
  @mkBaseTrainer example_torch
    example_train_cfg (Leaf (SInt 16)) (Leaf (SInt 32)) (Leaf (SInt 2))
    0                                                           (* device *)
    []                                                          (* optimizers *)
    [("C", (["weight"; "bias"], None))]                         (* model_parts *)
    (Some (mkModelSaver "models/1"))
    (Some (mkTrainLogger "models/1.log" (Leaf (SInt 2)) None))
    [10; 11; 12]%Z (Some [1; 2]%Z)                              (* dataloaders *)
    [] [].

(** ** The metrics of a validation *)

Section ValidationMetrics.
Local Open Scope Q_scope.

(** The weight of a validation batch: [metrics.get("weight", 1.0)]. *)
Definition batch_weight (metrics : dict Q) : Q :=
  match dget "weight" metrics with Some w => w | None => 1 end.

(** What the validation batches report under the key [k]: the value of
    each batch that has the key, with the weight of that batch, in the
    order of the batches. *)
Fixpoint reports (k : string) (ms : list (dict Q)) : list (Q * Q) :=
  match ms with
  | [] => []
  | m :: rest =>
      match dget k m with
      | Some x => (x, batch_weight m) :: reports k rest
      | None => reports k rest
      end
  end.

(** The metrics of a batch are a dictionary (no key twice) with a
    positive weight. *)
Definition positive_report (m : dict Q) : Prop :=
  NoDup (dkeys m) /\ 0 < batch_weight m.

(** The estimator of the key [k], a fresh one when there is none yet. *)
Definition est_of (k : string) (estimators : dict AvgEstimator) : AvgEstimator :=
  match dget k estimators with
  | Some e => e
  | None => AvgEstimator_init
  end.

Definition est_positive (estimators : dict AvgEstimator) : Prop :=
  forall k e, dget k estimators = Some e -> 0 < tot_weight e.

End ValidationMetrics.

(** ** Counting all the checkpoints of a run *)

Section CheckpointCount.
Context `{Torch}.

(** The number of checkpoints that the trainer has written. *)
Definition count_saves (self : BaseTrainer) : nat := length (saves (calls self)).

(** A computation that, started on a trainer with [n] batches, when it
    returns has kept the dataloader and the number of epochs and has
    written [k] checkpoints. *)
Definition writes {A} (n : Z) (k : nat) (c : M BaseTrainer A) : Prop :=
  forall (self self' : BaseTrainer) (a : A),
    Z.of_nat (length (dataloader self)) = n ->
    c self = (self', Ok a) ->
    dataloader self' = dataloader self /\
    epochs self' = epochs self /\
    count_saves self' = (count_saves self + k)%nat.

(** The number of batches of an epoch after which a validation is
    triggered. *)
Definition triggered {A} (triggers : gset Z) (ibs : list (Z * A)) : nat :=
  list_sum (map (fun ib => if decide (fst ib ∈ triggers) then 1 else 0)%nat ibs).

End CheckpointCount.

(** ** manager.py: the rendezvous file of a distributed run (lines 290-293)

    [while os.path.exists(self.shared_file_path): self.shared_file_path
    = self.shared_file_path + "_"].  [disk] is the set of the paths for
    which [os.path.exists] holds, among those that the loop can try; it
    is finite, and nothing else changes it while the loop runs.  The
    loop is run with fuel; one round more than [disk] has paths is
    always enough. *)
Fixpoint free_path (fuel : nat) (disk : gset string) (path : string) : option string :=
  match fuel with
  | O => None
  | S fuel' =>
      if decide (path ∈ disk) then free_path fuel' disk (path ++ "_")
      else Some path
  end.

Definition choose_shared_file (disk : gset string) (self : Erlich) : option Erlich :=
  match free_path (S (size disk)) disk (shared_file_path self) with
  | Some path => Some (mkErlich (config_folder self) (model_folder self) path)
  | None => None
  end.

(** [k] underscores. *)
Fixpoint underscores (k : nat) : string :=
  match k with
  | O => EmptyString
  | S k' => String "_" (underscores k')
  end.

(** ** manager.py: the models on disk and the next model id (lines 153-169) *)

(** [s.rsplit(sep, 1)[0]]: [s] up to its last [sep], all of [s] when it
    has none. *)
Fixpoint before_last (sep : ascii) (s : string) : option string :=
  match s with
  | EmptyString => None
  | String c rest =>
      match before_last sep rest with
      | Some r => Some (String c r)
      | None => if Ascii.eqb c sep then Some EmptyString else None
      end
  end.

Definition rsplit1_head (sep : ascii) (s : string) : string :=
  match before_last sep s with Some r => r | None => s end.

(** [sorted(ids)] on integers. *)
Fixpoint insert_int (i : Z) (l : list Z) : list Z :=
  match l with
  | [] => [i]
  | j :: rest => if (i <=? j)%Z then i :: l else j :: insert_int i rest
  end.

Definition sorted_ints (l : list Z) : list Z := fold_right insert_int [] l.

(** A list of integers in ascending order. *)
Fixpoint ascending (l : list Z) : Prop :=
  match l with
  | [] => True
  | i :: rest => (forall j, In j rest -> (i <= j)%Z) /\ ascending rest
  end.

(** [[f(x) for x in xs]] and [list(filter(p, xs))], where [f] and [p]
    may raise: the first exception ends the evaluation. *)
Fixpoint rmap {A B} (f : A -> result B) (xs : list A) : result (list B) :=
  match xs with
  | [] => Ok []
  | x :: rest => y <-? f x ;; ys <-? rmap f rest ;; Ok (y :: ys)
  end.

Fixpoint rfilter {A} (p : A -> result bool) (xs : list A) : result (list A) :=
  match xs with
  | [] => Ok []
  | x :: rest =>
      b <-? p x ;; ys <-? rfilter p rest ;; Ok (if b then x :: ys else ys)
  end.

Section Models.

(** What these methods read: the paths that [glob] returns for a
    pattern, [os.path.exists], [os.listdir], and Python's [int] on a
    string (which accepts more than plain decimal digits, and raises
    [ValueError] on the rest). *)
Class Disk : Type := {
  glob : string -> list string;
  path_exists : string -> bool;
  listdir : string -> result (list string);
  py_int : string -> result Z
}.
Context `{Disk}.

(** [Erlich.model_actually_exists(mdl_id)], on an integer id. *)
Definition model_actually_exists (self : Erlich) (mdl_id : Z) : result bool :=
  let yaml_path := path_join (model_folder self) (pretty mdl_id ++ ".yaml") in
  let folder := path_join (model_folder self) (pretty mdl_id) in
  if path_exists yaml_path then
    if path_exists folder then
      names <-? listdir folder ;; Ok (0 <? length names)%nat
    else Ok false
  else Ok false.

(** [Erlich.list_models()] *)
Definition list_models (self : Erlich) : result (list Z) :=
  let files := glob (path_join (model_folder self) "*.yaml") in
  model_ids <-? rmap (fun x => py_int (rsplit1_head "." (List.last (split "/" x) EmptyString)))
                     files ;;
  rfilter (model_actually_exists self) (sorted_ints model_ids).

(** [Erlich.get_next_id()]; the list is read a second time for its last
    element. *)
Definition get_next_id (self : Erlich) : result string :=
  models <-? list_models self ;;
  match models with
  | [] => Ok "0"
  | _ :: _ =>
      again <-? list_models self ;;
      match again with
      | [] => Raise IndexError
      | _ :: _ => Ok (pretty (List.last again 0%Z + 1)%Z)
      end
  end.

(** The file name of a path, without its extension, as [list_models]
    cuts it out. *)
Definition stem (path : string) : string :=
  rsplit1_head "." (List.last (split "/" path) EmptyString).

End Models.

(** A model folder with the yaml files of the models 0, 2 and 1, of
    which 1 has no folder; [int] is given on decimal digits only. *)
Fixpoint digits_value (acc : Z) (s : string) : result Z :=
  match s with
  | EmptyString => Ok acc
  | String c rest =>
      let d := (Z.of_nat (nat_of_ascii c) - 48)%Z in
      if ((0 <=? d) && (d <=? 9))%Z then digits_value (10 * acc + d)%Z rest
      else Raise ValueError
  end.

Definition example_disk : Disk :=
  {| glob := fun pattern =>
       if String.eqb pattern "models/*.yaml"
       then ["models/0.yaml"; "models/2.yaml"; "models/1.yaml"] else [];
     path_exists := fun path =>
       existsb (String.eqb path)
         ["models"; "models/0.yaml"; "models/0"; "models/0/latest.pth";
          "models/2.yaml"; "models/2"; "models/2/latest.pth"; "models/1.yaml"];
     listdir := fun path =>
       if String.eqb path "models/0" || String.eqb path "models/2"
       then Ok ["latest.pth"] else Raise (FileNotFoundError path);
     py_int := fun s =>
       match s with
       | EmptyString => Raise ValueError
       | _ => digits_value 0 s
       end |}.

(** ** components/conv_blocks.py: the layers of the dense blocks

    [conv] comes from [components/convolutions.py]; a call of it is kept
    as the record of its arguments. *)
Record conv_call : Type := mkConv {
  conv_in : Z;
  conv_out : Z;
  conv_kernel : Z;
  conv_activation : option string;
  conv_normalization : option string
}.

(** A layer of a dense block: one [conv], or the [nn.Sequential] of a
    bottleneck [conv] and a [conv]. *)
Inductive layer : Type :=
  | Single (c : conv_call)
  | Sequential2 (c1 c2 : conv_call).

(** Lines 39-43: the loop of [DenseBlock.__init__], over the indices of
    [range(n_layers)], with the running channel count [ch]. *)
Fixpoint dense_layers (indices : list Z) (ch growth_rate : Z)
  (activation normalization : option string) : list layer :=
  match indices with
  | [] => []
  | _ :: rest =>
      Single (mkConv ch growth_rate 3 activation normalization)
      :: dense_layers rest (ch + growth_rate) growth_rate activation normalization
  end.

(** [DenseBlock.__init__]: the contents of [self.layers]. *)
Definition DenseBlock_init (input_channels growth_rate n_layers : Z)
  (activation normalization : option string) : result (list layer) :=
  indices <-? py_range 0 n_layers 1 ;;
  Ok (dense_layers indices input_channels growth_rate activation normalization).

(** Lines 62-72: the loop of [DenseBottleneckBlock.__init__]. *)
Fixpoint bottleneck_layers (indices : list Z) (ch growth_rate bottleneck : Z)
  (activation normalization : option string) : list layer :=
  match indices with
  | [] => []
  | _ :: rest =>
      (if (ch <? bottleneck)%Z
       then Single (mkConv ch growth_rate 3 activation normalization)
       else Sequential2 (mkConv ch bottleneck 1 activation normalization)
                        (mkConv bottleneck growth_rate 3 activation normalization))
      :: bottleneck_layers rest (ch + growth_rate) growth_rate bottleneck
           activation normalization
  end.

(** [DenseBottleneckBlock.__init__]: the contents of [self.layers];
    [threshold] is computed and then not read. *)
Definition DenseBottleneckBlock_init (input_channels growth_rate n_layers : Z)
  (bottleneck threshold : Z) (activation normalization : option string)
  : result (list layer) :=
  let bottleneck := if (0 <? bottleneck)%Z then bottleneck else (4 * growth_rate)%Z in
  let threshold := if (0 <? threshold)%Z then threshold else bottleneck in
  indices <-? py_range 0 n_layers 1 ;;
  Ok (bottleneck_layers indices input_channels growth_rate bottleneck
        activation normalization).

(** The channels that a layer takes and gives, and whether the two
    convolutions of a bottleneck layer fit. *)
Definition layer_in (l : layer) : Z :=
  match l with Single c => conv_in c | Sequential2 c1 _ => conv_in c1 end.
Definition layer_out (l : layer) : Z :=
  match l with Single c => conv_out c | Sequential2 _ c2 => conv_out c2 end.
Definition layer_fits (l : layer) : Prop :=
  match l with Single _ => True | Sequential2 c1 c2 => conv_out c1 = conv_in c2 end.

(** [forward] on the number of channels: each layer is given [c]
    channels, which must be what it was built for, and its output is
    concatenated to its input; [c'] channels come out. *)
Fixpoint chained (c : Z) (layers : list layer) (c' : Z) : Prop :=
  match layers with
  | [] => c' = c
  | l :: rest => layer_in l = c /\ layer_fits l /\ chained (c + layer_out l)%Z rest c'
  end.

Definition is_bottleneck (l : layer) : bool :=
  match l with Single _ => false | Sequential2 _ _ => true end.

(** ** The saver of a worker and the checkpoint store *)

Section WorkerSaver.
Context `{Torch}.

(** Lines 228-236 of [_train]: the logger and the saver of the worker
    [rank]. *)
Definition worker_logger_saver (rank : nat) (conf : dict node) (mdl_path : string)
  : result (option TrainLogger * option ModelSaver) :=
  if (rank =? 0)%nat
  then ep <-? attr "epochs" conf ;;
       Ok (Some (mkTrainLogger (mdl_path ++ ".log") ep None),
           Some (mkModelSaver mdl_path))
  else Ok (None, None).



End WorkerSaver.

(** ** manager.py: the setup of [_train] for any trainer class *)

Section SetupAnyTrainer.
Context `{Torch}.
Context `{!World}.

(** [Erlich._train], from its start to the instantiation of the
    optimizers (lines 212-263), for the worker [rank] of [world_size].
    [trainer_class] is the constructor that line 241 calls with its
    seven arguments; [create_dataloaders] is the method of the trainer
    it returns.  The process group and the seed of lines 213-220 are the
    tensor library's. *)
Definition train_setup_with (self : Erlich)
  (trainer_class : node -> dict module -> option ModelSaver -> option TrainLogger ->
                   Z -> nat -> nat -> result BaseTrainer)
  (create_dataloaders : M BaseTrainer unit)
  (rank world_size : nat) (devices : list Z) (c : node) (mdl_path : string)
  : result BaseTrainer :=
  dev <-? (match nth_error devices rank with
           | Some d => Ok d
           | None => Raise IndexError
           end) ;;
  conf <-? as_dict c ;;
  ls <-? worker_logger_saver rank conf mdl_path ;;
  parts <-? instantiate_model_parts self c dev true true ;;
  trainer <-? trainer_class c parts (snd ls) (fst ls) dev rank world_size ;;
  match (load_checkpoint self conf ;;;
         create_dataloaders ;;;
         instantiate_optimizers c) trainer with
  | (trainer', Ok _) => Ok trainer'
  | (_, Raise e) => Raise e
  end.

End SetupAnyTrainer.

(** A checkpoint of model [0] that holds the state of the part and no
    optimizer state, and the disk that has it. *)
Definition example_checkpoint_parts_only : @Checkpoint example_torch :=
  @mkCheckpoint example_torch [("C", "state of C")] [] 1 3.

Definition example_world_parts_only : @World example_torch :=
  @Build_World example_torch
    (fun _ _ _ => Ok ((["weight"; "bias"], None) : @module example_torch))
    (fun _ _ m => m)
    (fun _ => "?")
    {[ "models/0/latest.pth" := example_checkpoint_parts_only ]}.

(** The entries of the configuration that resumes from model [0]. *)
Definition example_resume_entries : dict node :=
  [("parts", NDict [("C", NDict [("arch", Leaf (SStr "mlp"))])]);
   ("optimizer", NDict [("name", Leaf (SStr "adam"))]);
   ("batch_size", Leaf (SInt 16)); ("epochs", Leaf (SInt 2));
   ("validation_batch_size", Leaf (SInt 32));
   ("load_checkpoint", Leaf (SInt 0))].

(** A trainer class whose constructor is [BaseTrainer.__init__] and
    takes the rank and the world size without using them. *)
Definition example_constructor (c : node) (parts : dict (@module example_torch))
  (sv : option ModelSaver) (lg : option TrainLogger) (dev : Z) (rank world_size : nat)
  : result (@BaseTrainer example_torch) :=
  BaseTrainer_init example_trainer_class c parts sv lg dev.

(** * Properties *)

(** ** The running estimator *)

Section EstimatorFacts.
Local Open Scope Q_scope.

Lemma update_defined (x w : Q) (self : AvgEstimator) :
  ~ tot_weight self + w == 0 ->
  update x w self =
    ({| avg := avg self + (x - avg self) * w / (tot_weight self + w);
        tot_weight := tot_weight self + w |}, Ok tt).
Proof.
  intros Hnz. unfold update. cbn [avg tot_weight].
  destruct (Qeq_bool (tot_weight self + w) 0) eqn:E; [|reflexivity].
  apply Qeq_bool_iff in E. contradiction.
Qed.

Lemma update_zero_division (x w : Q) (self : AvgEstimator) :
  tot_weight self + w == 0 ->
  snd (update x w self) = Raise ZeroDivisionError.
Proof.
  intros Hz. unfold update. cbn [avg tot_weight].
  apply Qeq_bool_iff in Hz. rewrite Hz. reflexivity.
Qed.

Lemma update_raises_iff (x w : Q) (self : AvgEstimator) :
  snd (update x w self) = Raise ZeroDivisionError <-> tot_weight self + w == 0.
Proof.
  split; [|apply update_zero_division].
  unfold update. cbn [avg tot_weight].
  destruct (Qeq_bool (tot_weight self + w) 0) eqn:E; cbn; [|discriminate].
  intros _. now apply Qeq_bool_iff.
Qed.

Lemma sum_w_nonneg (l : list (Q * Q)) :
  Forall nonneg_weight l -> 0 <= sum_w l.
Proof.
  induction 1 as [|xw l Hxw _ IH]; unfold sum_w; cbn [fold_right].
  - apply Qle_refl.
  - fold (sum_w l). unfold nonneg_weight in Hxw. lra.
Qed.

Lemma sum_w_perm (l l' : list (Q * Q)) :
  Permutation l l' -> sum_w l == sum_w l'.
Proof.
  induction 1 as [|a l l' _ IH|a b l|l l' l'' _ IH1 _ IH2].
  - reflexivity.
  - change (snd a + sum_w l == snd a + sum_w l'). now rewrite IH.
  - unfold sum_w; cbn [fold_right]. ring.
  - now rewrite IH1.
Qed.

Lemma sum_wx_perm (l l' : list (Q * Q)) :
  Permutation l l' -> sum_wx l == sum_wx l'.
Proof.
  induction 1 as [|a l l' _ IH|a b l|l l' l'' _ IH1 _ IH2].
  - reflexivity.
  - change (snd a * fst a + sum_wx l == snd a * fst a + sum_wx l'). now rewrite IH.
  - unfold sum_wx; cbn [fold_right]. ring.
  - now rewrite IH1.
Qed.

Lemma weighted_mean_perm (l l' : list (Q * Q)) :
  Permutation l l' -> weighted_mean l == weighted_mean l'.
Proof.
  intros H. unfold weighted_mean.
  now rewrite (sum_w_perm _ _ H), (sum_wx_perm _ _ H).
Qed.

(** One successful update keeps the two sums: the new total weight is the
    old one plus [w], and [avg * tot_weight] grows by [w * x]. *)
Lemma update_sums (x w : Q) (self : AvgEstimator) :
  ~ tot_weight self + w == 0 ->
  exists self', update x w self = (self', Ok tt) /\
    tot_weight self' == tot_weight self + w /\
    avg self' * tot_weight self' == avg self * tot_weight self + w * x.
Proof.
  intros Hnz. eexists. split; [apply update_defined; assumption|].
  cbn [avg tot_weight]. split; [reflexivity|]. field. assumption.
Qed.

(** Non-negative weights on an estimator whose total weight is already
    positive: every update succeeds and the sums are kept. *)
Lemma updates_sums (l : list (Q * Q)) : forall self : AvgEstimator,
  0 < tot_weight self -> Forall nonneg_weight l ->
  exists self', updates l self = (self', Ok tt) /\
    tot_weight self' == tot_weight self + sum_w l /\
    avg self' * tot_weight self' == avg self * tot_weight self + sum_wx l.
Proof.
  induction l as [|[x w] l IH]; intros self Hpos Hl.
  - exists self. cbn. repeat split; ring.
  - inversion Hl as [|? ? Hw Hl']; subst. unfold nonneg_weight in Hw; cbn in Hw.
    destruct (update_sums x w self) as (s1 & E1 & Ht1 & Ha1); [lra|].
    destruct (IH s1) as (s2 & E2 & Ht2 & Ha2); [lra|assumption|].
    exists s2. split.
    + unfold updates. cbn [for_each fst snd]. unfold bind. rewrite E1. exact E2.
    + cbn [sum_w sum_wx fold_right fst snd]. fold (sum_w l). fold (sum_wx l).
      split; [rewrite Ht2, Ht1; ring | rewrite Ha2, Ha1; ring].
Qed.

(** A sequence that starts with a positive weight and goes on with
    non-negative ones: all updates succeed, and the estimator holds the
    weighted mean. *)
Lemma updates_from_init (x w : Q) (l : list (Q * Q)) :
  0 < w -> Forall nonneg_weight l ->
  exists self, updates ((x, w) :: l) AvgEstimator_init = (self, Ok tt) /\
    0 < tot_weight self /\
    get self == weighted_mean ((x, w) :: l).
Proof.
  intros Hw Hl.
  destruct (update_sums x w AvgEstimator_init) as (s1 & E1 & Ht1 & Ha1);
    [cbn; lra|]. cbn [avg tot_weight AvgEstimator_init] in Ht1, Ha1.
  destruct (updates_sums l s1) as (s2 & E2 & Ht2 & Ha2); [lra|assumption|].
  pose proof (sum_w_nonneg l Hl) as Hs.
  exists s2. split; [|split].
  - unfold updates. cbn [for_each fst snd]. unfold bind. rewrite E1. exact E2.
  - lra.
  - unfold get, weighted_mean. cbn [sum_w sum_wx fold_right fst snd].
    fold (sum_w l). fold (sum_wx l).
    assert (Htot : tot_weight s2 == w + sum_w l) by (rewrite Ht2, Ht1; ring).
    assert (Hnum : avg s2 * tot_weight s2 == w * x + sum_wx l)
      by (rewrite Ha2, Ha1; ring).
    rewrite <- Htot, <- Hnum. field. lra.
Qed.

(** A sequence that starts with weight [0] on a fresh estimator raises
    at its first call, whatever follows. *)
Lemma updates_leading_zero (x : Q) (l : list (Q * Q)) :
  snd (updates ((x, 0) :: l) AvgEstimator_init) = Raise ZeroDivisionError.
Proof. reflexivity. Qed.

End EstimatorFacts.

Section EstimatorClaims.
Local Open Scope Q_scope.

(** C1, as stated, fails: the calls [update(1, 0); update(1, 1)] have
    non-negative weights and one positive weight, yet the first call
    divides by a zero total weight and raises, so no mean is returned. *)
Lemma weighted_mean_fails_on_leading_zero_weight :
  Forall nonneg_weight [(1, 0); (1, 1)] /\
  Exists pos_weight [(1, 0); (1, 1)] /\
  snd (updates [(1, 0); (1, 1)] AvgEstimator_init) = Raise ZeroDivisionError /\
  ~ returns_weighted_mean [(1, 0); (1, 1)].
Proof.
  split; [|split; [|split]].
  - repeat constructor; unfold nonneg_weight; cbn; lra.
  - apply Exists_cons_tl, Exists_cons_hd. unfold pos_weight; cbn; lra.
  - reflexivity.
  - intros (self & E & _). apply (f_equal snd) in E.
    rewrite updates_leading_zero in E. discriminate.
Qed.

(** C1, amended: for calls [update(x_i, w_i)] on a fresh estimator whose
    first weight is positive and whose other weights are non-negative,
    every call succeeds and [get()] returns Σ(w_i·x_i)/Σw_i exactly;
    every permutation of the calls that also starts with a positive
    weight succeeds too and returns the same value. *)
Theorem weighted_mean_any_order (x w : Q) (l : list (Q * Q)) :
  0 < w -> Forall nonneg_weight l ->
  returns_weighted_mean ((x, w) :: l) /\
  forall (x' w' : Q) (l' : list (Q * Q)),
    Permutation ((x, w) :: l) ((x', w') :: l') -> 0 < w' ->
    exists self self',
      updates ((x, w) :: l) AvgEstimator_init = (self, Ok tt) /\
      updates ((x', w') :: l') AvgEstimator_init = (self', Ok tt) /\
      get self' == get self.
Proof.
  intros Hw Hl.
  destruct (updates_from_init x w l Hw Hl) as (self & E & _ & Hmean).
  split; [exists self; split; assumption|].
  intros x' w' l' Hperm Hw'.
  assert (Hl' : Forall nonneg_weight l').
  { assert (Hall : Forall nonneg_weight ((x', w') :: l')).
    { eapply Permutation_Forall; [exact Hperm|].
      constructor; [unfold nonneg_weight; cbn; lra|assumption]. }
    now inversion Hall. }
  destruct (updates_from_init x' w' l' Hw' Hl') as (self' & E' & _ & Hmean').
  exists self, self'. repeat split; try assumption.
  rewrite Hmean, Hmean'. symmetry. now apply weighted_mean_perm.
Qed.

Lemma weighted_mean_any_order_witness :
  returns_weighted_mean [(1, 1); (3, 2); (5, 0)] /\
  forall (x' w' : Q) (l' : list (Q * Q)),
    Permutation [(1, 1); (3, 2); (5, 0)] ((x', w') :: l') -> 0 < w' ->
    exists self self',
      updates [(1, 1); (3, 2); (5, 0)] AvgEstimator_init = (self, Ok tt) /\
      updates ((x', w') :: l') AvgEstimator_init = (self', Ok tt) /\
      get self' == get self.
Proof.
  apply (weighted_mean_any_order 1 1 [(3, 2); (5, 0)]).
  - reflexivity.
  - repeat constructor; unfold nonneg_weight; cbn; discriminate.
Defined.

(** C8, as stated, fails: after [update(0, -1)] the total weight is [-1],
    which is not positive, and [update(5, 0)] returns without raising. *)
Lemma zero_weight_update_on_negative_total_succeeds :
  exists self,
    updates [(0, -1)] AvgEstimator_init = (self, Ok tt) /\
    ~ 0 < tot_weight self /\
    snd (update 5 0 self) = Ok tt.
Proof.
  eexists. split; [reflexivity|]. split; [|reflexivity].
  cbn. intros H. discriminate H.
Qed.

(** C8, amended: [update(x, 0)] raises if and only if [total_weight] is
    zero at the time of the call, and the failure is the division by
    zero; nothing is returned silently. *)
Theorem update_zero_weight_raises_iff (x : Q) (self : AvgEstimator) :
  (snd (update x 0 self) = Raise ZeroDivisionError <-> tot_weight self == 0) /\
  (is_ok (snd (update x 0 self)) = false <-> tot_weight self == 0).
Proof.
  assert (Hz : tot_weight self + 0 == 0 <-> tot_weight self == 0).
  { split; intros H; [rewrite <- H|rewrite H]; ring. }
  split.
  - rewrite update_raises_iff. exact Hz.
  - rewrite <- Hz, <- (update_raises_iff x 0 self).
    unfold update. cbn [avg tot_weight].
    destruct (Qeq_bool (tot_weight self + 0) 0); cbn; split; congruence.
Qed.

End EstimatorClaims.

(** ** The estimator on binary64 numbers *)

Section EstimatorFloats.

Lemma SFcompare_finite_refl (s : bool) (m : positive) (e : Z) :
  SFcompare (S754_finite s m e) (S754_finite s m e) = Some Eq.
Proof.
  cbn [SFcompare]. rewrite Z.compare_refl.
  assert (Hm : Pos.compare_cont Eq m m = Eq) by apply Pos.compare_refl.
  rewrite Hm. now destruct s.
Qed.

(** A difference that is finite has finite operands. *)
Lemma SF64sub_finite (x a : spec_float) :
  sf_finite (SF64sub x a) = true -> sf_finite a = true.
Proof.
  destruct a as [sa|sa| |sa ma ea]; try reflexivity;
    destruct x as [sx|sx| |sx mx ex]; cbn; try discriminate;
    destruct sx, sa; cbn; discriminate.
Qed.

(** The arithmetic of an update with weight zero on a positive total. *)
Lemma SF64_zero_weight (t d a : spec_float) (s : bool) :
  SFltb (S754_zero false) t = true ->
  sf_finite d = true -> sf_finite a = true ->
  SF64add t (S754_zero s) = t /\
  SFeqb t (S754_zero false) = false /\
  SFeqb (SF64add a (SF64div (SF64mul d (S754_zero s)) t)) a = true.
Proof.
  intros Ht Hd Ha.
  destruct t as [st|st| |st mt et]; try discriminate Ht;
    destruct st; try discriminate Ht.
  all: split; [reflexivity|]; split; [reflexivity|].
  all: destruct d as [sd|sd| |sd md ed]; try discriminate Hd.
  all: destruct a as [sa|sa| |sa ma ea]; try discriminate Ha.
  all: unfold SF64add, SF64div, SF64mul, SFeqb; cbn [SFmul SFdiv SFadd].
  all: try rewrite SFcompare_finite_refl; try reflexivity.
  all: destruct sa, sd, s; reflexivity.
Qed.

Lemma Prim2SF_zero_of_eqb (w : float) :
  (w =? 0)%float = true -> exists s, Prim2SF w = S754_zero s.
Proof.
  rewrite FloatAxioms.eqb_spec. change (Prim2SF 0%float) with (S754_zero false).
  destruct (Prim2SF w) as [s|s| |s m e]; unfold SFeqb; cbn; try discriminate.
  - eauto.
  - destruct s; discriminate.
  - destruct s; discriminate.
Qed.

(** The claim fails on the code: on the estimator with average 2 and
    total weight 3, [update(inf, 0)] returns and leaves a NaN in [avg],
    so that [get()] no longer returns what it did. *)
Lemma update_zero_weight_infinite_value :
  let self := F64.mkAvgEstimator 2%float 3%float in
  (0 <? F64.tot_weight self)%float = true /\
  exists self', F64.update infinity 0%float self = (self', Ok tt) /\
    (F64.get self' =? F64.get self)%float = false /\
    PrimFloat.is_nan (F64.avg self') = true.
Proof.
  cbv zeta. split; [reflexivity|]. eexists. split; [reflexivity|].
  split; reflexivity.
Qed.

(** C10, as amended: on an estimator whose total weight is positive,
    [update(x, 0)] for a value [x] whose difference with the average is
    finite (no infinity, NaN or overflow) returns, leaves [tot_weight]
    as it was and [avg] equal to what it was, so that [get()] returns
    the same number before and after. *)
Theorem update_zero_weight_unchanged (x w : float) (self : F64.AvgEstimator) :
  (w =? 0)%float = true ->
  (0 <? F64.tot_weight self)%float = true ->
  F64.finite (x - F64.avg self) = true ->
  exists self', F64.update x w self = (self', Ok tt) /\
    F64.tot_weight self' = F64.tot_weight self /\
    (F64.avg self' =? F64.avg self)%float = true /\
    (F64.get self' =? F64.get self)%float = true.
Proof.
  intros Hw Ht Hf. destruct (Prim2SF_zero_of_eqb w Hw) as [s Hs].
  rewrite FloatAxioms.ltb_spec in Ht. change (Prim2SF 0%float) with (S754_zero false) in Ht.
  unfold F64.finite in Hf. rewrite sub_spec in Hf.
  pose proof (SF64sub_finite _ _ Hf) as Ha.
  destruct (SF64_zero_weight (Prim2SF (F64.tot_weight self))
              (SF64sub (Prim2SF x) (Prim2SF (F64.avg self)))
              (Prim2SF (F64.avg self)) s Ht Hf Ha) as (Hadd & Hne & Heq).
  assert (Htot : (F64.tot_weight self + w)%float = F64.tot_weight self).
  { apply Prim2SF_inj. rewrite add_spec, Hs. exact Hadd. }
  unfold F64.update. cbn [F64.avg F64.tot_weight]. rewrite Htot.
  assert (Hnz : (F64.tot_weight self =? 0)%float = false).
  { rewrite FloatAxioms.eqb_spec. exact Hne. }
  rewrite Hnz. eexists. split; [reflexivity|]. cbn [F64.avg F64.tot_weight F64.get].
  split; [reflexivity|].
  assert (Havg : (F64.avg self + (x - F64.avg self) * w / F64.tot_weight self
                  =? F64.avg self)%float = true).
  { rewrite FloatAxioms.eqb_spec, add_spec, div_spec, mul_spec, sub_spec, Hs. exact Heq. }
  split; exact Havg.
Qed.

End EstimatorFloats.

Lemma update_zero_weight_unchanged_witness :
  exists self', F64.update 5%float 0%float (F64.mkAvgEstimator 2%float 3%float) =
                  (self', Ok tt) /\
    F64.tot_weight self' = 3%float /\
    (F64.avg self' =? 2)%float = true /\
    (F64.get self' =? 2)%float = true.
Proof.
  apply (update_zero_weight_unchanged 5%float 0%float (F64.mkAvgEstimator 2%float 3%float));
    reflexivity.
Defined.

(** ** Dictionaries *)

Section DictFacts.
Context {V : Type}.
Implicit Types (d : dict V) (k : string) (v : V).

Lemma dget_dset k k' v d :
  dget k' (dset k v d) = if String.eqb k' k then Some v else dget k' d.
Proof.
  induction d as [|[k0 v0] d IH]; cbn.
  - destruct (String.eqb_spec k' k); reflexivity.
  - destruct (String.eqb_spec k k0) as [->|Hne]; cbn.
    + destruct (String.eqb_spec k' k0); reflexivity.
    + rewrite IH. destruct (String.eqb_spec k' k0) as [->|]; [|reflexivity].
      destruct (String.eqb_spec k0 k); congruence.
Qed.

Lemma dget_dset_eq k v d : dget k (dset k v d) = Some v.
Proof. rewrite dget_dset, String.eqb_refl. reflexivity. Qed.

Lemma dget_dset_ne k k' v d : k' <> k -> dget k' (dset k v d) = dget k' d.
Proof.
  intros Hne. rewrite dget_dset.
  destruct (String.eqb_spec k' k); congruence.
Qed.

Lemma dset_same k v d : dget k d = Some v -> dset k v d = d.
Proof.
  induction d as [|[k0 v0] d IH]; cbn; [discriminate|].
  destruct (String.eqb_spec k k0) as [->|Hne]; intros H.
  - congruence.
  - now rewrite IH.
Qed.

Lemma dkeys_dset k v d : dmem k d = true -> dkeys (dset k v d) = dkeys d.
Proof.
  unfold dmem, dkeys. induction d as [|[k0 v0] d IH]; cbn; [discriminate|].
  destruct (String.eqb_spec k k0) as [->|Hne]; cbn; intros H.
  - reflexivity.
  - now rewrite IH.
Qed.

Lemma dget_ddel k k' d :
  dget k' (ddel k d) = if String.eqb k k' then None else dget k' d.
Proof.
  unfold ddel. induction d as [|[k0 v0] d IH]; cbn.
  - now destruct (String.eqb k k').
  - destruct (String.eqb_spec k k0) as [->|Hne]; cbn.
    + rewrite IH. destruct (String.eqb_spec k0 k') as [->|Hne'].
      * reflexivity.
      * destruct (String.eqb_spec k' k0); congruence.
    + rewrite IH. destruct (String.eqb_spec k' k0) as [->|Hne'].
      * destruct (String.eqb_spec k k0); congruence.
      * reflexivity.
Qed.

Lemma dget_ddel_eq k d : dget k (ddel k d) = None.
Proof. rewrite dget_ddel, String.eqb_refl. reflexivity. Qed.

Lemma dget_In_keys k d : In k (dkeys d) <-> dget k d <> None.
Proof.
  unfold dkeys. induction d as [|[k0 v0] d IH]; cbn.
  - split; [tauto|congruence].
  - destruct (String.eqb_spec k k0) as [->|Hne].
    + split; [discriminate|auto].
    + rewrite <- IH. split; [intros [?|?]; congruence || assumption|auto].
Qed.

Lemma dmem_true k d : dmem k d = true <-> exists v, dget k d = Some v.
Proof.
  unfold dmem. destruct (dget k d) as [v|].
  - split; eauto.
  - split; [discriminate|intros [? ?]; discriminate].
Qed.

Lemma dmem_false k d : dmem k d = false <-> dget k d = None.
Proof.
  unfold dmem. destruct (dget k d); split; congruence.
Qed.

End DictFacts.

(** ** Strings *)

Lemma append_String (x : ascii) (a b : string) :
  (String x a ++ b = String x (a ++ b))%string.
Proof. reflexivity. Qed.

Lemma append_assoc_string (a b c : string) :
  ((a ++ b) ++ c = a ++ (b ++ c))%string.
Proof.
  induction a as [|x a IH]; [reflexivity|].
  rewrite !append_String. now rewrite IH.
Qed.

Lemma contains_char_app (c : ascii) (a b : string) :
  contains_char c (a ++ b)%string = contains_char c a || contains_char c b.
Proof.
  induction a as [|x a IH]; [reflexivity|].
  rewrite append_String. cbn [contains_char].
  rewrite IH. now rewrite orb_assoc.
Qed.

Lemma split_nonempty (sep : ascii) (s : string) : split sep s <> [].
Proof.
  induction s as [|c s IH]; cbn; [discriminate|].
  destruct (split sep s); [contradiction|].
  destruct (Ascii.eqb c sep); discriminate.
Qed.

Lemma split_no_sep (sep : ascii) (s : string) :
  contains_char sep s = false -> split sep s = [s].
Proof.
  induction s as [|c s IH]; cbn; [reflexivity|].
  intros H. apply orb_false_iff in H as [Hc Hs].
  rewrite (IH Hs), Hc. reflexivity.
Qed.

Lemma split_at_sep (sep : ascii) (a b : string) :
  contains_char sep a = false ->
  split sep (a ++ String sep b) = a :: split sep b.
Proof.
  induction a as [|c a IH].
  - intros _. change (EmptyString ++ String sep b)%string with (String sep b).
    cbn [split]. destruct (split sep b) eqn:E.
    + now apply split_nonempty in E.
    + now rewrite Ascii.eqb_refl.
  - cbn [contains_char]. intros H. apply orb_false_iff in H as [Hc Ha].
    rewrite append_String. cbn [split].
    rewrite (IH Ha), Hc. reflexivity.
Qed.

Lemma parse_load_path_reference (model part : string) (tag : option string) :
  reference_ok model part tag = true ->
  parse_load_path (load_reference model part tag) =
    Ok (model, part, tag_or_latest tag).
Proof.
  unfold reference_ok. rewrite !andb_true_iff, !negb_true_iff.
  intros ((((Hm1 & Hm2) & Hp1) & Hp2) & Ht).
  assert (Hmp : split "." (model ++ "." ++ part) = [model; part]).
  { change (model ++ "." ++ part)%string with (model ++ String "." part)%string.
    rewrite split_at_sep by assumption. now rewrite split_no_sep. }
  assert (Hat : contains_char "@" (model ++ "." ++ part) = false).
  { rewrite !contains_char_app, Hm2, Hp2. reflexivity. }
  unfold parse_load_path. destruct tag as [t|]; cbn [load_reference tag_or_latest] in *.
  - replace (model ++ "." ++ part ++ "@" ++ t)%string
      with ((model ++ "." ++ part) ++ String "@" t)%string
      by (now rewrite !append_assoc_string).
    rewrite contains_char_app. cbn [contains_char]. rewrite Ascii.eqb_refl, orb_true_r.
    rewrite split_at_sep by assumption. rewrite split_no_sep by assumption.
    cbn [unpack2 rbind fst snd]. rewrite Hmp. reflexivity.
  - rewrite Hat. cbn [rbind fst snd]. rewrite Hmp. reflexivity.
Qed.

(** ** Configuration resolution *)

Lemma rbind_ok {A B} (c : result A) (k : A -> result B) (b : B) :
  rbind c k = Ok b -> exists a, c = Ok a /\ k a = Ok b.
Proof. destruct c as [a|e]; cbn; [eauto|discriminate]. Qed.

Ltac inv_rbind H :=
  repeat match type of H with
  | rbind ?c ?k = Ok ?b =>
      let a := fresh "a" in
      let E := fresh "E" in
      apply rbind_ok in H as (a & E & H)
  end.

Lemma as_dict_ok (c : node) (d : dict node) : as_dict c = Ok d -> c = NDict d.
Proof. destruct c; cbn; congruence. Qed.

Lemma attr_ok (key : string) (conf : dict node) (v : node) :
  attr key conf = Ok v -> dget key conf = Some v.
Proof. unfold attr. destruct (dget key conf); congruence. Qed.

Lemma merge_dict (da db : dict node) :
  merge (NDict da) (NDict db) = NDict (merge_into db da).
Proof.
  reflexivity.
Qed.

Lemma merge_not_dict (a b : node) :
  (forall d, b <> NDict d) -> merge a b = b.
Proof. destruct b; intros H; [reflexivity..|]. now specialize (H entries). Qed.

(** The entry of a merged mapping at [k]: the right side where it has
    the key (merged with the left entry, if any), the left side
    otherwise. *)
Lemma dget_merge_into (k : string) (db : list (string * node)) :
  NoDup (dkeys db) -> forall da : dict node,
  dget k (merge_into db da) =
    match dget k db with
    | Some vb => Some (match dget k da with
                       | Some va => merge va vb
                       | None => vb
                       end)
    | None => dget k da
    end.
Proof.
  induction db as [|[k1 v1] db IH]; intros Hnd da; [reflexivity|].
  cbn [dkeys map fst] in Hnd. apply NoDup_cons in Hnd as [Hnotin Hnd].
  cbn [merge_into dget]. rewrite (IH Hnd). fold (dkeys db) in Hnotin.
  rewrite list_elem_of_In in Hnotin.
  destruct (String.eqb_spec k k1) as [->|Hne].
  - assert (Hnone : dget k1 db = None).
    { destruct (dget k1 db) eqn:E; [|reflexivity].
      exfalso. apply Hnotin. apply dget_In_keys. congruence. }
    rewrite Hnone. apply dget_dset_eq.
  - rewrite (dget_dset_ne _ _ _ _ Hne). reflexivity.
Qed.

Lemma merge_empty (da : dict node) : merge (NDict da) (from_dotlist []) = NDict da.
Proof. reflexivity. Qed.

Section ResolveFacts.
Variable self : Erlich.
Variable files : gmap string node.

Lemma inherit_part_no_load (lv : node) (part spec : dict node) :
  inherit_part self files lv part = Ok spec -> dget "load" spec = None.
Proof.
  unfold inherit_part. intros H. inv_rbind H.
  destruct a0 as [[model_name src_part_name] checkpoint]. inv_rbind H.
  match goal with
  | E : dpop "load" ?m = Ok ?m' |- _ =>
      unfold dpop in E; destruct (dmem "load" m); [|discriminate];
      injection E as <-
  end.
  match type of H with
  | (if ?b then _ else _) = _ => destruct b; injection H as <-
  end.
  - apply dget_ddel_eq.
  - rewrite dget_dset_ne by discriminate. apply dget_ddel_eq.
Qed.

Lemma load_entry_mapping (spec : dict node) :
  dget "load" spec = None -> load_entry (NDict spec) = Ok None.
Proof. intros Hl. cbn [load_entry]. now rewrite Hl. Qed.

Lemma load_entry_none_mapping (spec : dict node) :
  load_entry (NDict spec) = Ok None -> dget "load" spec = None.
Proof. cbn [load_entry]. destruct (dget "load" spec); [discriminate|reflexivity]. Qed.

(** What one pass of the loop body leaves at [part_name]: the parts are
    untouched, or the entry of [part_name] is replaced by a mapping
    without [load]. *)
Lemma resolve_part_shape (part_name : string) (parts parts1 : dict node) :
  resolve_part self files part_name parts = Ok parts1 ->
  (parts1 = parts /\ part_settled parts part_name) \/
  (exists spec1, parts1 = dset part_name (NDict spec1) parts /\
     dmem part_name parts = true /\ dget "load" spec1 = None).
Proof.
  unfold resolve_part. intros H.
  apply rbind_ok in H as (part & Epart & H). apply attr_ok in Epart.
  apply rbind_ok in H as (entry & Eentry & H).
  destruct entry as [[lv spec]|].
  - right. apply rbind_ok in H as (spec1 & E1 & H). injection H as <-.
    exists spec1. split; [reflexivity|]. split.
    + apply dmem_true; eauto.
    + now apply inherit_part_no_load in E1.
  - left. injection H as <-. split; [reflexivity|]. exists part. auto.
Qed.

(** The loop body reads nothing of [parts] but the entry of
    [part_name]. *)
Lemma resolve_part_entry (part_name : string) (parts parts1 other : dict node) :
  resolve_part self files part_name parts = Ok parts1 ->
  dget part_name other = dget part_name parts ->
  exists other1, resolve_part self files part_name other = Ok other1 /\
    dget part_name other1 = dget part_name parts1.
Proof.
  unfold resolve_part, attr. intros H Hsame. rewrite Hsame.
  destruct (dget part_name parts) as [part|] eqn:Hpart; [|discriminate].
  cbn [rbind] in *. destruct (load_entry part) as [[[lv spec]|]|]; [| |discriminate].
  - cbn [rbind] in *.
    destruct (inherit_part self files lv spec) as [spec1|]; [|discriminate].
    cbn [rbind] in *. injection H as <-. eexists. split; [reflexivity|].
    now rewrite !dget_dset_eq.
  - cbn [rbind] in *. injection H as <-. exists other. split; [reflexivity|]. congruence.
Qed.

Lemma resolve_part_skip (part_name : string) (parts : dict node) :
  part_settled parts part_name ->
  resolve_part self files part_name parts = Ok parts.
Proof.
  intros (part & Hp & Hl). unfold resolve_part, attr. rewrite Hp. cbn [rbind].
  now rewrite Hl.
Qed.

Lemma resolve_part_other (part_name q : string) (parts parts1 : dict node) :
  resolve_part self files part_name parts = Ok parts1 ->
  q <> part_name -> dget q parts1 = dget q parts.
Proof.
  intros H Hne. apply resolve_part_shape in H as [[-> _]|(spec1 & -> & _)].
  - reflexivity.
  - now apply dget_dset_ne.
Qed.

Lemma resolve_part_keys (part_name : string) (parts parts1 : dict node) :
  resolve_part self files part_name parts = Ok parts1 ->
  dkeys parts1 = dkeys parts.
Proof.
  intros H. apply resolve_part_shape in H as [[-> _]|(spec1 & -> & Hm & _)].
  - reflexivity.
  - now apply dkeys_dset.
Qed.

(** After its visit a part has no [load] left to follow. *)
Lemma resolve_part_settled (part_name : string) (parts parts1 : dict node) :
  resolve_part self files part_name parts = Ok parts1 ->
  part_settled parts1 part_name.
Proof.
  intros H.
  apply resolve_part_shape in H as [[-> Hs]|(spec1 & -> & _ & Hl)]; [exact Hs|].
  exists (NDict spec1). split; [apply dget_dset_eq|now apply load_entry_mapping].
Qed.

(** A part without [load] is left alone by the whole loop. *)
Lemma resolve_parts_keep (names : list string) : forall (parts parts' : dict node) (q : string),
  part_settled parts q ->
  resolve_parts self files names parts = Ok parts' ->
  dget q parts' = dget q parts.
Proof.
  induction names as [|p names IH]; intros parts parts' q Hq H; cbn in H.
  - now injection H as <-.
  - inv_rbind H. destruct (String.eqb_spec q p) as [->|Hne].
    + rewrite (resolve_part_skip _ _ Hq) in E. injection E as <-.
      exact (IH _ _ p Hq H).
    + rewrite (IH _ _ q) with (2 := H).
      * now apply (resolve_part_other _ _ _ _ E).
      * destruct Hq as (part & Hp & Hl). exists part. split; [|exact Hl].
        now rewrite (resolve_part_other _ _ _ _ E Hne).
Qed.

(** A part that is visited ends as the first visit leaves it. *)
Lemma resolve_parts_visit (names : list string) : forall (parts parts' : dict node) (q : string),
  In q names ->
  resolve_parts self files names parts = Ok parts' ->
  exists parts1, resolve_part self files q parts = Ok parts1 /\
    dget q parts' = dget q parts1.
Proof.
  induction names as [|p names IH]; intros parts parts' q Hin H; [destruct Hin|].
  cbn in H. inv_rbind H. destruct (String.eqb_spec q p) as [->|Hne].
  - exists a. split; [assumption|].
    apply (resolve_parts_keep names a parts' p); [|assumption].
    now apply resolve_part_settled with (parts := parts).
  - destruct Hin as [->|Hin]; [congruence|].
    destruct (IH _ _ q Hin H) as (parts1 & E1 & Hq).
    pose proof (resolve_part_other _ _ _ _ E Hne) as Hsame.
    destruct (resolve_part_entry q a parts1 parts E1) as (parts2 & E2 & Hq2);
      [now symmetry|].
    exists parts2. split; [assumption|]. congruence.
Qed.

Lemma resolve_parts_keys (names : list string) : forall parts parts' : dict node,
  resolve_parts self files names parts = Ok parts' -> dkeys parts' = dkeys parts.
Proof.
  induction names as [|p names IH]; intros parts parts' H; cbn in H.
  - now injection H as <-.
  - inv_rbind H. rewrite (IH _ _ H). now apply resolve_part_keys in E.
Qed.

(** After the loop no visited part has a [load] left to follow. *)
Lemma resolve_parts_settled (names : list string) (parts parts' : dict node) (q : string) :
  In q names ->
  resolve_parts self files names parts = Ok parts' ->
  part_settled parts' q.
Proof.
  intros Hin H. destruct (resolve_parts_visit names _ _ q Hin H) as (parts1 & E & Hq).
  apply resolve_part_settled in E as (part & Hp & Hl).
  exists part. split; [congruence|exact Hl].
Qed.

Lemma part_resolved_settled (parts : dict node) (q : string) :
  part_resolved parts q = true -> part_settled parts q.
Proof.
  unfold part_resolved. intros Hp.
  destruct (dget q parts) as [[| |spec]|] eqn:E; try discriminate.
  apply negb_true_iff, dmem_false in Hp.
  exists (NDict spec). split; [exact E|now apply load_entry_mapping].
Qed.

(** A loop over parts that have no [load] changes nothing. *)
Lemma resolve_parts_noop (names : list string) (parts : dict node) :
  forallb (part_resolved parts) names = true ->
  resolve_parts self files names parts = Ok parts.
Proof.
  induction names as [|p names IH]; intros H; [reflexivity|].
  cbn in H. apply andb_true_iff in H as [Hp Hrest]. cbn [resolve_parts].
  rewrite (resolve_part_skip _ _ (part_resolved_settled _ _ Hp)).
  cbn [rbind]. now apply IH.
Qed.

End ResolveFacts.

(** ** Defaults and fully resolved configurations *)

Lemma is_ok_true {A} (r : result A) : is_ok r = true -> exists a, r = Ok a.
Proof. destruct r; cbn; [eauto|discriminate]. Qed.

Lemma fully_resolved_inv (c : node) :
  fully_resolved c = true ->
  exists conf parts batch_size twice epochs vbs,
    c = NDict conf /\
    dget "load" conf = None /\
    dget "parts" conf = Some (NDict parts) /\
    forallb (part_resolved parts) (dkeys parts) = true /\
    dget "batch_size" conf = Some batch_size /\
    py_mul2 batch_size = Ok twice /\
    dget "epochs" conf = Some epochs /\
    dget "validation_batch_size" conf = Some vbs.
Proof.
  destruct c as [| |conf]; cbn [fully_resolved]; try discriminate.
  rewrite !andb_true_iff. intros ((((Hload & Hparts) & Hbs) & Hep) & Hvbs).
  apply negb_true_iff, dmem_false in Hload.
  destruct (dget "parts" conf) as [[| |parts]|] eqn:Eparts; try discriminate.
  destruct (dget "batch_size" conf) as [batch_size|] eqn:Ebs; try discriminate.
  apply is_ok_true in Hbs as (twice & Htwice).
  apply dmem_true in Hep as (epochs & Hep).
  apply dmem_true in Hvbs as (vbs & Hvbs).
  exists conf, parts, batch_size, twice, epochs, vbs.
  repeat split; try assumption; reflexivity.
Qed.

(** Defaults are written only where a key is missing. *)
Lemma fill_defaults_present (conf : dict node) (batch_size twice epochs vbs : node) :
  dget "batch_size" conf = Some batch_size ->
  py_mul2 batch_size = Ok twice ->
  dget "epochs" conf = Some epochs ->
  dget "validation_batch_size" conf = Some vbs ->
  fill_defaults conf = Ok conf.
Proof.
  intros Hbs Htw Hep Hvbs. unfold fill_defaults, conf_get, attr.
  rewrite Hbs. rewrite (dset_same _ _ _ Hbs).
  rewrite Hep. rewrite (dset_same _ _ _ Hep).
  rewrite Hbs. cbn [rbind]. rewrite Htw. cbn [rbind].
  rewrite Hvbs. now rewrite (dset_same _ _ _ Hvbs).
Qed.

(** What [fill_defaults] returns: the three keys are there, and every
    other key is as before. *)
Lemma fill_defaults_ok (conf conf' : dict node) :
  fill_defaults conf = Ok conf' ->
  (exists batch_size twice, dget "batch_size" conf' = Some batch_size /\
     py_mul2 batch_size = Ok twice) /\
  dmem "epochs" conf' = true /\
  dmem "validation_batch_size" conf' = true /\
  forall k, k <> "batch_size" -> k <> "epochs" -> k <> "validation_batch_size" ->
    dget k conf' = dget k conf.
Proof.
  unfold fill_defaults. intros H.
  apply rbind_ok in H as (batch_size & Ebs & H). apply attr_ok in Ebs.
  apply rbind_ok in H as (twice & Etw & H). injection H as <-.
  rewrite dget_dset_ne in Ebs by discriminate.
  split; [|split; [|split]].
  - exists batch_size, twice. split; [|assumption].
    rewrite !dget_dset_ne by discriminate. exact Ebs.
  - apply dmem_true. rewrite dget_dset_ne by discriminate.
    rewrite dget_dset_eq. eauto.
  - apply dmem_true. rewrite dget_dset_eq. eauto.
  - intros k H1 H2 H3. now rewrite !dget_dset_ne by assumption.
Qed.

Lemma load_config_no_load (self : Erlich) (files : gmap string node)
  (name : string) (additional : list (list string * node)) (conf : dict node) :
  load_config self files name additional = Ok conf -> dget "load" conf = None.
Proof.
  unfold load_config. intros H.
  apply rbind_ok in H as (c0 & _ & H). apply rbind_ok in H as (c1 & _ & H).
  apply rbind_ok in H as (d1 & _ & H).
  destruct (dget "load" d1) as [lv|] eqn:Hload.
  - inv_rbind H. unfold dpop in H. destruct (dmem "load" a2); [|discriminate].
    injection H as <-. apply dget_ddel_eq.
  - now injection H as <-.
Qed.

(** The steps of a [parse_config] that returns. *)
Lemma parse_config_steps (self : Erlich) (files : gmap string node)
  (name : string) (additional : list (list string * node)) (c : node) :
  parse_config self files name additional = Ok c ->
  exists (conf : dict node) (parts parts' : node) (conf' : dict node),
    load_config self files name additional = Ok conf /\
    dget "parts" conf = Some parts /\
    resolve_conf_parts self files parts = Ok parts' /\
    fill_defaults (dset "parts" parts' conf) = Ok conf' /\
    c = NDict conf'.
Proof.
  unfold parse_config. intros H.
  apply rbind_ok in H as (conf & Econf & H).
  apply rbind_ok in H as (parts & Eparts & H). apply attr_ok in Eparts.
  apply rbind_ok in H as (parts' & Eres & H).
  apply rbind_ok in H as (conf' & Efill & H). injection H as <-.
  exists conf, parts, parts', conf'. auto.
Qed.

(** Where the loop over the parts leaves a mapping, no entry of it has a
    [load] left to follow. *)
Lemma resolve_conf_parts_settled (self : Erlich) (files : gmap string node)
  (parts : node) (entries' : dict node) (q : string) :
  resolve_conf_parts self files parts = Ok (NDict entries') ->
  In q (dkeys entries') -> part_settled entries' q.
Proof.
  destruct parts as [[b|n|f|s]|items|entries]; cbn [resolve_conf_parts]; try discriminate.
  - destruct (String.eqb s ""); discriminate.
  - intros H. inv_rbind H. discriminate.
  - intros H Hq. inv_rbind H. injection H as <-.
    rewrite (resolve_parts_keys _ _ _ _ _ E) in Hq.
    exact (resolve_parts_settled self files (dkeys entries) entries a q Hq E).
Qed.

(** ** Per-part inheritance *)

Lemma inherited_spec_no_load (stored current : dict node) (reference : string) :
  dget "load" (inherited_spec stored current reference) = None.
Proof.
  unfold inherited_spec.
  destruct (dmem "weights" (ddel "load" (merge_into current stored))).
  - apply dget_ddel_eq.
  - rewrite dget_dset_ne by discriminate. apply dget_ddel_eq.
Qed.

Lemma inherited_spec_entry (stored current : dict node) (reference k : string) :
  NoDup (dkeys current) -> k <> "load" -> k <> "weights" ->
  dget k (inherited_spec stored current reference) =
    overlay (dget k stored) (dget k current).
Proof.
  intros Hnd Hl Hw. unfold inherited_spec.
  assert (Hk : dget k (ddel "load" (merge_into current stored)) =
               overlay (dget k stored) (dget k current)).
  { rewrite dget_ddel. destruct (String.eqb_spec "load" k) as [E|_]; [congruence|].
    now apply dget_merge_into. }
  destruct (dmem "weights" (ddel "load" (merge_into current stored))).
  - exact Hk.
  - now rewrite dget_dset_ne.
Qed.

Lemma inherited_spec_weights (stored current : dict node) (reference : string) :
  NoDup (dkeys current) ->
  dget "weights" (inherited_spec stored current reference) =
    match overlay (dget "weights" stored) (dget "weights" current) with
    | Some w => Some w
    | None => Some (Leaf (SStr reference))
    end.
Proof.
  intros Hnd. unfold inherited_spec.
  assert (Hk : dget "weights" (ddel "load" (merge_into current stored)) =
               overlay (dget "weights" stored) (dget "weights" current)).
  { rewrite dget_ddel. cbn [String.eqb Ascii.eqb Bool.eqb].
    now apply dget_merge_into. }
  unfold dmem. rewrite Hk.
  destruct (overlay (dget "weights" stored) (dget "weights" current)) as [w|] eqn:E.
  - exact Hk.
  - apply dget_dset_eq.
Qed.

Section InheritFacts.
Variable self : Erlich.
Variable files : gmap string node.

(** The body of [if "load" in conf.parts[part_name]] on a well-formed
    reference to a stored part. *)
Lemma inherit_part_reference (model src : string) (tag : option string)
  (current src_cfg src_parts stored : dict node) :
  NoDup (dkeys current) ->
  dmem "load" current = true ->
  reference_ok model src tag = true ->
  files !! path_join (model_folder self) (model ++ ".yaml") = Some (NDict src_cfg) ->
  dget "parts" src_cfg = Some (NDict src_parts) ->
  dget src src_parts = Some (NDict stored) ->
  inherit_part self files (Leaf (SStr (load_reference model src tag))) current =
    Ok (inherited_spec stored current
          (weights_reference model src (tag_or_latest tag))).
Proof.
  intros Hnd Hload Href Hfile Hparts Hsrc. unfold inherit_part.
  cbn [as_str rbind]. rewrite (parse_load_path_reference _ _ _ Href). cbn [rbind].
  unfold omegaconf_load. rewrite Hfile. cbn [rbind as_dict].
  unfold attr. rewrite Hparts. cbn [rbind as_dict]. unfold dindex. rewrite Hsrc.
  cbn [rbind]. unfold merge_top. rewrite merge_dict. cbn [rbind as_dict].
  assert (Hm : dmem "load" (merge_into current stored) = true).
  { apply dmem_true in Hload as (lv & Hlv). apply dmem_true.
    rewrite dget_merge_into by assumption. rewrite Hlv. eauto. }
  unfold dpop. rewrite Hm. cbn [rbind]. unfold inherited_spec.
  now destruct (dmem "weights" (ddel "load" (merge_into current stored))).
Qed.

End InheritFacts.

Section ConfigClaims.
Variable self : Erlich.
Variable files : gmap string node.

(** C4, as stated, fails: part [A] declares [load: "5.encoder@2.0"] and
    no [weights], model [5] stores [weights: "3.encoder@latest"] for its
    encoder, and the resolved [weights] of [A] is the stored
    ["3.encoder@latest"], not ["5.encoder@2.0"]. *)
Lemma load_inherits_stored_weights :
  dget "load" example_part_A = Some (Leaf (SStr "5.encoder@2.0")) /\
  dget "weights" example_part_A = None /\
  parse_config example_erlich example_files_chained "exp" [] =
    Ok (NDict [("parts",
                NDict [("A", NDict [("arch", Leaf (SStr "resnet"));
                                    ("weights", Leaf (SStr "3.encoder@latest"));
                                    ("frozen", Leaf (SBool true))])]);
               ("batch_size", Leaf (SInt 16)); ("epochs", Leaf (SInt 10));
               ("validation_batch_size", Leaf (SInt 32))]) /\
  Leaf (SStr "3.encoder@latest") <> Leaf (SStr "5.encoder@2.0").
Proof.
  split; [reflexivity|]. split; [reflexivity|]. split; [|discriminate].
  vm_compute. reflexivity.
Qed.

(** C4, amended: for a part whose specification [current] declares
    [load] with a reference [modelID.partName] or [modelID.partName@tag]
    (tag ["latest"] by default) to a stored part specification [stored],
    the loop body succeeds and [parse_config], when it returns, holds for
    that part the merge of [current] on top of [stored] (entry by entry,
    [current] wins), without the [load] key, and with [weights] equal to
    the entry of the merge if [stored] or [current] has one, and to
    ["modelID.partName@tag"] otherwise.  So a part with
    [load: "5.encoder@2.0"] and no [weights] resolves to
    [weights = "5.encoder@2.0"] when model 5 stores no [weights] for
    [encoder]; a stored [weights] entry is inherited instead. *)
Theorem parse_config_part_load
  (name : string) (additional : list (list string * node))
  (conf parts current src_cfg src_parts stored : dict node)
  (part_name model src : string) (tag : option string) (out : node) :
  load_config self files name additional = Ok conf ->
  dget "parts" conf = Some (NDict parts) ->
  dget part_name parts = Some (NDict current) ->
  NoDup (dkeys current) ->
  dget "load" current = Some (Leaf (SStr (load_reference model src tag))) ->
  reference_ok model src tag = true ->
  files !! path_join (model_folder self) (model ++ ".yaml") = Some (NDict src_cfg) ->
  dget "parts" src_cfg = Some (NDict src_parts) ->
  dget src src_parts = Some (NDict stored) ->
  parse_config self files name additional = Ok out ->
  exists out_conf out_parts resolved,
    resolve_part self files part_name parts =
      Ok (dset part_name (NDict resolved) parts) /\
    out = NDict out_conf /\
    dget "parts" out_conf = Some (NDict out_parts) /\
    dget part_name out_parts = Some (NDict resolved) /\
    dget "load" resolved = None /\
    (forall k, k <> "load" -> k <> "weights" ->
       dget k resolved = overlay (dget k stored) (dget k current)) /\
    dget "weights" resolved =
      match overlay (dget "weights" stored) (dget "weights" current) with
      | Some w => Some w
      | None => Some (Leaf (SStr (weights_reference model src (tag_or_latest tag))))
      end.
Proof.
  intros Hconf Hparts Hcur Hnd Hload Href Hfile Hsparts Hstored Hout.
  set (reference := weights_reference model src (tag_or_latest tag)).
  assert (Hstep : resolve_part self files part_name parts =
                  Ok (dset part_name (NDict (inherited_spec stored current reference)) parts)).
  { unfold resolve_part, attr. rewrite Hcur. cbn [rbind load_entry]. rewrite Hload.
    cbn [rbind].
    rewrite (inherit_part_reference self files model src tag current
               src_cfg src_parts stored); try assumption.
    - reflexivity.
    - apply dmem_true. eauto. }
  unfold parse_config in Hout. rewrite Hconf in Hout. cbn [rbind] in Hout.
  unfold attr in Hout. rewrite Hparts in Hout. cbn [rbind resolve_conf_parts] in Hout.
  apply rbind_ok in Hout as (pn & Eres & Hout).
  apply rbind_ok in Eres as (parts' & Eres & Epn). injection Epn as <-.
  apply rbind_ok in Hout as (conf' & Efill & Hout). injection Hout as <-.
  apply fill_defaults_ok in Efill as (_ & _ & _ & Hother).
  assert (Hin : In part_name (dkeys parts)).
  { apply dget_In_keys. congruence. }
  destruct (resolve_parts_visit self files _ _ _ _ Hin Eres) as (parts1 & E1 & Hq).
  rewrite Hstep in E1. injection E1 as <-. rewrite dget_dset_eq in Hq.
  exists conf', parts', (inherited_spec stored current reference).
  split; [exact Hstep|]. split; [reflexivity|]. split.
  { rewrite Hother by discriminate. apply dget_dset_eq. }
  split; [exact Hq|]. split; [apply inherited_spec_no_load|]. split.
  - intros k Hl Hw. now apply inherited_spec_entry.
  - now apply inherited_spec_weights.
Qed.

(** C9: a fully resolved configuration (no top-level [load], parts that
    are mappings without [load], [batch_size], [epochs] and
    [validation_batch_size] present) is returned as it is when it is
    resolved again with no overrides. *)
Theorem parse_config_idempotent (name : string) (c : node) :
  files !! path_join (config_folder self) (strip_yaml name ++ ".yaml") = Some c ->
  fully_resolved c = true ->
  parse_config self files name [] = Ok c.
Proof.
  intros Hfile Hres.
  apply fully_resolved_inv in Hres
    as (conf & parts & bs & tw & ep & vbs & -> & Hload & Hparts & Hall & Hbs & Htw & Hep & Hvbs).
  unfold parse_config, load_config, omegaconf_load. rewrite Hfile. cbn [rbind].
  change (merge_top (NDict conf) (from_dotlist [])) with (Ok (NDict conf)).
  cbn [rbind as_dict]. rewrite Hload. cbn [rbind].
  unfold attr. rewrite Hparts. cbn [rbind resolve_conf_parts].
  rewrite (resolve_parts_noop self files _ _ Hall). cbn [rbind].
  rewrite (dset_same _ _ _ Hparts).
  rewrite (fill_defaults_present conf bs tw ep vbs) by assumption.
  reflexivity.
Qed.

End ConfigClaims.

Lemma parse_config_part_load_witness :
  exists out_conf out_parts resolved,
    resolve_part example_erlich example_files "A" [("A", NDict example_part_A)] =
      Ok (dset "A" (NDict resolved) [("A", NDict example_part_A)]) /\
    NDict [("parts",
            NDict [("A", NDict [("arch", Leaf (SStr "resnet"));
                                ("frozen", Leaf (SBool true));
                                ("weights", Leaf (SStr "5.encoder@2.0"))])]);
           ("batch_size", Leaf (SInt 16)); ("epochs", Leaf (SInt 10));
           ("validation_batch_size", Leaf (SInt 32))] = NDict out_conf /\
    dget "parts" out_conf = Some (NDict out_parts) /\
    dget "A" out_parts = Some (NDict resolved) /\
    dget "load" resolved = None /\
    (forall k, k <> "load" -> k <> "weights" ->
       dget k resolved =
         overlay (dget k [("arch", Leaf (SStr "resnet")); ("frozen", Leaf (SBool false))])
                 (dget k example_part_A)) /\
    dget "weights" resolved =
      match overlay (dget "weights" [("arch", Leaf (SStr "resnet"));
                                     ("frozen", Leaf (SBool false))])
                    (dget "weights" example_part_A) with
      | Some w => Some w
      | None => Some (Leaf (SStr (weights_reference "5" "encoder" (tag_or_latest (Some "2.0")))))
      end.
Proof.
  apply (parse_config_part_load example_erlich example_files "exp" []
           [("parts", NDict [("A", NDict example_part_A)])]
           [("A", NDict example_part_A)] example_part_A
           [("parts", NDict [("encoder", NDict [("arch", Leaf (SStr "resnet"));
                                                ("frozen", Leaf (SBool false))])]);
            ("batch_size", Leaf (SInt 8)); ("epochs", Leaf (SInt 3));
            ("validation_batch_size", Leaf (SInt 16))]
           [("encoder", NDict [("arch", Leaf (SStr "resnet"));
                               ("frozen", Leaf (SBool false))])]
           [("arch", Leaf (SStr "resnet")); ("frozen", Leaf (SBool false))]
           "A" "5" "encoder" (Some "2.0")).
  - vm_compute. reflexivity.
  - reflexivity.
  - reflexivity.
  - unfold example_part_A. cbn [dkeys map fst].
    repeat (apply NoDup_cons; split; [rewrite list_elem_of_In; cbn; intuition discriminate|]).
    apply NoDup_nil. exact I.
  - reflexivity.
  - reflexivity.
  - vm_compute. reflexivity.
  - reflexivity.
  - reflexivity.
  - vm_compute. reflexivity.
Defined.

Lemma parse_config_idempotent_witness :
  parse_config example_erlich example_files "done.yaml" [] = Ok example_model_5.
Proof.
  apply (parse_config_idempotent example_erlich example_files "done.yaml" example_model_5).
  - vm_compute. reflexivity.
  - reflexivity.
Defined.

(** ** The state-and-exception monad *)

Lemma bind_ok {S A B} (c : M S A) (k : A -> M S B) (s s' : S) (b : B) :
  bind c k s = (s', Ok b) ->
  exists s1 a, c s = (s1, Ok a) /\ k a s1 = (s', Ok b).
Proof.
  unfold bind. destruct (c s) as [s1 [a|e]]; [eauto|discriminate].
Qed.

Lemma lift_ok {S A} (r : result A) (s s' : S) (a : A) :
  lift r s = (s', Ok a) -> s' = s /\ r = Ok a.
Proof. unfold lift. intros E. injection E as <- ->. auto. Qed.

Lemma ret_ok {S A} (a b : A) (s s' : S) :
  ret a s = (s', Ok b) -> s' = s /\ b = a.
Proof. unfold ret. intros E. injection E as <- ->. auto. Qed.

Lemma dkeys_dset_new {V} (k : string) (v : V) (d : dict V) :
  ~ In k (dkeys d) -> dkeys (dset k v d) = dkeys d ++ [k].
Proof.
  unfold dkeys. induction d as [|[k0 v0] d IH]; cbn; [reflexivity|].
  intros Hnotin. destruct (String.eqb_spec k k0) as [->|Hne]; [tauto|].
  cbn. rewrite IH; [reflexivity|tauto].
Qed.

(** ** Optimizer assignment *)

Section OptimizerFacts.
Context `{Torch}.

Lemma get_optimizer_params (name : option node) (optim_cfg : dict node)
  (params : list tensor) (c : node) (o : Optimizer) :
  get_optimizer name optim_cfg params c = Ok o -> opt_params o = params.
Proof.
  unfold get_optimizer, default_get_optimizer.
  destruct (name_is name "adam"); [intros E; now injection E as <-|].
  destruct (name_is name "sgd"); [intros E; now injection E as <-|discriminate].
Qed.

Lemma part_parameters_ok (name : string) (t t' : BaseTrainer) (ps : list tensor) :
  part_parameters name t = (t', Ok ps) ->
  t' = t /\ exists p, dget name (model_parts t) = Some p /\ ps = parameters p.
Proof.
  unfold part_parameters. destruct (dget name (model_parts t)) as [p|]; [|discriminate].
  intros E. injection E as <- <-. eauto.
Qed.

(** One pass of the loop over the parts: the part gets an optimizer of
    its own over its parameters, or joins the pool, or is frozen. *)
Lemma assign_part_ok (c : node) (parts : dict node) (pool pool' : list string)
  (name : string) (t t' : BaseTrainer) :
  assign_part c parts pool name t = (t', Ok pool') ->
  (has_own_optimizer parts name = true /\ pool' = pool /\
   exists o p, dget name (model_parts t) = Some p /\ opt_params o = parameters p /\
     t' = set_optimizers (dset name o) t) \/
  (is_pooled parts name = true /\ pool' = pool ++ [name] /\ t' = t) \/
  (is_frozen parts name = true /\ pool' = pool /\ t' = t).
Proof.
  unfold assign_part. intros E.
  apply bind_ok in E as (t1 & part & E1 & E). apply lift_ok in E1 as [-> E1].
  apply attr_ok in E1.
  apply bind_ok in E as (t1 & spec & E2 & E). apply lift_ok in E2 as [-> E2].
  apply as_dict_ok in E2. subst part.
  unfold has_own_optimizer, is_pooled, is_frozen, dmem. rewrite E1.
  destruct (requires_optimizer spec); cbn [andb negb].
  - destruct (dget "optimizer" spec) as [ov|].
    + left. apply bind_ok in E as (t1 & os & E3 & E). apply lift_ok in E3 as [-> E3].
      apply bind_ok in E as (t1 & ps & E4 & E).
      apply part_parameters_ok in E4 as [-> (p & Hp & ->)].
      apply bind_ok in E as (t1 & o & E5 & E). apply lift_ok in E5 as [-> E5].
      apply get_optimizer_params in E5.
      apply bind_ok in E as (t1 & [] & E6 & E). unfold modify in E6.
      injection E6 as <-. apply ret_ok in E as [-> ->].
      split; [reflexivity|]. split; [reflexivity|]. exists o, p. auto.
    + right. left. apply ret_ok in E as [-> ->]. auto.
  - right. right. apply ret_ok in E as [-> ->]. auto.
Qed.

(** The whole loop over the parts. *)
Lemma assign_parts_ok (c : node) (parts : dict node) (names : list string) :
  forall (pool pool' : list string) (t t' : BaseTrainer),
  for_fold names pool (assign_part c parts) t = (t', Ok pool') ->
  pool' = pool ++ List.filter (is_pooled parts) names /\
  model_parts t' = model_parts t /\
  (forall k, ~ In k (List.filter (has_own_optimizer parts) names) ->
     dget k (optimizers t') = dget k (optimizers t)) /\
  (forall k, In k (List.filter (has_own_optimizer parts) names) ->
     exists o p, dget k (optimizers t') = Some o /\
       dget k (model_parts t) = Some p /\ opt_params o = parameters p) /\
  (NoDup names -> (forall k, In k names -> ~ In k (dkeys (optimizers t))) ->
     dkeys (optimizers t') =
       dkeys (optimizers t) ++ List.filter (has_own_optimizer parts) names).
Proof.
  induction names as [|name names IH]; intros pool pool' t t' E.
  - apply ret_ok in E as [-> ->]. cbn. rewrite !app_nil_r.
    repeat split; try reflexivity. intros k [].
  - cbn [for_fold] in E. apply bind_ok in E as (t1 & pool1 & E1 & E).
    destruct (IH _ _ _ _ E) as (Hpool & Hparts & Hother & Hown & Hkeys).
    cbn [List.filter].
    assert (Hexcl : has_own_optimizer parts name = true -> is_pooled parts name = false).
    { unfold has_own_optimizer, is_pooled.
      destruct (dget name parts) as [[| |part]|]; try discriminate.
      destruct (requires_optimizer part), (dmem "optimizer" part); cbn; congruence. }
    apply assign_part_ok in E1
      as [(Ho & -> & o & p & Hp & Hop & ->)|[(Hp & -> & ->)|(Hf & -> & ->)]].
    + rewrite Ho, (Hexcl Ho). cbn [model_parts optimizers set_optimizers] in *.
      split; [exact Hpool|]. split; [exact Hparts|]. split; [|split].
      * intros k Hk. rewrite Hother by (intros Hin; apply Hk; now right).
        apply dget_dset_ne. intros ->. apply Hk. now left.
      * intros k [<-|Hk].
        -- destruct (in_dec String.string_dec name
                       (List.filter (has_own_optimizer parts) names)) as [Hin|Hnin].
           ++ destruct (Hown _ Hin) as (o' & p' & Ho' & Hp' & Hop').
              exists o', p'. auto.
           ++ exists o, p. rewrite (Hother _ Hnin), dget_dset_eq. auto.
        -- exact (Hown _ Hk).
      * intros Hnd Hfresh. apply NoDup_cons in Hnd as [Hnotin Hnd].
        rewrite list_elem_of_In in Hnotin.
        rewrite Hkeys.
        -- rewrite dkeys_dset_new by (apply Hfresh; now left).
           now rewrite <- app_assoc.
        -- exact Hnd.
        -- intros k Hk. rewrite dkeys_dset_new by (apply Hfresh; now left).
           intros Hin. apply in_app_or in Hin as [Hin|[->|[]]].
           ++ apply (Hfresh k); [now right|exact Hin].
           ++ contradiction.
    + assert (Ho : has_own_optimizer parts name = false).
      { destruct (has_own_optimizer parts name); [|reflexivity].
        specialize (Hexcl eq_refl). congruence. }
      rewrite Hp, Ho. split; [|split; [exact Hparts|split; [exact Hother|split; [exact Hown|]]]].
      * rewrite Hpool. now rewrite <- app_assoc.
      * intros Hnd Hfresh. apply NoDup_cons in Hnd as [_ Hnd]. apply Hkeys; [exact Hnd|].
        intros k Hk. apply Hfresh. now right.
    + assert (Ho : has_own_optimizer parts name = false /\ is_pooled parts name = false).
      { unfold has_own_optimizer, is_pooled, is_frozen in *.
        destruct (dget name parts) as [[| |part]|]; try discriminate.
        destruct (requires_optimizer part); [discriminate|]. auto. }
      destruct Ho as [Ho Hp]. rewrite Ho, Hp.
      split; [exact Hpool|split; [exact Hparts|split; [exact Hother|split; [exact Hown|]]]].
      intros Hnd Hfresh. apply NoDup_cons in Hnd as [_ Hnd]. apply Hkeys; [exact Hnd|].
      intros k Hk. apply Hfresh. now right.
Qed.

(** The loop that gathers the parameters of the pooled parts. *)
Lemma pooled_parameters_ok (names : list string) :
  forall (acc gp : list tensor) (t t' : BaseTrainer),
  for_fold names acc (fun acc x => ps <- part_parameters x ;; ret (acc ++ ps)) t
    = (t', Ok gp) ->
  t' = t /\ gp = acc ++ pooled_parameters (model_parts t) names.
Proof.
  induction names as [|x names IH]; intros acc gp t t' E.
  - apply ret_ok in E as [-> ->]. cbn. now rewrite app_nil_r.
  - cbn [for_fold] in E. apply bind_ok in E as (t1 & acc1 & E1 & E).
    apply bind_ok in E1 as (t2 & ps & E2 & E1).
    apply part_parameters_ok in E2 as [-> (p & Hp & ->)].
    apply ret_ok in E1 as [-> ->].
    destruct (IH _ _ _ _ E) as [-> ->]. split; [reflexivity|].
    unfold pooled_parameters. cbn [flat_map]. rewrite Hp. now rewrite <- app_assoc.
Qed.

End OptimizerFacts.

Section OptimizerClaims.
Context `{Torch}.

(** C2: on a trainer without optimizers, for a configuration whose part
    names are distinct and differ from the reserved global key, when
    [instantiate_optimizers] returns: a frozen part has no optimizer;
    every part that requires an optimizer and declares one has an
    optimizer under its own name over exactly its parameters; the other
    parts that require an optimizer are pooled, and the global key holds
    one optimizer over the parameters of the pooled parts, one part after
    the other, if and only if the pool is not empty; there is no other
    key.  For parts A (frozen), B (own optimizer), C and D the keys are
    exactly B and the global key (see the witness). *)
Theorem instantiate_optimizers_assignment
  (c : node) (conf parts : dict node) (t t' : BaseTrainer) :
  c = NDict conf ->
  dget "parts" conf = Some (NDict parts) ->
  NoDup (dkeys parts) ->
  ~ In global_key (dkeys parts) ->
  optimizers t = [] ->
  instantiate_optimizers c t = (t', Ok tt) ->
  (forall name, In name (dkeys parts) -> is_frozen parts name = true ->
     dget name (optimizers t') = None) /\
  (forall name, In name (dkeys parts) -> has_own_optimizer parts name = true ->
     exists o p, dget name (optimizers t') = Some o /\
       dget name (model_parts t) = Some p /\ opt_params o = parameters p) /\
  (List.filter (is_pooled parts) (dkeys parts) <> [] ->
     exists o, dget global_key (optimizers t') = Some o /\
       opt_params o =
         pooled_parameters (model_parts t) (List.filter (is_pooled parts) (dkeys parts))) /\
  (List.filter (is_pooled parts) (dkeys parts) = [] ->
     dget global_key (optimizers t') = None) /\
  dkeys (optimizers t') =
    List.filter (has_own_optimizer parts) (dkeys parts) ++
    match List.filter (is_pooled parts) (dkeys parts) with
    | [] => []
    | _ :: _ => [global_key]
    end.
Proof.
  intros -> Hparts Hnd Hglobal Hempty E.
  unfold instantiate_optimizers in E. cbn [as_dict] in E.
  apply bind_ok in E as (t0 & conf0 & E0 & E). apply lift_ok in E0 as [-> E0].
  injection E0 as <-.
  apply bind_ok in E as (t0 & pn & E0 & E). apply lift_ok in E0 as [-> E0].
  apply attr_ok in E0. rewrite Hparts in E0. injection E0 as <-.
  apply bind_ok in E as (t0 & parts0 & E0 & E). apply lift_ok in E0 as [-> E0].
  injection E0 as <-.
  apply bind_ok in E as (t1 & pool & Eloop & E).
  destruct (assign_parts_ok _ _ _ _ _ _ _ Eloop) as (Hpool & Hmp & Hother & Hown & Hkeys).
  cbn [app] in Hpool. rewrite Hempty in Hother, Hkeys. cbn [dkeys map app] in Hkeys.
  specialize (Hkeys Hnd (fun k _ Hin => Hin)).
  set (own := List.filter (has_own_optimizer parts) (dkeys parts)) in *.
  assert (Hfrozen_own : forall name, is_frozen parts name = true -> ~ In name own).
  { intros name Hf Hin. apply filter_In in Hin as [_ Ho].
    unfold is_frozen, has_own_optimizer in *.
    destruct (dget name parts) as [[| |part]|]; try discriminate.
    destruct (requires_optimizer part); discriminate. }
  assert (Hglobal_own : ~ In global_key own).
  { intros Hin. apply filter_In in Hin as [Hin _]. contradiction. }
  rewrite <- Hpool.
  destruct pool as [|x pool].
  - apply ret_ok in E as [-> _].
    split; [|split; [|split; [|split]]].
    + intros name _ Hf. rewrite Hother by now apply Hfrozen_own. reflexivity.
    + intros name Hin Ho. apply Hown. apply filter_In. auto.
    + congruence.
    + intros _. rewrite Hother by assumption. reflexivity.
    + rewrite Hkeys. now rewrite app_nil_r.
  - apply bind_ok in E as (t2 & gp & Egp & E).
    apply pooled_parameters_ok in Egp as [-> ->]. cbn [app] in E.
    apply bind_ok in E as (t2 & ov & E2 & E). apply lift_ok in E2 as [-> _].
    apply bind_ok in E as (t2 & spec & E3 & E). apply lift_ok in E3 as [-> _].
    apply bind_ok in E as (t2 & o & E4 & E). apply lift_ok in E4 as [-> E4].
    apply get_optimizer_params in E4.
    unfold modify in E. injection E as <-. cbn [optimizers set_optimizers].
    split; [|split; [|split; [|split]]].
    + intros name Hin Hf. rewrite dget_dset_ne by (intros ->; contradiction).
      rewrite Hother by now apply Hfrozen_own. reflexivity.
    + intros name Hin Ho.
      rewrite dget_dset_ne by (intros ->; contradiction).
      apply Hown. apply filter_In. auto.
    + intros _. exists o. rewrite dget_dset_eq. split; [reflexivity|].
      rewrite E4. now rewrite Hmp.
    + discriminate.
    + rewrite dkeys_dset_new by (rewrite Hkeys; exact Hglobal_own).
      now rewrite Hkeys.
Qed.

End OptimizerClaims.

Lemma instantiate_optimizers_assignment_witness :
  (forall name, In name ["A"; "B"; "C"; "D"] ->
     is_frozen example_parts name = true ->
     dget name (optimizers example_trainer_assigned) = None) /\
  (forall name, In name ["A"; "B"; "C"; "D"] ->
     has_own_optimizer example_parts name = true ->
     exists o p, dget name (optimizers example_trainer_assigned) = Some o /\
       dget name (model_parts example_trainer) = Some p /\
       opt_params o = parameters p) /\
  (["C"; "D"] <> [] ->
     exists o, dget global_key (optimizers example_trainer_assigned) = Some o /\
       opt_params o = pooled_parameters (model_parts example_trainer) ["C"; "D"]) /\
  (["C"; "D"] = [] ->
     dget global_key (optimizers example_trainer_assigned) = None) /\
  dkeys (optimizers example_trainer_assigned) = ["B"] ++ [global_key].
Proof.
  apply (instantiate_optimizers_assignment (H := example_torch)
           example_cfg
           [("parts", NDict example_parts);
            ("optimizer", NDict [("name", Leaf (SStr "adam"))])]
           example_parts example_trainer example_trainer_assigned).
  - reflexivity.
  - reflexivity.
  - cbn [dkeys map fst example_parts].
    repeat (apply NoDup_cons; split;
            [rewrite list_elem_of_In; cbn; intuition discriminate|]).
    apply NoDup_nil. exact I.
  - cbn. intuition discriminate.
  - reflexivity.
  - vm_compute. reflexivity.
Defined.

(** ** The validation trigger set *)

Lemma py_range_positive_step (start stop step : Z) :
  (0 < step)%Z ->
  exists r, py_range start stop step = Ok r /\
    forall i, In i r <->
      exists k : Z, (0 <= k)%Z /\ i = (start + k * step)%Z /\ (i < stop)%Z.
Proof.
  intros Hstep. unfold py_range.
  destruct (Z.eqb_spec step 0) as [->|_]; [lia|].
  destruct (Z.ltb_spec 0 step) as [_|]; [|lia].
  eexists. split; [reflexivity|]. intros i. rewrite in_map_iff.
  set (count := ((stop - start + step - 1) / step)%Z).
  assert (Hcount : forall k : Z, (0 <= k)%Z ->
            ((k < count)%Z <-> (start + k * step < stop)%Z)).
  { intros k Hk. unfold count. split; intros Hlt.
    - assert (Hle : (k + 1 <= (stop - start + step - 1) / step)%Z) by lia.
      pose proof (Z.mul_div_le (stop - start + step - 1) step Hstep). nia.
    - assert (Hle : (k + 1 <= (stop - start + step - 1) / step)%Z); [|lia].
      apply Z.div_le_lower_bound; [assumption|]. nia. }
  split.
  - intros (k & <- & Hin). apply in_seq in Hin. exists (Z.of_nat k).
    split; [lia|]. split; [reflexivity|]. apply Hcount; lia.
  - intros (k & Hk & -> & Hlt). exists (Z.to_nat k).
    rewrite Z2Nat.id by assumption. split; [reflexivity|].
    apply in_seq. apply Hcount in Hlt; lia.
Qed.

Section TriggerClaims.

(** C3: for a positive interval [v] and [n] batches, the trigger set that
    [train] builds holds exactly the positive multiples of [v] below [n]
    other than [n - 1]; for the interval [-1] it is empty; for [n = 10]
    and [v = 3] it is [{3, 6}]. *)
Theorem validation_triggers_spec (v n : Z) :
  (0 < v)%Z ->
  (exists s, validation_triggers v n = Ok s /\
     forall i, i ∈ s <-> is_trigger v n i) /\
  validation_triggers (-1) n = Ok ∅ /\
  validation_triggers 3 10 = Ok {[ 3%Z; 6%Z ]}.
Proof.
  intros Hv. split; [|split].
  - unfold validation_triggers.
    destruct (Z.eqb_spec v (-1)) as [->|_]; [lia|].
    destruct (py_range_positive_step v n v Hv) as (r & -> & Hr). cbn [rbind].
    eexists. split; [reflexivity|]. intros i.
    rewrite elem_of_difference, elem_of_list_to_set, list_elem_of_In, Hr.
    rewrite elem_of_singleton. unfold is_trigger. split.
    + intros ((k & Hk & -> & Hlt) & Hne). repeat split; try lia.
      exists (1 + k)%Z. lia.
    + intros (Hpos & (m & ->) & Hlt & Hne). split; [|assumption].
      exists (m - 1)%Z. repeat split; nia.
  - reflexivity.
  - reflexivity.
Qed.

Lemma validation_triggers_spec_witness :
  (exists s, validation_triggers 3 10 = Ok s /\
     forall i, i ∈ s <-> is_trigger 3 10 i) /\
  validation_triggers (-1) 10 = Ok ∅ /\
  validation_triggers 3 10 = Ok {[ 3%Z; 6%Z ]}.
Proof.
  apply (validation_triggers_spec 3 10). reflexivity.
Defined.

End TriggerClaims.

(** ** Validation and the training loop *)

Section LoopFacts.
Context `{Torch}.

Lemma reads_only_ret {A} (a : A) : reads_only (ret a).
Proof. intros self self' r E. now injection E as <- _. Qed.

Lemma reads_only_gets {A} (f : BaseTrainer -> A) : reads_only (gets f).
Proof. intros self self' r E. now injection E as <- _. Qed.

Lemma reads_only_lift {A} (r : result A) : reads_only (lift r).
Proof. intros self self' r' E. now injection E as <- _. Qed.

Lemma reads_only_bind {A B} (c : M BaseTrainer A) (k : A -> M BaseTrainer B) :
  reads_only c -> (forall a, reads_only (k a)) -> reads_only (bind c k).
Proof.
  intros Hc Hk self self' r E. unfold bind in E.
  destruct (c self) as [s1 [a|e]] eqn:E1; apply Hc in E1; subst s1.
  - now apply Hk in E.
  - now injection E as <- _.
Qed.

Lemma reads_only_for_fold {A B} (xs : list A) (body : B -> A -> M BaseTrainer B) :
  (forall acc x, reads_only (body acc x)) ->
  forall acc, reads_only (for_fold xs acc body).
Proof.
  intros Hbody. induction xs as [|x xs IH]; intros acc; cbn [for_fold].
  - apply reads_only_ret.
  - apply reads_only_bind; [apply Hbody|assumption].
Qed.

Lemma validation_pass_reads_only (tc : TrainerClass) : reads_only (validation_pass tc).
Proof.
  unfold validation_pass. apply reads_only_bind; [apply reads_only_gets|].
  intros [batches|]; [|apply reads_only_ret].
  apply reads_only_bind; [|intros; apply reads_only_ret].
  apply reads_only_for_fold. intros acc ib. unfold validation_batch.
  apply reads_only_bind; [apply reads_only_gets|]. intros dev.
  apply reads_only_bind; [apply reads_only_lift|]. intros metrics.
  apply reads_only_lift.
Qed.

(** [validate] on a trainer that has a saver: the metrics of the
    validation pass go to one call of [save]; a failure of the pass goes
    to the caller. *)
Lemma validate_with_saver (tc : TrainerClass) (epoch tb : Z) (use_apex : bool)
  (self : BaseTrainer) (sv : ModelSaver) :
  saver self = Some sv ->
  validate tc epoch tb use_apex self =
    match snd (validation_pass tc self) with
    | Ok metrics =>
        record_call (SaverSave (model_parts self) (optimizers self) use_apex
                       epoch tb metrics) self
    | Raise e => (self, Raise e)
    end.
Proof.
  intros Hsv. unfold validate, bind.
  destruct (validation_pass tc self) as [s1 r] eqn:E.
  pose proof (validation_pass_reads_only tc _ _ _ E) as ->.
  destruct r as [metrics|e]; cbn [snd]; [|reflexivity].
  unfold gets. rewrite Hsv. reflexivity.
Qed.

Lemma validation_pass_no_dataloader (tc : TrainerClass) (self : BaseTrainer) :
  validation_dataloader self = None -> validation_pass tc self = (self, Ok []).
Proof. intros Hv. unfold validation_pass, bind, gets. now rewrite Hv. Qed.

(** *** Counting the checkpoints of a run *)

Lemma saves_at_record (n : Z) (c : call) (self : BaseTrainer) :
  saves_at n (fst (record_call c self)) =
    (saves_at n self + if is_save_at n c then 1 else 0)%nat.
Proof.
  unfold saves_at. cbn [record_call fst calls].
  rewrite List.filter_app, List.length_app. cbn [List.filter].
  now destruct (is_save_at n c).
Qed.

Lemma adds_saves_ret {A} (n : Z) (a : A) : adds_saves n 0 (ret a).
Proof. intros self self' b _ E. injection E as <- _. auto. Qed.

Lemma adds_saves_reads_only {A} (n : Z) (c : M BaseTrainer A) :
  reads_only c -> adds_saves n 0 c.
Proof. intros Hc self self' a _ E. apply Hc in E. subst. auto. Qed.

Lemma adds_saves_record (n : Z) (c : call) :
  adds_saves n (if is_save_at n c then 1 else 0) (record_call c).
Proof.
  intros self self' a _ E.
  assert (Hs : self' = fst (record_call c self)) by now rewrite E.
  subst self'. rewrite saves_at_record. auto.
Qed.

Lemma adds_saves_bind {A B} (n : Z) (j k : nat)
  (c : M BaseTrainer A) (f : A -> M BaseTrainer B) :
  adds_saves n j c -> (forall a, adds_saves n k (f a)) ->
  adds_saves n (j + k) (bind c f).
Proof.
  intros Hc Hf self self' b Hn E. apply bind_ok in E as (s1 & a & E1 & E2).
  destruct (Hc _ _ _ Hn E1) as (Hd1 & He1 & Hs1).
  assert (Hn1 : Z.of_nat (length (dataloader s1)) = n) by now rewrite Hd1.
  destruct (Hf a _ _ _ Hn1 E2) as (Hd2 & He2 & Hs2).
  repeat split; [congruence|congruence|lia].
Qed.

(** The value read by [gets] may be used by what follows. *)
Lemma adds_saves_gets {A B} (n : Z) (k : nat) (g : BaseTrainer -> A)
  (f : A -> M BaseTrainer B) :
  (forall self, Z.of_nat (length (dataloader self)) = n -> adds_saves n k (f (g self))) ->
  adds_saves n k (bind (gets g) f).
Proof.
  intros Hf self self' b Hn E. unfold bind, gets in E.
  exact (Hf self Hn _ _ _ Hn E).
Qed.

Lemma adds_saves_for_each {A} (n : Z) (k : nat) (xs : list A)
  (body : A -> M BaseTrainer unit) :
  (forall x, In x xs -> adds_saves n k (body x)) ->
  adds_saves n (length xs * k) (for_each xs body).
Proof.
  induction xs as [|x xs IH]; intros Hbody; cbn [for_each length Nat.mul].
  - apply adds_saves_ret.
  - apply adds_saves_bind; [apply Hbody; now left|].
    intros _. apply IH. intros y Hy. apply Hbody. now right.
Qed.

Lemma adds_saves_logger_call (n : Z) (c : call) :
  is_save_at n c = false -> adds_saves n 0 (logger_call c).
Proof.
  intros Hc. unfold logger_call. apply adds_saves_gets. intros self _.
  destruct (logger self).
  - pose proof (adds_saves_record n c) as Hr. now rewrite Hc in Hr.
  - intros s s' a _ E. discriminate E.
Qed.

Lemma adds_saves_validate (tc : TrainerClass) (n epoch tb : Z) (use_apex : bool) :
  adds_saves n (if (tb =? n)%Z then 1 else 0) (validate tc epoch tb use_apex).
Proof.
  unfold validate.
  change (if (tb =? n)%Z then 1 else 0)%nat
    with (0 + (if (tb =? n)%Z then 1 else 0))%nat.
  apply adds_saves_bind;
    [apply adds_saves_reads_only, validation_pass_reads_only|].
  intros metrics. apply adds_saves_gets. intros self _.
  destruct (saver self).
  - apply adds_saves_gets. intros s1 _. apply adds_saves_gets. intros s2 _.
    apply (adds_saves_record n
             (SaverSave (model_parts s1) (optimizers s2) use_apex epoch tb metrics)).
  - intros s s' a _ E. discriminate E.
Qed.

Lemma enumerate_from_bound {A} (xs : list A) : forall (s : Z) (ib : Z * A),
  In ib (enumerate_from s xs) -> (s <= fst ib < s + Z.of_nat (length xs))%Z.
Proof.
  induction xs as [|x xs IH]; intros s ib Hin; [destruct Hin|].
  cbn [enumerate_from length] in *. destruct Hin as [<-|Hin].
  - cbn. lia.
  - apply IH in Hin. lia.
Qed.

Lemma adds_saves_train_batch (tc : TrainerClass) (using_apex : bool)
  (triggers : gset Z) (n epoch : Z) (ib : Z * batch) :
  fst ib <> n ->
  adds_saves n 0 (train_batch tc using_apex triggers epoch ib).
Proof.
  intros Hne. unfold train_batch.
  apply adds_saves_gets. intros s0 _.
  apply (adds_saves_bind n 0 0).
  { replace 0%nat with (length (dvalues (optimizers s0)) * 0)%nat by lia.
    apply adds_saves_for_each. intros o _. apply (adds_saves_record n (ZeroGrad o)). }
  intros _. apply adds_saves_gets. intros s1 _. apply adds_saves_gets. intros s2 _.
  apply (adds_saves_bind n 0 0);
    [apply adds_saves_reads_only, reads_only_lift|]. intros l.
  apply (adds_saves_bind n 0 0); [apply (adds_saves_record n (Backward l using_apex))|].
  intros _. apply adds_saves_gets. intros s3 _.
  apply (adds_saves_bind n 0 0).
  { replace 0%nat with (length (dvalues (optimizers s3)) * 0)%nat by lia.
    apply adds_saves_for_each. intros o _. apply (adds_saves_record n (Step o)). }
  intros _. apply (adds_saves_bind n 0 0); [now apply adds_saves_logger_call|].
  intros _. destruct (decide (fst ib ∈ triggers)).
  - pose proof (adds_saves_validate tc n epoch (fst ib) using_apex) as Hv.
    destruct (Z.eqb_spec (fst ib) n); [contradiction|exact Hv].
  - apply adds_saves_ret.
Qed.

(** One epoch writes exactly one checkpoint with the end-of-epoch
    label. *)
Lemma adds_saves_train_epoch (tc : TrainerClass) (using_apex : bool)
  (triggers : gset Z) (n epoch : Z) :
  adds_saves n 1 (train_epoch tc using_apex triggers epoch).
Proof.
  unfold train_epoch. apply adds_saves_gets. intros s0 Hn.
  apply (adds_saves_bind n 0 1).
  { replace 0%nat with (length (enumerate (dataloader s0)) * 0)%nat by lia.
    apply adds_saves_for_each. intros ib Hin.
    apply adds_saves_train_batch.
    apply enumerate_from_bound in Hin. lia. }
  intros _. apply (adds_saves_bind n 0 1); [now apply adds_saves_logger_call|].
  intros _. apply adds_saves_gets. intros s1 Hn1. rewrite Hn1.
  pose proof (adds_saves_validate tc n epoch n using_apex) as Hv.
  now rewrite Z.eqb_refl in Hv.
Qed.

Lemma adds_saves_apex_wrap `{!Apex} (n : Z) (level : node) :
  adds_saves n 0 (apex_wrap level).
Proof.
  intros self self' a _ E. unfold apex_wrap in E.
  repeat match type of E with
  | context [match ?x with _ => _ end] => destruct x; try discriminate
  end.
  injection E as <- _. unfold saves_at. cbn. auto.
Qed.

(** A run of [train] that returns has written one end-of-epoch
    checkpoint per epoch. *)
Lemma train_saves_every_epoch `{!Apex} (tc : TrainerClass) (validate_every min_wait : Z)
  (self self' : BaseTrainer) :
  train tc validate_every min_wait self = (self', Ok tt) ->
  exists epoch_list, range_of (epochs self) = Ok epoch_list /\
    saves_at (Z.of_nat (length (dataloader self))) self' =
      (saves_at (Z.of_nat (length (dataloader self))) self + length epoch_list)%nat.
Proof.
  set (n := Z.of_nat (length (dataloader self))).
  unfold train. intros E.
  apply bind_ok in E as (s0 & n0 & E0 & E). injection E0 as <- <-.
  apply bind_ok in E as (s0 & triggers & E0 & E). apply lift_ok in E0 as [-> _].
  apply bind_ok in E as (s0 & lg & E0 & E). injection E0 as <- <-.
  apply bind_ok in E as (s1 & [] & E1 & E).
  assert (Hfr1 : dataloader s1 = dataloader self /\ epochs s1 = epochs self /\
               saves_at n s1 = saves_at n self).
  { destruct (logger self); [|discriminate]. injection E1 as <-. auto. }
  destruct Hfr1 as (Hd1 & He1 & Hs1).
  apply bind_ok in E as (s2 & c & E2 & E). injection E2 as <- <-.
  apply bind_ok in E as (s2 & conf & E2 & E). apply lift_ok in E2 as [-> _].
  apply bind_ok in E as (s2 & [] & E2 & E).
  assert (Hn1 : Z.of_nat (length (dataloader s1)) = n) by now rewrite Hd1.
  assert (Hfr2 : dataloader s2 = dataloader s1 /\ epochs s2 = epochs s1 /\
               saves_at n s2 = (saves_at n s1 + 0)%nat).
  { destruct (truthy (conf_get "apex" (Leaf (SBool false)) conf) && HAS_APEX).
    - exact (adds_saves_apex_wrap n _ _ _ _ Hn1 E2).
    - exact (adds_saves_ret n tt _ _ _ Hn1 E2). }
  destruct Hfr2 as (Hd2 & He2 & Hs2).
  apply bind_ok in E as (s3 & [] & E3 & E).
  assert (Hn2 : Z.of_nat (length (dataloader s2)) = n) by congruence.
  destruct (adds_saves_logger_call n LoggerStart eq_refl _ _ _ Hn2 E3)
    as (Hd3 & He3 & Hs3).
  apply bind_ok in E as (s4 & ep & E4 & E). injection E4 as <- <-.
  apply bind_ok in E as (s4 & epoch_list & E4 & E). apply lift_ok in E4 as [-> E4].
  assert (Hn3 : Z.of_nat (length (dataloader s3)) = n) by congruence.
  destruct (adds_saves_for_each n 1 epoch_list
              (train_epoch tc _ triggers)
              (fun x _ => adds_saves_train_epoch tc _ triggers n x)
              _ _ _ Hn3 E) as (_ & _ & Hs4).
  exists epoch_list. split; [congruence|]. lia.
Qed.

End LoopFacts.

Section LoopClaims.
Context `{Torch}.

Lemma saves_record (c : call) (self : BaseTrainer) :
  is_save c = true ->
  saves (calls (fst (record_call c self))) = saves (calls self) ++ [c].
Proof.
  intros Hc. unfold saves. cbn [record_call fst calls].
  rewrite List.filter_app. cbn [List.filter]. now rewrite Hc.
Qed.

(** C7: on rank 0 (the trainer has a saver) every invocation of
    [validate] whose validation pass returns makes exactly one call of
    the saver, with the metrics of the pass; without a validation
    dataloader the pass always returns and the metrics are empty; and a
    run of [train] that returns has written one end-of-epoch checkpoint
    per epoch, whatever the validation configuration. *)
Theorem validate_checkpoints_once `{!Apex} (tc : TrainerClass)
  (self : BaseTrainer) (sv : ModelSaver) :
  saver self = Some sv ->
  (forall (epoch tb : Z) (use_apex : bool) (metrics : dict Q),
     snd (validation_pass tc self) = Ok metrics ->
     validate tc epoch tb use_apex self =
       record_call (SaverSave (model_parts self) (optimizers self) use_apex
                      epoch tb metrics) self /\
     saves (calls (fst (validate tc epoch tb use_apex self))) =
       saves (calls self) ++
       [SaverSave (model_parts self) (optimizers self) use_apex epoch tb metrics]) /\
  (validation_dataloader self = None -> snd (validation_pass tc self) = Ok []) /\
  (forall (validate_every min_wait : Z) (self' : BaseTrainer),
     train tc validate_every min_wait self = (self', Ok tt) ->
     exists epoch_list, range_of (epochs self) = Ok epoch_list /\
       saves_at (Z.of_nat (length (dataloader self))) self' =
         (saves_at (Z.of_nat (length (dataloader self))) self + length epoch_list)%nat).
Proof.
  intros Hsv. split; [|split].
  - intros epoch tb use_apex metrics Hpass.
    assert (Hv : validate tc epoch tb use_apex self =
                 record_call (SaverSave (model_parts self) (optimizers self) use_apex
                                epoch tb metrics) self).
    { rewrite (validate_with_saver tc epoch tb use_apex self sv Hsv).
      now rewrite Hpass. }
    split; [exact Hv|]. rewrite Hv. now apply saves_record.
  - intros Hv. now rewrite validation_pass_no_dataloader.
  - intros validate_every min_wait self' E.
    now apply (train_saves_every_epoch tc validate_every min_wait).
Qed.

(** With no optimizer in the trainer, restoring the optimizer states of
    a checkpoint fails at its first key. *)
Lemma load_optimizers_without_optimizers `{!World}
  (k : string) (rest : list string) (states : dict state_dict) (self : BaseTrainer) :
  optimizers self = [] ->
  load_optimizers (k :: rest) states self = (self, Raise (KeyError k)).
Proof.
  intros Hopt. cbn [load_optimizers]. unfold bind, gets, lift, dindex.
  rewrite Hopt. reflexivity.
Qed.

End LoopClaims.

Lemma validate_checkpoints_once_witness :
  ((forall (epoch tb : Z) (use_apex : bool) (metrics : dict Q),
      snd (validation_pass example_trainer_class example_trainer_assigned) = Ok metrics ->
      validate example_trainer_class epoch tb use_apex example_trainer_assigned =
        record_call (SaverSave (model_parts example_trainer_assigned)
                       (optimizers example_trainer_assigned) use_apex
                       epoch tb metrics) example_trainer_assigned /\
      saves (calls (fst (validate example_trainer_class epoch tb use_apex
                           example_trainer_assigned))) =
        saves (calls example_trainer_assigned) ++
        [SaverSave (model_parts example_trainer_assigned)
           (optimizers example_trainer_assigned) use_apex epoch tb metrics]) /\
   (validation_dataloader example_trainer_assigned = None ->
      snd (validation_pass example_trainer_class example_trainer_assigned) = Ok []) /\
   (forall (validate_every min_wait : Z) (self' : BaseTrainer),
      train (H0 := example_apex) example_trainer_class validate_every min_wait
        example_trainer_assigned = (self', Ok tt) ->
      exists epoch_list,
        range_of (epochs example_trainer_assigned) = Ok epoch_list /\
        saves_at (Z.of_nat (length (dataloader example_trainer_assigned))) self' =
          (saves_at (Z.of_nat (length (dataloader example_trainer_assigned)))
             example_trainer_assigned + length epoch_list)%nat)) /\
  snd (train (H0 := example_apex) example_trainer_class 2 5 example_trainer_assigned)
    = Ok tt /\
  saves_at 3 (fst (train (H0 := example_apex) example_trainer_class 2 5
                     example_trainer_assigned)) = 2%nat.
Proof.
  split; [|split].
  - apply (validate_checkpoints_once (H0 := example_apex) example_trainer_class
             example_trainer_assigned (mkModelSaver "models/0")).
    reflexivity.
  - vm_compute. reflexivity.
  - vm_compute. reflexivity.
Defined.

(** ** Workers other than rank 0 *)

Section WorkerSaverClaims.
Context `{Torch}.


End WorkerSaverClaims.


(** C6 fails on the code: with [load_checkpoint] in the configuration and
    a checkpoint that holds the state of the global optimizer, the setup
    looks the optimizer up in the trainer before [instantiate_optimizers]
    has built any, and raises [KeyError]; without the key the same setup
    returns. *)
Theorem resume_with_optimizers_raises :
  ck_optimizers example_checkpoint = [(global_key, "state of the global optimizer")] /\
  train_setup (H0 := example_world) example_erlich example_trainer_class (ret tt)
    0 [0%Z] example_resume_cfg "models/1" = Raise (KeyError global_key) /\
  is_ok (train_setup (H0 := example_world) example_erlich example_trainer_class (ret tt)
           0 [0%Z] example_train_cfg "models/1") = true.
Proof.
  split; [reflexivity|]. split; vm_compute; reflexivity.
Qed.

(** * Further properties of the code *)

(** ** Configuration resolution: what every result looks like *)

Section ConfigExtras.
Variable self : Erlich.
Variable files : gmap string node.

(** X3: a configuration returned by [parse_config] is a mapping without
    a top-level [load] that holds [batch_size], [epochs] and
    [validation_batch_size]; and where its [parts] is a mapping, no part
    specification in it that is a mapping has a [load] key. *)
Theorem parse_config_leaves_no_load
  (name : string) (additional : list (list string * node)) (out : node) :
  parse_config self files name additional = Ok out ->
  exists conf,
    out = NDict conf /\
    dget "load" conf = None /\
    (forall parts p spec,
       dget "parts" conf = Some (NDict parts) ->
       dget p parts = Some (NDict spec) -> dget "load" spec = None) /\
    dmem "batch_size" conf = true /\
    dmem "epochs" conf = true /\
    dmem "validation_batch_size" conf = true.
Proof.
  intros E.
  apply parse_config_steps in E as (conf & pn & pn' & conf' & Econf & _ & Eres & Efill & ->).
  apply load_config_no_load in Econf.
  apply fill_defaults_ok in Efill as ((bs & tw & Hbs & _) & Hep & Hvbs & Hother).
  exists conf'. split; [reflexivity|]. split; [|split; [|split; [|split]]].
  - rewrite Hother by discriminate. rewrite dget_dset_ne by discriminate. exact Econf.
  - intros parts p spec Hparts Hp.
    rewrite Hother in Hparts by discriminate. rewrite dget_dset_eq in Hparts.
    injection Hparts as ->.
    destruct (resolve_conf_parts_settled self files pn parts p Eres)
      as (part & Hpart & Hl).
    + apply dget_In_keys. congruence.
    + rewrite Hp in Hpart. injection Hpart as <-.
      now apply load_entry_none_mapping.
  - apply dmem_true. eauto.
  - exact Hep.
  - exact Hvbs.
Qed.

(** X4: the mandatory parameters of a returned configuration are the
    ones of the merged configuration where it has them, and otherwise
    [batch_size = 16], [epochs = 10] and [validation_batch_size] twice
    the resulting [batch_size]; the doubling is always computed, so
    [batch_size] is never a list or a mapping. *)
Theorem parse_config_defaults
  (name : string) (additional : list (list string * node))
  (conf out : dict node) :
  load_config self files name additional = Ok conf ->
  parse_config self files name additional = Ok (NDict out) ->
  exists twice,
    dget "batch_size" out = Some (conf_get "batch_size" (Leaf (SInt 16)) conf) /\
    dget "epochs" out = Some (conf_get "epochs" (Leaf (SInt 10)) conf) /\
    py_mul2 (conf_get "batch_size" (Leaf (SInt 16)) conf) = Ok twice /\
    dget "validation_batch_size" out =
      Some (conf_get "validation_batch_size" twice conf).
Proof.
  intros Hconf E. unfold parse_config in E. rewrite Hconf in E. cbn [rbind] in E.
  apply rbind_ok in E as (pn & Epn & E).
  apply rbind_ok in E as (parts' & Eres & E).
  apply rbind_ok in E as (conf' & Efill & E). injection E as <-.
  unfold fill_defaults in Efill.
  apply rbind_ok in Efill as (bs & Ebs & Efill). apply attr_ok in Ebs.
  apply rbind_ok in Efill as (twice & Etw & Efill). injection Efill as <-.
  assert (Hget : forall k d, k <> "parts" ->
            conf_get k d (dset "parts" parts' conf) = conf_get k d conf).
  { intros k d Hk. unfold conf_get. now rewrite dget_dset_ne. }
  rewrite dget_dset_ne in Ebs by discriminate. rewrite dget_dset_eq in Ebs.
  injection Ebs as <-. rewrite Hget in Etw by discriminate.
  exists twice. split; [|split; [|split]].
  - rewrite !dget_dset_ne by discriminate. rewrite dget_dset_eq.
    now rewrite Hget by discriminate.
  - rewrite dget_dset_ne by discriminate. rewrite dget_dset_eq.
    unfold conf_get at 1. rewrite dget_dset_ne by discriminate.
    rewrite dget_dset_ne by discriminate. reflexivity.
  - exact Etw.
  - rewrite dget_dset_eq. f_equal. unfold conf_get.
    rewrite !dget_dset_ne by discriminate. reflexivity.
Qed.

End ConfigExtras.

Lemma parse_config_leaves_no_load_witness :
  exists conf,
    NDict [("parts",
            NDict [("A", NDict [("arch", Leaf (SStr "resnet"));
                                ("frozen", Leaf (SBool true));
                                ("weights", Leaf (SStr "5.encoder@2.0"))])]);
           ("batch_size", Leaf (SInt 16)); ("epochs", Leaf (SInt 10));
           ("validation_batch_size", Leaf (SInt 32))] = NDict conf /\
    dget "load" conf = None /\
    (forall parts p spec,
       dget "parts" conf = Some (NDict parts) ->
       dget p parts = Some (NDict spec) -> dget "load" spec = None) /\
    dmem "batch_size" conf = true /\
    dmem "epochs" conf = true /\
    dmem "validation_batch_size" conf = true.
Proof.
  apply (parse_config_leaves_no_load example_erlich example_files "exp" []).
  vm_compute. reflexivity.
Defined.

Lemma parse_config_defaults_witness :
  exists twice,
    dget "batch_size"
      [("parts",
        NDict [("A", NDict [("arch", Leaf (SStr "resnet"));
                            ("frozen", Leaf (SBool true));
                            ("weights", Leaf (SStr "5.encoder@2.0"))])]);
       ("batch_size", Leaf (SInt 4)); ("epochs", Leaf (SInt 10));
       ("validation_batch_size", Leaf (SInt 8))]
      = Some (conf_get "batch_size" (Leaf (SInt 16))
                [("parts", NDict [("A", NDict example_part_A)]);
                 ("batch_size", Leaf (SInt 4))]) /\
    dget "epochs"
      [("parts",
        NDict [("A", NDict [("arch", Leaf (SStr "resnet"));
                            ("frozen", Leaf (SBool true));
                            ("weights", Leaf (SStr "5.encoder@2.0"))])]);
       ("batch_size", Leaf (SInt 4)); ("epochs", Leaf (SInt 10));
       ("validation_batch_size", Leaf (SInt 8))]
      = Some (conf_get "epochs" (Leaf (SInt 10))
                [("parts", NDict [("A", NDict example_part_A)]);
                 ("batch_size", Leaf (SInt 4))]) /\
    py_mul2 (conf_get "batch_size" (Leaf (SInt 16))
               [("parts", NDict [("A", NDict example_part_A)]);
                ("batch_size", Leaf (SInt 4))]) = Ok twice /\
    dget "validation_batch_size"
      [("parts",
        NDict [("A", NDict [("arch", Leaf (SStr "resnet"));
                            ("frozen", Leaf (SBool true));
                            ("weights", Leaf (SStr "5.encoder@2.0"))])]);
       ("batch_size", Leaf (SInt 4)); ("epochs", Leaf (SInt 10));
       ("validation_batch_size", Leaf (SInt 8))]
      = Some (conf_get "validation_batch_size" twice
                [("parts", NDict [("A", NDict example_part_A)]);
                 ("batch_size", Leaf (SInt 4))]).
Proof.
  apply (parse_config_defaults example_erlich example_files "exp"
           [(["batch_size"], Leaf (SInt 4))]).
  - vm_compute. reflexivity.
  - vm_compute. reflexivity.
Defined.

(** ** References to models, parts and checkpoints *)

Lemma split_length (sep : ascii) (s : string) :
  length (split sep s) = S (count_char sep s).
Proof.
  induction s as [|c s IH]; [reflexivity|]. cbn [split count_char].
  destruct (split sep s) as [|h t]; [discriminate IH|].
  cbn [length] in IH. destruct (Ascii.eqb c sep); cbn [length Nat.add]; lia.
Qed.

Lemma contains_char_count (c : ascii) (s : string) :
  contains_char c s = false <-> count_char c s = 0%nat.
Proof.
  induction s as [|x s IH]; cbn [contains_char count_char]; [tauto|].
  destruct (Ascii.eqb x c); cbn [orb Nat.add]; [split; discriminate|exact IH].
Qed.

Lemma split_one (sep : ascii) (s a : string) :
  split sep s = [a] -> s = a /\ contains_char sep s = false.
Proof.
  revert a. induction s as [|c s IH]; intros a E; cbn [split] in E.
  - injection E as <-. auto.
  - destruct (split sep s) as [|h t] eqn:Es; [now apply split_nonempty in Es|].
    destruct (Ascii.eqb c sep) eqn:Ec; [discriminate|].
    injection E as <- ->. destruct (IH h eq_refl) as [-> Hs].
    cbn [contains_char]. rewrite Ec, Hs. auto.
Qed.

Lemma split_two (sep : ascii) (s a b : string) :
  split sep s = [a; b] ->
  s = (a ++ String sep b)%string /\
  contains_char sep a = false /\ contains_char sep b = false.
Proof.
  revert a b. induction s as [|c s IH]; intros a b E; cbn [split] in E.
  - discriminate.
  - destruct (split sep s) as [|h t] eqn:Es; [now apply split_nonempty in Es|].
    destruct (Ascii.eqb_spec c sep) as [->|Hne].
    + injection E as <- -> ->. apply split_one in Es as [-> Hs].
      split; [reflexivity|]. split; [reflexivity|assumption].
    + injection E as <- ->. destruct (IH h b eq_refl) as (-> & Hh & Hb).
      rewrite append_String. cbn [contains_char].
      apply Ascii.eqb_neq in Hne. rewrite Hne. auto.
Qed.

Lemma unpack2_raises {A} (xs : list A) (e : exn) :
  unpack2 xs = Raise e -> e = ValueError.
Proof.
  destruct xs as [|a [|b [|c xs]]]; cbn; congruence.
Qed.

Lemma unpack2_ok_length {A} (xs : list A) :
  is_ok (unpack2 xs) = (length xs =? 2)%nat.
Proof. destruct xs as [|a [|b [|c xs]]]; reflexivity. Qed.

(** X5: [parse_load_path] accepts exactly the references
    [modelID.partName] and [modelID.partName@tag] whose pieces do not
    hold the separators, and returns the pieces (the tag ["latest"] when
    there is none); on any other string it raises [ValueError]. *)
Theorem parse_load_path_sound (s : string) :
  match parse_load_path s with
  | Ok (model, part, checkpoint) =>
      exists tag, reference_ok model part tag = true /\
        s = load_reference model part tag /\
        checkpoint = tag_or_latest tag
  | Raise e => e = ValueError
  end.
Proof.
  unfold parse_load_path.
  destruct (contains_char "@" s) eqn:Hat.
  - destruct (unpack2 (split "@" s)) as [[lp ck]|e] eqn:E1; cbn [rbind];
      [|now apply unpack2_raises in E1].
    assert (Hs : split "@" s = [lp; ck]).
    { destruct (split "@" s) as [|a [|b [|c xs]]]; cbn in E1; congruence. }
    apply split_two in Hs as (-> & Hlp & Hck). cbn [fst snd].
    destruct (unpack2 (split "." lp)) as [[m p]|e] eqn:E2; cbn [rbind fst snd];
      [|now apply unpack2_raises in E2].
    assert (Hp : split "." lp = [m; p]).
    { destruct (split "." lp) as [|a [|b [|c xs]]]; cbn in E2; congruence. }
    apply split_two in Hp as (-> & Hm & Hp).
    rewrite contains_char_app in Hlp. cbn [contains_char] in Hlp.
    apply orb_false_iff in Hlp as [Hm2 Hp2]. cbn [Ascii.eqb Bool.eqb orb] in Hp2.
    exists (Some ck). split; [|split; [|reflexivity]].
    + unfold reference_ok. cbn [tag_or_latest]. now rewrite Hm, Hm2, Hp, Hp2, Hck.
    + cbn [load_reference]. now rewrite append_assoc_string.
  - cbn [rbind fst snd].
    destruct (unpack2 (split "." s)) as [[m p]|e] eqn:E2; cbn [rbind fst snd];
      [|now apply unpack2_raises in E2].
    assert (Hp : split "." s = [m; p]).
    { destruct (split "." s) as [|a [|b [|c xs]]]; cbn in E2; congruence. }
    apply split_two in Hp as (-> & Hm & Hp).
    rewrite contains_char_app in Hat. cbn [contains_char] in Hat.
    apply orb_false_iff in Hat as [Hm2 Hp2]. cbn [Ascii.eqb Bool.eqb orb] in Hp2.
    exists None. split; [|split; reflexivity].
    unfold reference_ok. cbn [tag_or_latest]. now rewrite Hm, Hm2, Hp, Hp2.
Qed.

(** X7: [get_checkpoint] fails exactly on a name with more than one
    [@], with [ValueError]; otherwise the name is [modelID] (batch
    ["latest"]) or [modelID@batch], and the path is
    [<model_folder>/<modelID>/<batch>.pth]. *)
Theorem get_checkpoint_sound (self : Erlich) (name : string) :
  is_ok (get_checkpoint self name) = (count_char "@" name <=? 1)%nat /\
  match get_checkpoint self name with
  | Ok (model_id, load_batch, path) =>
      path = path_join (path_join (model_folder self) model_id) (load_batch ++ ".pth") /\
      contains_char "@" model_id = false /\
      contains_char "@" load_batch = false /\
      (name = model_id /\ load_batch = "latest" \/
       name = (model_id ++ "@" ++ load_batch)%string)
  | Raise e => e = ValueError
  end.
Proof.
  unfold get_checkpoint. destruct (contains_char "@" name) eqn:Hat.
  - split.
    + assert (Hok : forall r : result (string * string),
                is_ok (ml <-? r ;;
                       Ok (fst ml, snd ml,
                           path_join (path_join (model_folder self) (fst ml))
                             (snd ml ++ ".pth"))) = is_ok r)
        by (intros [ml|e]; reflexivity).
      rewrite Hok, unpack2_ok_length, split_length.
      destruct (count_char "@" name) as [|[|k]] eqn:Hc; try reflexivity.
      apply contains_char_count in Hc. congruence.
    + destruct (unpack2 (split "@" name)) as [[m b]|e] eqn:E1; cbn [rbind fst snd];
        [|now apply unpack2_raises in E1].
      assert (Hs : split "@" name = [m; b]).
      { destruct (split "@" name) as [|x [|y [|z xs]]]; cbn in E1; congruence. }
      apply split_two in Hs as (-> & Hm & Hb). auto.
  - cbn [rbind fst snd is_ok]. split.
    + apply contains_char_count in Hat. now rewrite Hat.
    + repeat split; auto.
Qed.

Section WeightsReference.
Context `{Torch} `{!World}.

(** X6: the weights reference [model.part@checkpoint] that
    [parse_config] writes is read back by [instantiate_model_parts] as
    the state of [part] in the checkpoint file
    [<model_folder>/<model>/<checkpoint>.pth]. *)
Theorem load_weights_of_reference (self : Erlich) (model part checkpoint : string)
  (p : module) :
  reference_ok model part (Some checkpoint) = true ->
  load_weights self (Leaf (SStr (weights_reference model part checkpoint))) p =
    (ck <-? torch_load (path_join (path_join (model_folder self) model)
                          (checkpoint ++ ".pth")) ;;
     st <-? dindex part (ck_parts ck) ;;
     module_load_state_dict st p).
Proof.
  intros Href. pose proof (parse_load_path_reference _ _ _ Href) as Hparse.
  unfold parse_load_path in Hparse. cbn [load_reference tag_or_latest] in Hparse.
  unfold load_weights. cbn [as_str rbind].
  change (weights_reference model part checkpoint)
    with (model ++ "." ++ part ++ "@" ++ checkpoint)%string.
  destruct (if contains_char "@" (model ++ "." ++ part ++ "@" ++ checkpoint)
            then unpack2 (split "@" (model ++ "." ++ part ++ "@" ++ checkpoint))
            else Ok ((model ++ "." ++ part ++ "@" ++ checkpoint)%string, "latest"))
    as [[lp ck]|e]; cbn [rbind fst snd] in *; [|discriminate].
  destruct (unpack2 (split "." lp)) as [[m q]|e]; cbn [rbind fst snd] in *;
    [|discriminate].
  injection Hparse as -> -> ->. reflexivity.
Qed.

End WeightsReference.

Lemma parse_load_path_sound_example :
  parse_load_path "5.encoder@2.0" = Ok ("5", "encoder", "2.0") /\
  parse_load_path "5.encoder" = Ok ("5", "encoder", "latest") /\
  parse_load_path "encoder" = Raise ValueError /\
  parse_load_path "5.encoder@2@0" = Raise ValueError.
Proof. repeat split; reflexivity. Qed.

Lemma load_weights_of_reference_witness :
  load_weights (H0 := example_world) example_erlich
    (Leaf (SStr (weights_reference "0" "C" "latest"))) (["weight"], None) =
    (ck <-? torch_load (H0 := example_world)
              (path_join (path_join (model_folder example_erlich) "0")
                 ("latest" ++ ".pth")) ;;
     st <-? dindex "C" (ck_parts ck) ;;
     module_load_state_dict st (["weight"], None)).
Proof.
  apply (load_weights_of_reference (H0 := example_world) example_erlich "0" "C" "latest").
  reflexivity.
Defined.

(** ** Loading states and building parts *)

Section LoadingExtras.
Context `{Torch}.

Lemma load_parts_ok `{!World} (states : dict state_dict) (keys : list string) :
  forall parts parts' : dict module,
  load_parts keys states parts = Ok parts' ->
  dkeys parts' = dkeys parts /\
  (forall k, In k keys -> dmem k parts = true) /\
  (forall k, ~ In k keys -> dget k parts' = dget k parts) /\
  (NoDup keys -> forall k, In k keys ->
     exists p st p', dget k parts = Some p /\ dget k states = Some st /\
       module_load_state_dict st p = Ok p' /\ dget k parts' = Some p').
Proof.
  induction keys as [|k keys IH]; intros parts parts' E; cbn [load_parts] in E.
  - injection E as <-. repeat split; try reflexivity; intros; contradiction.
  - apply rbind_ok in E as (p & Ep & E). apply rbind_ok in E as (st & Est & E).
    apply rbind_ok in E as (p' & Eload & E).
    unfold dindex in Ep, Est.
    destruct (dget k parts) as [p0|] eqn:Hp; [|discriminate]. injection Ep as ->.
    destruct (dget k states) as [st0|] eqn:Hst; [|discriminate]. injection Est as ->.
    assert (Hmem : dmem k parts = true) by (apply dmem_true; eauto).
    destruct (IH _ _ E) as (Hkeys & Hin & Hout & Hloaded).
    split; [|split; [|split]].
    + rewrite Hkeys. now apply dkeys_dset.
    + intros k' [<-|Hk']; [exact Hmem|]. specialize (Hin k' Hk').
      unfold dmem in *. rewrite dget_dset in Hin.
      destruct (String.eqb k' k) eqn:Heq; [|exact Hin].
      apply String.eqb_eq in Heq. rewrite Heq, Hp. reflexivity.
    + intros k' Hk'. rewrite Hout by (intros Hin'; apply Hk'; now right).
      apply dget_dset_ne. intros ->. apply Hk'. now left.
    + intros Hnd k' Hk'. apply NoDup_cons in Hnd as [Hnotin Hnd].
      rewrite list_elem_of_In in Hnotin. destruct Hk' as [<-|Hk'].
      * exists p, st, p'. rewrite (Hout k Hnotin), dget_dset_eq. auto.
      * destruct (Hloaded Hnd k' Hk') as (q & stq & q' & Hq & Hstq & Hlq & Hq').
        exists q, stq, q'. rewrite dget_dset_ne in Hq by (intros ->; contradiction).
        auto.
Qed.

(** X8: when [load_state_dicts] returns, it has read the checkpoint at
    the path; every part of the checkpoint is a part of the model (a
    missing one raises [KeyError]); the model has the same part names in
    the same order; the parts that the checkpoint does not name are
    untouched; and every part it names holds the state loaded from the
    checkpoint. *)
Theorem load_state_dicts_frame `{!World} (parts parts' : dict module)
  (path : string) (ck : Checkpoint) :
  NoDup (dkeys (ck_parts ck)) ->
  load_state_dicts parts path = Ok (parts', ck) ->
  checkpoint_files !! path = Some ck /\
  dkeys parts' = dkeys parts /\
  (forall k, In k (dkeys (ck_parts ck)) -> dmem k parts = true) /\
  (forall k, ~ In k (dkeys (ck_parts ck)) -> dget k parts' = dget k parts) /\
  (forall k, In k (dkeys (ck_parts ck)) ->
     exists p st p', dget k parts = Some p /\ dget k (ck_parts ck) = Some st /\
       module_load_state_dict st p = Ok p' /\ dget k parts' = Some p').
Proof.
  intros Hnd E. unfold load_state_dicts, torch_load in E.
  destruct (checkpoint_files !! path) as [ck0|] eqn:Hfile; [|discriminate].
  cbn [rbind] in E. apply rbind_ok in E as (parts1 & Eload & E).
  injection E as -> ->.
  destruct (load_parts_ok _ _ _ _ Eload) as (Hkeys & Hin & Hout & Hloaded).
  repeat split; try assumption. now apply Hloaded.
Qed.

Lemma instantiate_part_ok `{!World} (self : Erlich) (c : node) (parts_cfg : dict node)
  (dev : Z) (jit load : bool) (parts parts' : dict module) (name : string) :
  instantiate_part self c parts_cfg dev jit load parts name = Ok parts' ->
  (exists spec, dget name parts_cfg = Some (NDict spec) /\
     (dmem "arch" spec || dmem "architecture" spec) = true) /\
  exists p, parts' = dset name p parts.
Proof.
  unfold instantiate_part. intros E.
  apply rbind_ok in E as (part & Epart & E). apply attr_ok in Epart.
  apply rbind_ok in E as (spec & Espec & E). apply as_dict_ok in Espec. subst part.
  destruct (dmem "arch" spec || dmem "architecture" spec) eqn:Harch;
    cbn [negb] in E; [|discriminate].
  split; [eauto|].
  apply rbind_ok in E as (p0 & _ & E). apply rbind_ok in E as (p1 & _ & E).
  destruct (dget "jit" spec) as [j|]; [destruct (truthy j && jit)|];
    injection E as <-; eauto.
Qed.

Lemma instantiate_parts_ok `{!World} (self : Erlich) (c : node) (parts_cfg : dict node)
  (dev : Z) (jit load : bool) (names : list string) :
  forall parts parts' : dict module,
  instantiate_parts self c parts_cfg dev jit load names parts = Ok parts' ->
  (forall name, In name names ->
     exists spec, dget name parts_cfg = Some (NDict spec) /\
       (dmem "arch" spec || dmem "architecture" spec) = true) /\
  (NoDup names -> (forall name, In name names -> ~ In name (dkeys parts)) ->
     dkeys parts' = dkeys parts ++ names).
Proof.
  induction names as [|name names IH]; intros parts parts' E;
    cbn [instantiate_parts] in E.
  - injection E as <-. split; [intros ? []|]. intros _ _. now rewrite app_nil_r.
  - apply rbind_ok in E as (parts1 & E1 & E).
    apply instantiate_part_ok in E1 as (Hspec & p & ->).
    destruct (IH _ _ E) as (Hall & Hkeys). split.
    + intros n [<-|Hn]; [exact Hspec|now apply Hall].
    + intros Hnd Hfresh. apply NoDup_cons in Hnd as [Hnotin Hnd].
      rewrite list_elem_of_In in Hnotin.
      rewrite Hkeys; [|exact Hnd|].
      * rewrite dkeys_dset_new by (apply Hfresh; now left).
        now rewrite <- app_assoc.
      * intros n Hn. rewrite dkeys_dset_new by (apply Hfresh; now left).
        intros Hin. apply in_app_or in Hin as [Hin|[->|[]]].
        -- apply (Hfresh n); [now right|exact Hin].
        -- contradiction.
Qed.

(** X9: when [instantiate_model_parts] returns, the model has exactly
    the parts of the configuration, in its order, and every part
    specification holds [arch] or [architecture] (a part with neither
    fails the assertion). *)
Theorem instantiate_model_parts_keys `{!World} (self : Erlich) (c : node)
  (conf parts_cfg : dict node) (dev : Z) (jit load : bool) (parts : dict module) :
  c = NDict conf ->
  dget "parts" conf = Some (NDict parts_cfg) ->
  NoDup (dkeys parts_cfg) ->
  instantiate_model_parts self c dev jit load = Ok parts ->
  dkeys parts = dkeys parts_cfg /\
  forall name, In name (dkeys parts_cfg) ->
    exists spec, dget name parts_cfg = Some (NDict spec) /\
      (dmem "arch" spec || dmem "architecture" spec) = true.
Proof.
  intros -> Hparts Hnd E. unfold instantiate_model_parts, attr in E.
  cbn [as_dict rbind] in E. rewrite Hparts in E. cbn [as_dict rbind] in E.
  destruct (instantiate_parts_ok _ _ _ _ _ _ _ _ _ E) as (Hall & Hkeys).
  split; [|exact Hall]. apply (Hkeys Hnd). intros name _ [].
Qed.

(** X10: with [load=False] (as [load_model] calls it) the parts are
    built without reading any checkpoint: two runs that differ only in
    the checkpoint files on disk give the same result. *)
Theorem instantiate_model_parts_without_load (w1 w2 : World)
  (self : Erlich) (c : node) (dev : Z) (jit : bool) :
  @part_constructor _ w1 = @part_constructor _ w2 ->
  @jit_trace _ w1 = @jit_trace _ w2 ->
  @instantiate_model_parts _ w1 self c dev jit false =
  @instantiate_model_parts _ w2 self c dev jit false.
Proof.
  intros Hpc Hjit. unfold instantiate_model_parts.
  destruct (as_dict c) as [conf|]; [|reflexivity]. cbn [rbind].
  destruct (attr "parts" conf) as [pn|]; [|reflexivity]. cbn [rbind].
  destruct (as_dict pn) as [parts_cfg|]; [|reflexivity]. cbn [rbind].
  generalize (@nil (string * module)). generalize (dkeys parts_cfg).
  intros names. induction names as [|name names IH]; intros parts; [reflexivity|].
  cbn [instantiate_parts].
  assert (Hpart : @instantiate_part _ w1 self c parts_cfg dev jit false parts name =
                  @instantiate_part _ w2 self c parts_cfg dev jit false parts name).
  { unfold instantiate_part. rewrite Hpc, Hjit.
    destruct (attr name parts_cfg) as [part|]; [|reflexivity]. cbn [rbind].
    destruct (as_dict part) as [spec|]; [|reflexivity]. cbn [rbind].
    destruct (negb (dmem "arch" spec || dmem "architecture" spec)); [reflexivity|].
    destruct (part_constructor _ part c) as [p|]; [|reflexivity]. cbn [rbind].
    destruct (dget "weights" spec); reflexivity. }
  rewrite Hpart.
  destruct (@instantiate_part _ w2 self c parts_cfg dev jit false parts name);
    [cbn [rbind]; apply IH|reflexivity].
Qed.

End LoadingExtras.

Lemma load_state_dicts_frame_witness :
  @checkpoint_files _ example_world !! "models/0/latest.pth" = Some example_checkpoint /\
  dkeys example_two_parts_loaded = dkeys example_two_parts /\
  (forall k, In k (dkeys (ck_parts example_checkpoint)) ->
     dmem k example_two_parts = true) /\
  (forall k, ~ In k (dkeys (ck_parts example_checkpoint)) ->
     dget k example_two_parts_loaded = dget k example_two_parts) /\
  (forall k, In k (dkeys (ck_parts example_checkpoint)) ->
     exists p st p', dget k example_two_parts = Some p /\
       dget k (ck_parts example_checkpoint) = Some st /\
       module_load_state_dict st p = Ok p' /\
       dget k example_two_parts_loaded = Some p').
Proof.
  apply (load_state_dicts_frame (H0 := example_world)
           example_two_parts example_two_parts_loaded "models/0/latest.pth"
           example_checkpoint).
  - cbn. apply NoDup_cons. split; [rewrite list_elem_of_In; cbn; tauto|apply NoDup_nil; exact I].
  - vm_compute. reflexivity.
Defined.

Lemma instantiate_model_parts_keys_witness :
  dkeys [("C", ((["weight"; "bias"], None) : @module example_torch))] =
    dkeys [("C", NDict [("arch", Leaf (SStr "mlp"))])] /\
  forall name, In name (dkeys [("C", NDict [("arch", Leaf (SStr "mlp"))])]) ->
    exists spec, dget name [("C", NDict [("arch", Leaf (SStr "mlp"))])] = Some (NDict spec) /\
      (dmem "arch" spec || dmem "architecture" spec) = true.
Proof.
  apply (instantiate_model_parts_keys (H0 := example_world) example_erlich
           example_train_cfg
           [("parts", NDict [("C", NDict [("arch", Leaf (SStr "mlp"))])]);
            ("optimizer", NDict [("name", Leaf (SStr "adam"))]);
            ("batch_size", Leaf (SInt 16)); ("epochs", Leaf (SInt 2));
            ("validation_batch_size", Leaf (SInt 32))]
           [("C", NDict [("arch", Leaf (SStr "mlp"))])] 0 true true).
  - reflexivity.
  - reflexivity.
  - cbn. apply NoDup_cons. split; [rewrite list_elem_of_In; cbn; tauto|apply NoDup_nil; exact I].
  - vm_compute. reflexivity.
Defined.

Lemma instantiate_model_parts_without_load_witness :
  @instantiate_model_parts _ example_world example_erlich example_train_cfg 0 true false =
  @instantiate_model_parts _ example_world_no_files example_erlich example_train_cfg
    0 true false.
Proof.
  apply (instantiate_model_parts_without_load example_world example_world_no_files);
    reflexivity.
Defined.

(** ** Optimizers and the construction of the trainer *)

Section TrainerExtras.
Context `{Torch}.

(** X13: an interval below [-1], or one that reaches the last batch
    ([n - 1 <= v]), gives an empty trigger set, like the sentinel [-1]:
    only the end of an epoch is validated; and the interval [0] makes
    [train] raise [ValueError] before it touches the trainer. *)
Theorem validation_triggers_disabled `{!Apex} (tc : TrainerClass)
  (v n min_wait : Z) (self : BaseTrainer) :
  (0 <= n)%Z -> v <> 0%Z -> (v < 0 \/ n - 1 <= v)%Z ->
  validation_triggers v n = Ok ∅ /\
  train tc 0 min_wait self = (self, Raise ValueError).
Proof.
  intros Hn Hv Hcase. split; [|reflexivity].
  unfold validation_triggers. destruct (Z.eqb_spec v (-1)) as [_|Hne]; [reflexivity|].
  destruct (Z_lt_le_dec 0 v) as [Hpos|Hneg].
  - destruct (py_range_positive_step v n v Hpos) as (r & -> & Hr). cbn [rbind].
    f_equal. apply set_eq. intros i.
    rewrite elem_of_difference, elem_of_list_to_set, list_elem_of_In, Hr.
    rewrite elem_of_singleton. split; [|set_solver].
    intros ((k & Hk & -> & Hlt) & Hne'). exfalso. nia.
  - unfold py_range. destruct (Z.eqb_spec v 0) as [|_]; [contradiction|].
    destruct (Z.ltb_spec 0 v) as [|_]; [lia|]. cbn [rbind].
    assert (Hcount : Z.to_nat ((v - n - v - 1) / - v) = 0%nat).
    { assert ((v - n - v - 1) / - v < 0)%Z; [|lia].
      apply Z.div_lt_upper_bound; lia. }
    rewrite Hcount. cbn [seq map]. f_equal. apply set_eq. intros i.
    rewrite elem_of_difference. split; [intros [Hi _]; exact Hi|].
    intros Hi. now apply elem_of_empty in Hi.
Qed.

Lemma add_meters_ok (metrics : list string) : forall self self' : BaseTrainer,
  for_each metrics (fun m => logger_call (LoggerAddMeter m)) self = (self', Ok tt) ->
  self' = fst (for_each metrics (fun m => record_call (LoggerAddMeter m)) self) /\
  (logger self = None -> metrics = []).
Proof.
  induction metrics as [|m metrics IH]; intros self self' E.
  - apply ret_ok in E as [-> _]. auto.
  - cbn [for_each] in E. apply bind_ok in E as (s1 & [] & E1 & E).
    unfold logger_call, bind, gets in E1.
    destruct (logger self) as [lg|] eqn:Hlg; [|discriminate].
    destruct (IH _ _ E) as [-> _]. split; [|discriminate].
    cbn [for_each]. unfold bind. rewrite E1. reflexivity.
Qed.

Lemma record_calls_state (cs : list call) : forall self : BaseTrainer,
  let self' := fst (for_each cs record_call self) in
  calls self' = calls self ++ cs /\
  optimizers self' = optimizers self /\ model_parts self' = model_parts self /\
  saver self' = saver self /\ logger self' = logger self /\
  dataloader self' = dataloader self /\
  validation_dataloader self' = validation_dataloader self /\
  batch_size self' = batch_size self /\
  validation_batch_size self' = validation_batch_size self.
Proof.
  induction cs as [|c cs IH]; intros self; cbn [for_each].
  - cbn. rewrite app_nil_r. repeat split.
  - unfold bind. cbn [record_call]. cbn zeta in IH.
    match goal with |- context [for_each cs record_call ?s] =>
      destruct (IH s) as (Hc & Ho & Hm & Hs & Hl & Hd & Hv & Hb & Hvb) end.
    rewrite Hc, Ho, Hm, Hs, Hl, Hd, Hv, Hb, Hvb. cbn. rewrite <- app_assoc.
    repeat split.
Qed.

(** The trainer that [__init__] returns is the one it builds from its
    arguments, after the calls that announce the train metrics. *)
Lemma BaseTrainer_init_shape (tc : TrainerClass) (c : node) (parts : dict module)
  (sv : option ModelSaver) (lg : option TrainLogger) (dev : Z) (self : BaseTrainer) :
  BaseTrainer_init tc c parts sv lg dev = Ok self ->
  let metrics := match get_train_metrics tc with inl m => [m] | inr ms => ms end in
  exists bs vbs ep,
    self = fst (for_each (map LoggerAddMeter metrics) record_call
                  (mkBaseTrainer c bs vbs ep dev [] parts sv lg
                     (get_dataloader tc bs) (get_validation_dataloader tc vbs)
                     metrics [])) /\
    (lg = None -> metrics = []).
Proof.
  intros E metrics. unfold BaseTrainer_init in E.
  apply rbind_ok in E as (conf & _ & E). apply rbind_ok in E as (bs & _ & E).
  apply rbind_ok in E as (vbs & _ & E). apply rbind_ok in E as (ep & _ & E).
  fold metrics in E.
  match type of E with
  | match for_each _ _ ?s with _ => _ end = _ => set (self0 := s) in *
  end.
  destruct (for_each metrics (fun m => logger_call (LoggerAddMeter m)) self0)
    as [s1 [[]|e]] eqn:Eadd; [|discriminate].
  injection E as <-. apply add_meters_ok in Eadd as [-> Hnone].
  assert (Hfe : forall s : BaseTrainer,
            for_each metrics (fun m => record_call (LoggerAddMeter m)) s =
            for_each (map LoggerAddMeter metrics) record_call s).
  { clear. induction metrics as [|m ms IH]; intros s; [reflexivity|].
    cbn [for_each map]. unfold bind. destruct (record_call (LoggerAddMeter m) s) as [s' [[]|e]];
      [apply IH|reflexivity]. }
  rewrite Hfe. exists bs, vbs, ep. split; [reflexivity|exact Hnone].
Qed.

Lemma BaseTrainer_init_optimizers (tc : TrainerClass) (c : node) (parts : dict module)
  (sv : option ModelSaver) (lg : option TrainLogger) (dev : Z) (self : BaseTrainer) :
  BaseTrainer_init tc c parts sv lg dev = Ok self -> optimizers self = [].
Proof.
  intros E. apply BaseTrainer_init_shape in E as (bs & vbs & ep & -> & _).
  match goal with |- context [for_each ?cs record_call ?s] =>
    destruct (record_calls_state cs s) as (_ & Ho & _) end.
  rewrite Ho. reflexivity.
Qed.

(** X14: a trainer that [BaseTrainer.__init__] returns has no optimizer
    yet, holds the parts, the saver and the logger it was given and the
    dataloaders of the concrete trainer, and has announced each train
    metric to the logger once, in order (a single metric counts as a
    list of one); without a logger it can only be built when there is no
    train metric. *)
Theorem BaseTrainer_init_state (tc : TrainerClass) (c : node) (parts : dict module)
  (sv : option ModelSaver) (lg : option TrainLogger) (dev : Z) (self : BaseTrainer) :
  BaseTrainer_init tc c parts sv lg dev = Ok self ->
  let metrics := match get_train_metrics tc with inl m => [m] | inr ms => ms end in
  optimizers self = [] /\ model_parts self = parts /\
  saver self = sv /\ logger self = lg /\
  dataloader self = get_dataloader tc (batch_size self) /\
  validation_dataloader self =
    get_validation_dataloader tc (validation_batch_size self) /\
  calls self = map LoggerAddMeter metrics /\
  (lg = None -> metrics = []).
Proof.
  intros E metrics.
  apply BaseTrainer_init_shape in E as (bs & vbs & ep & -> & Hnone).
  fold metrics in Hnone |- *.
  match goal with |- context [for_each ?cs record_call ?s] =>
    destruct (record_calls_state cs s)
      as (Hc & Ho & Hm & Hs & Hl & Hd & Hv & Hb & Hvb) end.
  rewrite Hc, Ho, Hm, Hs, Hl, Hd, Hv, Hb, Hvb.
  cbn. repeat split. exact Hnone.
Qed.

End TrainerExtras.

Lemma validation_triggers_disabled_witness :
  validation_triggers (-5) 3 = Ok ∅ /\
  train (H0 := example_apex) example_trainer_class 0 5 example_trainer_fresh =
    (example_trainer_fresh, Raise ValueError).
Proof.
  apply (validation_triggers_disabled (H0 := example_apex) example_trainer_class
           (-5) 3 5 example_trainer_fresh); [lia|lia|lia].
Defined.

Lemma BaseTrainer_init_state_witness :
  let metrics := match get_train_metrics example_trainer_class with
                 | inl m => [m]
                 | inr ms => ms
                 end in
  optimizers example_trainer_fresh = [] /\
  model_parts example_trainer_fresh = [("C", (["weight"; "bias"], None))] /\
  saver example_trainer_fresh = Some (mkModelSaver "models/1") /\
  logger example_trainer_fresh =
    Some (mkTrainLogger "models/1.log" (Leaf (SInt 2)) None) /\
  dataloader example_trainer_fresh =
    get_dataloader example_trainer_class (batch_size example_trainer_fresh) /\
  validation_dataloader example_trainer_fresh =
    get_validation_dataloader example_trainer_class
      (validation_batch_size example_trainer_fresh) /\
  calls example_trainer_fresh = map LoggerAddMeter metrics /\
  (Some (mkTrainLogger "models/1.log" (Leaf (SInt 2)) None) = None -> metrics = []).
Proof.
  apply (BaseTrainer_init_state example_trainer_class example_train_cfg
           [("C", (["weight"; "bias"], None))]
           (Some (mkModelSaver "models/1"))
           (Some (mkTrainLogger "models/1.log" (Leaf (SInt 2)) None)) 0
           example_trainer_fresh).
  vm_compute. reflexivity.
Defined.

(** ** Resuming: what the setup leaves in the optimizers *)

Section SetupExtras.
Context `{Torch} `{!World}.

Lemma get_optimizer_fresh (name : option node) (optim_cfg : dict node)
  (params : list tensor) (c : node) (o : Optimizer) :
  get_optimizer name optim_cfg params c = Ok o -> opt_state o = None.
Proof.
  unfold get_optimizer, default_get_optimizer.
  destruct (name_is name "adam"); [intros E; now injection E as <-|].
  destruct (name_is name "sgd"); [intros E; now injection E as <-|discriminate].
Qed.

Lemma all_fresh_dset (k : string) (o : Optimizer) (opts : dict Optimizer) :
  opt_state o = None -> all_fresh opts -> all_fresh (dset k o opts).
Proof.
  intros Ho Hall k' o'. rewrite dget_dset.
  destruct (String.eqb k' k); [intros E; now injection E as <-|apply Hall].
Qed.

Lemma assign_part_fresh (c : node) (parts : dict node) (pool pool' : list string)
  (name : string) (t t' : BaseTrainer) :
  assign_part c parts pool name t = (t', Ok pool') ->
  all_fresh (optimizers t) -> all_fresh (optimizers t').
Proof.
  unfold assign_part. intros E Hall.
  apply bind_ok in E as (t1 & part & E1 & E). apply lift_ok in E1 as [-> _].
  apply bind_ok in E as (t1 & spec & E2 & E). apply lift_ok in E2 as [-> _].
  destruct (requires_optimizer spec); [|apply ret_ok in E as [-> _]; exact Hall].
  destruct (dget "optimizer" spec) as [ov|]; [|apply ret_ok in E as [-> _]; exact Hall].
  apply bind_ok in E as (t1 & os & E3 & E). apply lift_ok in E3 as [-> _].
  apply bind_ok in E as (t1 & ps & E4 & E).
  apply part_parameters_ok in E4 as [-> _].
  apply bind_ok in E as (t1 & o & E5 & E). apply lift_ok in E5 as [-> E5].
  apply get_optimizer_fresh in E5.
  apply bind_ok in E as (t1 & [] & E6 & E). unfold modify in E6.
  injection E6 as <-. apply ret_ok in E as [-> _].
  cbn [optimizers set_optimizers]. now apply all_fresh_dset.
Qed.

Lemma instantiate_optimizers_fresh (c : node) (t t' : BaseTrainer) :
  instantiate_optimizers c t = (t', Ok tt) ->
  all_fresh (optimizers t) -> all_fresh (optimizers t').
Proof.
  unfold instantiate_optimizers. intros E Hall.
  apply bind_ok in E as (t0 & conf & E0 & E). apply lift_ok in E0 as [-> _].
  apply bind_ok in E as (t0 & pn & E0 & E). apply lift_ok in E0 as [-> _].
  apply bind_ok in E as (t0 & parts & E0 & E). apply lift_ok in E0 as [-> _].
  apply bind_ok in E as (t1 & pool & Eloop & E).
  assert (Hall1 : all_fresh (optimizers t1)).
  { clear E. revert t t1 pool Hall Eloop. generalize (@nil string).
    induction (dkeys parts) as [|name names IH]; intros pool0 t t1 pool Hall E.
    - apply ret_ok in E as [-> _]. exact Hall.
    - cbn [for_fold] in E. apply bind_ok in E as (t2 & pool2 & E2 & E).
      apply (IH pool2 t2 t1 pool); [|exact E].
      now apply (assign_part_fresh _ _ _ _ _ _ _ E2). }
  destruct pool as [|x pool]; [apply ret_ok in E as [-> _]; exact Hall1|].
  apply bind_ok in E as (t2 & gp & Egp & E).
  apply pooled_parameters_ok in Egp as [-> _].
  apply bind_ok in E as (t2 & ov & E2 & E). apply lift_ok in E2 as [-> _].
  apply bind_ok in E as (t2 & spec & E3 & E). apply lift_ok in E3 as [-> _].
  apply bind_ok in E as (t2 & o & E4 & E). apply lift_ok in E4 as [-> E4].
  apply get_optimizer_fresh in E4.
  unfold modify in E. injection E as <-. cbn [optimizers set_optimizers].
  now apply all_fresh_dset.
Qed.

(** Without optimizers in the trainer, restoring optimizer states
    returns only when there is no state to restore. *)
Lemma load_optimizers_returns (keys : list string) (states : dict state_dict)
  (t t' : BaseTrainer) :
  optimizers t = [] ->
  load_optimizers keys states t = (t', Ok tt) -> keys = [] /\ t' = t.
Proof.
  intros Hopt E. destruct keys as [|k keys].
  - apply ret_ok in E as [-> _]. auto.
  - cbn [load_optimizers] in E. unfold bind, gets, lift, dindex in E.
    rewrite Hopt in E. discriminate E.
Qed.

Lemma load_checkpoint_returns (self : Erlich) (conf : dict node) (t t' : BaseTrainer) :
  optimizers t = [] ->
  load_checkpoint self conf t = (t', Ok tt) ->
  optimizers t' = [] /\
  forall name, dget "load_checkpoint" conf = Some name ->
    (negb (dmem "load_optimizers" conf) ||
     truthy (conf_get "load_optimizers" (Leaf (SBool true)) conf)) = true ->
    exists ref ck, get_checkpoint self (py_str name) = Ok ref /\
      checkpoint_files !! snd ref = Some ck /\ ck_optimizers ck = [].
Proof.
  intros Hopt E. unfold load_checkpoint in E.
  destruct (dget "load_checkpoint" conf) as [name|].
  - apply bind_ok in E as (t1 & ref & E1 & E). apply lift_ok in E1 as [-> E1].
    apply bind_ok in E as (t1 & parts & E2 & E). injection E2 as <- <-.
    apply bind_ok in E as (t1 & loaded & E3 & E). apply lift_ok in E3 as [-> E3].
    apply bind_ok in E as (t1 & [] & E4 & E). unfold modify in E4. injection E4 as <-.
    unfold load_state_dicts, torch_load in E3.
    destruct (checkpoint_files !! snd ref) as [ck|] eqn:Hfile; [|discriminate].
    cbn [rbind] in E3. apply rbind_ok in E3 as (parts' & _ & E3).
    injection E3 as <-. cbn [fst snd] in E.
    destruct (negb (dmem "load_optimizers" conf) ||
              truthy (conf_get "load_optimizers" (Leaf (SBool true)) conf)) eqn:Hlo.
    + apply load_optimizers_returns in E as [Hkeys ->]; [|exact Hopt].
      split; [exact Hopt|]. intros name' Hname _. injection Hname as <-.
      exists ref, ck. repeat split; try assumption.
      destruct (ck_optimizers ck); [reflexivity|discriminate Hkeys].
    + apply ret_ok in E as [-> _]. split; [exact Hopt|]. intros; discriminate.
  - apply ret_ok in E as [-> _]. split; [exact Hopt|]. intros; discriminate.
Qed.

(** The setup with [BaseTrainer.__init__] as the constructor is the
    general one at that constructor. *)
Lemma train_setup_as_with (self : Erlich) (tc : TrainerClass)
  (create_dataloaders : M BaseTrainer unit) (rank : nat) (devices : list Z)
  (c : node) (mdl_path : string) :
  train_setup self tc create_dataloaders rank devices c mdl_path =
  train_setup_with self
    (fun c parts sv lg dev _ _ => BaseTrainer_init tc c parts sv lg dev)
    create_dataloaders rank (length devices) devices c mdl_path.
Proof. reflexivity. Qed.

(** X15: whatever trainer class [_train] is given, if its constructor
    leaves the trainer without optimizers (as [BaseTrainer.__init__]
    does) and [create_dataloaders] does not touch them, then in a
    trainer that the setup returns no optimizer holds a state restored
    from a checkpoint (each is as [instantiate_optimizers] built it);
    and when the configuration asks to resume with the optimizers
    ([load_checkpoint], [load_optimizers] absent or true), the setup
    returns only for a checkpoint whose optimizers mapping is empty. *)
Theorem train_setup_fresh_optimizers (self : Erlich)
  (trainer_class : node -> dict module -> option ModelSaver -> option TrainLogger ->
                   Z -> nat -> nat -> result BaseTrainer)
  (create_dataloaders : M BaseTrainer unit) (rank world_size : nat) (devices : list Z)
  (c : node) (conf : dict node) (mdl_path : string) (trainer : BaseTrainer) :
  (forall c parts sv lg dev r ws t,
     trainer_class c parts sv lg dev r ws = Ok t -> optimizers t = []) ->
  (forall t t', create_dataloaders t = (t', Ok tt) -> optimizers t' = optimizers t) ->
  c = NDict conf ->
  train_setup_with self trainer_class create_dataloaders rank world_size devices c
    mdl_path = Ok trainer ->
  all_fresh (optimizers trainer) /\
  forall name, dget "load_checkpoint" conf = Some name ->
    (negb (dmem "load_optimizers" conf) ||
     truthy (conf_get "load_optimizers" (Leaf (SBool true)) conf)) = true ->
    exists ref ck, get_checkpoint self (py_str name) = Ok ref /\
      checkpoint_files !! snd ref = Some ck /\ ck_optimizers ck = [].
Proof.
  intros Hctor Hcreate -> E. unfold train_setup_with in E.
  apply rbind_ok in E as (dev & _ & E). cbn [as_dict rbind] in E.
  apply rbind_ok in E as (ls & _ & E). apply rbind_ok in E as (parts & _ & E).
  apply rbind_ok in E as (t0 & Einit & E).
  apply Hctor in Einit as Hopt.
  destruct ((load_checkpoint self conf;;;
             create_dataloaders;;; instantiate_optimizers (NDict conf)) t0)
    as [t3 [[]|e]] eqn:Erun; [|discriminate].
  injection E as <-.
  apply bind_ok in Erun as (t1 & [] & E1 & Erun).
  apply bind_ok in Erun as (t2 & [] & E2 & Erun).
  apply load_checkpoint_returns in E1 as [Hopt1 Hck]; [|exact Hopt].
  apply Hcreate in E2. split; [|exact Hck].
  apply (instantiate_optimizers_fresh _ _ _ Erun).
  rewrite E2, Hopt1. intros k o Hk. discriminate Hk.
Qed.

End SetupExtras.

Lemma train_setup_fresh_optimizers_witness :
  exists trainer,
    train_setup_with (H0 := example_world_parts_only) example_erlich
      example_constructor (ret tt) 0 1 [0%Z] (NDict example_resume_entries)
      "models/1" = Ok trainer /\
    all_fresh (optimizers trainer) /\
    forall name, dget "load_checkpoint" example_resume_entries = Some name ->
      (negb (dmem "load_optimizers" example_resume_entries) ||
       truthy (conf_get "load_optimizers" (Leaf (SBool true)) example_resume_entries))
        = true ->
      exists ref ck,
        get_checkpoint example_erlich
          (py_str (H0 := example_world_parts_only) name) = Ok ref /\
        @checkpoint_files _ example_world_parts_only !! snd ref = Some ck /\
        ck_optimizers ck = [].
Proof.
  eexists. split; [vm_compute; reflexivity|].
  apply (train_setup_fresh_optimizers (H0 := example_world_parts_only) example_erlich
           example_constructor (ret tt) 0 1 [0%Z] (NDict example_resume_entries)
           example_resume_entries "models/1").
  - intros c parts sv lg dev r ws t E. unfold example_constructor in E.
    exact (BaseTrainer_init_optimizers _ _ _ _ _ _ _ E).
  - intros t t' E. now injection E as <-.
  - reflexivity.
  - vm_compute. reflexivity.
Defined.

(** ** The metrics of a validation, key by key *)

Section ValidationMetricsFacts.
Context `{Torch}.
Local Open Scope Q_scope.

Lemma est_of_nonneg (k : string) (est : dict AvgEstimator) :
  est_positive est -> 0 <= tot_weight (est_of k est).
Proof.
  intros Hpos. unfold est_of. destruct (dget k est) as [e|] eqn:E.
  - apply Qlt_le_weak. exact (Hpos k e E).
  - cbn. apply Qle_refl.
Qed.

Lemma est_positive_dset (k : string) (e : AvgEstimator) (est : dict AvgEstimator) :
  est_positive est -> 0 < tot_weight e -> est_positive (dset k e est).
Proof.
  intros Hpos He k' e' E. rewrite dget_dset in E.
  destruct (String.eqb k' k); [injection E as <-; exact He|exact (Hpos k' e' E)].
Qed.

(** The updates of one batch: the estimator of every key of the batch
    gets one update with the weight of the batch, the other estimators
    are kept. *)
Lemma update_estimators_keys (m : dict Q) (w : Q) (keys : list string) :
  0 < w -> List.NoDup keys -> (forall k, In k keys -> dget k m <> None) ->
  forall est, est_positive est ->
  exists est', update_estimators keys m w est = Ok est' /\ est_positive est' /\
    (forall k, ~ In k keys -> dget k est' = dget k est) /\
    (forall k x, In k keys -> dget k m = Some x ->
       exists e', dget k est' = Some e' /\
         update x w (est_of k est) = (e', Ok tt)).
Proof.
  intros Hw. induction keys as [|k0 keys IH]; intros Hnd Hin est Hpos.
  - exists est. cbn. repeat split; [exact Hpos|]. intros k x [].
  - inversion Hnd as [|? ? Hnotin Hnd']; subst.
    cbn [update_estimators]. unfold dindex.
    destruct (dget k0 m) as [x0|] eqn:Ex0; [|exfalso; apply (Hin k0); [now left|exact Ex0]].
    cbn [rbind]. fold (est_of k0 est).
    pose proof (est_of_nonneg k0 est Hpos) as Hnn.
    destruct (update_sums x0 w (est_of k0 est)) as (e1 & E1 & Ht1 & _); [lra|].
    rewrite E1.
    destruct (IH Hnd' (fun k Hk => Hin k (or_intror Hk)) (dset k0 e1 est))
      as (est' & E' & Hpos' & Hout & Hins).
    { apply est_positive_dset; [exact Hpos|lra]. }
    exists est'. split; [exact E'|]. split; [exact Hpos'|]. split.
    + intros k Hk. rewrite (Hout k); [|intros Hk'; apply Hk; now right].
      apply dget_dset_ne. intros ->. apply Hk. now left.
    + intros k x [<-|Hk] Hx.
      * exists e1. rewrite (Hout k0 Hnotin), dget_dset_eq.
        rewrite Ex0 in Hx. injection Hx as <-. auto.
      * destruct (Hins k x Hk Hx) as (e' & He' & Hu).
        assert (Hne : k <> k0) by (intros ->; contradiction).
        exists e'. split; [exact He'|].
        unfold est_of in Hu. rewrite (dget_dset_ne _ _ _ _ Hne) in Hu. exact Hu.
Qed.

(** One batch of the validation pass. *)
Lemma validation_batch_keys (tc : TrainerClass) (self : BaseTrainer)
  (ib : Z * batch) (m : dict Q) (est : dict AvgEstimator) :
  validation_step tc (move_to_device (snd ib) (device self)) (fst ib) = Ok m ->
  positive_report m -> est_positive est ->
  exists est', validation_batch tc est ib self = (self, Ok est') /\
    est_positive est' /\
    forall k,
      (dget k est' = None <-> dget k est = None /\ dget k m = None) /\
      updates (reports k [m]) (est_of k est) = (est_of k est', Ok tt).
Proof.
  intros Estep [Hnd Hw] Hpos.
  destruct (update_estimators_keys m (batch_weight m) (dkeys m) Hw) with (est := est)
    as (est' & E' & Hpos' & Hout & Hins).
  { apply NoDup_ListNoDup. exact Hnd. }
  { intros k Hk. now apply dget_In_keys. }
  { exact Hpos. }
  exists est'. split; [|split; [exact Hpos'|]].
  - unfold validation_batch, bind, gets, lift. rewrite Estep. cbn [snd fst].
    unfold batch_weight in E'. rewrite E'. reflexivity.
  - intros k. cbn [reports]. destruct (dget k m) as [x|] eqn:Ex.
    + destruct (Hins k x) as (e' & He' & Hu).
      { apply dget_In_keys. congruence. }
      { exact Ex. }
      split; [rewrite He'; split; [discriminate|intros [_ ?]; discriminate]|].
      unfold updates. cbn [for_each fst snd]. unfold bind. rewrite Hu.
      unfold est_of at 1. rewrite He'. reflexivity.
    + assert (Hk : ~ In k (dkeys m)).
      { intros Hk. apply dget_In_keys in Hk. contradiction. }
      unfold est_of. rewrite (Hout k Hk). split; [tauto|reflexivity].
Qed.

Lemma updates_reports_cons (k : string) (m : dict Q) (ms : list (dict Q))
  (e e1 e2 : AvgEstimator) :
  updates (reports k [m]) e = (e1, Ok tt) ->
  updates (reports k ms) e1 = (e2, Ok tt) ->
  updates (reports k (m :: ms)) e = (e2, Ok tt).
Proof.
  cbn [reports]. destruct (dget k m) as [x|].
  - unfold updates. cbn [for_each fst snd]. unfold bind.
    destruct (update x (batch_weight m) e) as [e' [[]|ex]]; [|discriminate].
    intros E1 E2. injection E1 as ->. exact E2.
  - intros E1 E2. injection E1 as ->. exact E2.
Qed.

(** The whole loop over the validation batches. *)
Lemma validation_fold_keys (tc : TrainerClass) (self : BaseTrainer)
  (ibs : list (Z * batch)) (ms : list (dict Q)) :
  Forall2 (fun ib m =>
             validation_step tc (move_to_device (snd ib) (device self)) (fst ib) = Ok m)
          ibs ms ->
  Forall positive_report ms ->
  forall est, est_positive est ->
  exists est', for_fold ibs est (validation_batch tc) self = (self, Ok est') /\
    est_positive est' /\
    forall k,
      (dget k est' = None <-> dget k est = None /\ reports k ms = []) /\
      updates (reports k ms) (est_of k est) = (est_of k est', Ok tt).
Proof.
  induction 1 as [|ib m ibs ms Estep _ IH]; intros Hms est Hpos.
  - exists est. split; [reflexivity|]. split; [exact Hpos|]. intros k.
    split; [cbn [reports]; tauto|reflexivity].
  - inversion Hms as [|? ? Hm Hms']; subst.
    destruct (validation_batch_keys tc self ib m est Estep Hm Hpos)
      as (est1 & E1 & Hpos1 & H1).
    destruct (IH Hms' est1 Hpos1) as (est' & E' & Hpos' & H').
    exists est'. split; [|split; [exact Hpos'|]].
    + cbn [for_fold]. unfold bind. rewrite E1. exact E'.
    + intros k. destruct (H1 k) as (Hn1 & Hu1). destruct (H' k) as (Hn' & Hu').
      split.
      * rewrite Hn', Hn1. cbn [reports]. destruct (dget k m); [|tauto].
        split; [intros [[_ ?] _]; discriminate|intros [_ ?]; discriminate].
      * exact (updates_reports_cons k m ms _ _ _ Hu1 Hu').
Qed.

Lemma dget_map_get (k : string) (est : dict AvgEstimator) :
  dget k (map (fun ke => (fst ke, get (snd ke))) est) =
    match dget k est with Some e => Some (get e) | None => None end.
Proof.
  induction est as [|[k0 e0] est IH]; [reflexivity|].
  cbn [map dget fst snd]. destruct (String.eqb k k0); [reflexivity|exact IH].
Qed.

(** X16: when every validation batch reports a dictionary of metrics
    with a positive weight (the entry [weight], or 1 without it), no
    division by zero occurs: the validation pass returns and leaves the
    trainer as it was; its metrics hold exactly the keys that some batch
    reports, and the value of a key is what one estimator returns after
    the updates, in the order of the batches, with the values reported
    under that key and the weights of their batches: a batch without
    the key does not touch its estimator, and the estimators of
    different keys do not interfere. *)
Theorem validation_metrics_per_key (tc : TrainerClass) (self : BaseTrainer)
  (batches : list batch) (ms : list (dict Q)) :
  validation_dataloader self = Some batches ->
  Forall2 (fun ib m =>
             validation_step tc (move_to_device (snd ib) (device self)) (fst ib) = Ok m)
          (enumerate batches) ms ->
  Forall positive_report ms ->
  exists metrics, validation_pass tc self = (self, Ok metrics) /\
    forall k, match dget k metrics with
              | Some v =>
                  reports k ms <> [] /\
                  exists e, updates (reports k ms) AvgEstimator_init = (e, Ok tt) /\
                    v = get e
              | None => reports k ms = []
              end.
Proof.
  intros Hvdl Hsteps Hms.
  destruct (validation_fold_keys tc self _ ms Hsteps Hms [])
    as (est' & E' & Hpos' & H'); [intros k e; discriminate|].
  eexists. split.
  - unfold validation_pass, bind, gets. rewrite Hvdl. cbv beta iota.
    match goal with |- (let (s', r) := ?c in _) = _ =>
      replace c with (self, Ok est') by (symmetry; exact E') end.
    reflexivity.
  - intros k. rewrite dget_map_get. destruct (H' k) as (Hn & Hu).
    unfold est_of in Hu. cbn [dget] in Hn, Hu.
    destruct (dget k est') as [e'|] eqn:Ee'.
    + split.
      * intros Hnil. assert (Hnone : @None AvgEstimator = None /\ reports k ms = [])
          by (split; [reflexivity|exact Hnil]).
        apply Hn in Hnone. discriminate.
      * exists e'. split; [exact Hu|reflexivity].
    + apply Hn. reflexivity.
Qed.

End ValidationMetricsFacts.

Lemma validation_metrics_per_key_witness :
  exists metrics,
    validation_pass example_trainer_class example_trainer_fresh =
      (example_trainer_fresh, Ok metrics) /\
    forall k, match dget k metrics with
              | Some v =>
                  reports k [[("acc", (1 # 2)%Q); ("weight", 2%Q)];
                             [("acc", (1 # 2)%Q); ("weight", 2%Q)]] <> [] /\
                  exists e,
                    updates (reports k [[("acc", (1 # 2)%Q); ("weight", 2%Q)];
                                        [("acc", (1 # 2)%Q); ("weight", 2%Q)]])
                      AvgEstimator_init = (e, Ok tt) /\
                    v = get e
              | None =>
                  reports k [[("acc", (1 # 2)%Q); ("weight", 2%Q)];
                             [("acc", (1 # 2)%Q); ("weight", 2%Q)]] = []
              end.
Proof.
  apply (validation_metrics_per_key example_trainer_class
           example_trainer_fresh [1; 2]%Z).
  - reflexivity.
  - repeat constructor.
  - assert (Hm : positive_report [("acc", (1 # 2)%Q); ("weight", 2%Q)]).
    { split; [apply (bool_decide_unpack _); vm_compute; reflexivity|reflexivity]. }
    constructor; [exact Hm|constructor; [exact Hm|constructor]].
Defined.

(** ** The number of checkpoints of a run *)

Section CheckpointCountFacts.
Context `{Torch}.

Lemma count_saves_record (c : call) (self : BaseTrainer) :
  count_saves (fst (record_call c self)) =
    (count_saves self + if is_save c then 1 else 0)%nat.
Proof.
  unfold count_saves, saves. cbn [record_call fst calls].
  rewrite List.filter_app, List.length_app. cbn [List.filter].
  now destruct (is_save c).
Qed.

Lemma writes_ret {A} (n : Z) (a : A) : writes n 0 (ret a).
Proof. intros self self' b _ E. injection E as <- _. auto. Qed.

Lemma writes_reads_only {A} (n : Z) (c : M BaseTrainer A) :
  reads_only c -> writes n 0 c.
Proof. intros Hc self self' a _ E. apply Hc in E. subst. auto. Qed.

Lemma writes_record (n : Z) (c : call) :
  writes n (if is_save c then 1 else 0) (record_call c).
Proof.
  intros self self' a _ E.
  assert (Hs : self' = fst (record_call c self)) by now rewrite E.
  subst self'. rewrite count_saves_record. auto.
Qed.

Lemma writes_bind {A B} (n : Z) (j k : nat)
  (c : M BaseTrainer A) (f : A -> M BaseTrainer B) :
  writes n j c -> (forall a, writes n k (f a)) -> writes n (j + k) (bind c f).
Proof.
  intros Hc Hf self self' b Hn E. apply bind_ok in E as (s1 & a & E1 & E2).
  destruct (Hc _ _ _ Hn E1) as (Hd1 & He1 & Hs1).
  assert (Hn1 : Z.of_nat (length (dataloader s1)) = n) by now rewrite Hd1.
  destruct (Hf a _ _ _ Hn1 E2) as (Hd2 & He2 & Hs2).
  repeat split; [congruence|congruence|lia].
Qed.

Lemma writes_gets {A B} (n : Z) (k : nat) (g : BaseTrainer -> A)
  (f : A -> M BaseTrainer B) :
  (forall self, Z.of_nat (length (dataloader self)) = n -> writes n k (f (g self))) ->
  writes n k (bind (gets g) f).
Proof.
  intros Hf self self' b Hn E. unfold bind, gets in E.
  exact (Hf self Hn _ _ _ Hn E).
Qed.

(** A loop writes the sum of what its rounds write. *)
Lemma writes_for_each {A} (n : Z) (k : A -> nat) (xs : list A)
  (body : A -> M BaseTrainer unit) :
  (forall x, writes n (k x) (body x)) ->
  writes n (list_sum (map k xs)) (for_each xs body).
Proof.
  intros Hbody. induction xs as [|x xs IH]; cbn [for_each map list_sum fold_right].
  - apply writes_ret.
  - apply writes_bind; [apply Hbody|]. intros _. exact IH.
Qed.

Lemma list_sum_const {A} (k : nat) (xs : list A) :
  list_sum (map (fun _ => k) xs) = (length xs * k)%nat.
Proof.
  induction xs as [|x xs IH]; [reflexivity|].
  cbn [map length]. change (list_sum (k :: map (fun _ => k) xs))
    with (k + list_sum (map (fun _ : A => k) xs))%nat.
  rewrite IH. cbn [Nat.mul]. reflexivity.
Qed.

Lemma writes_logger_call (n : Z) (c : call) :
  is_save c = false -> writes n 0 (logger_call c).
Proof.
  intros Hc. unfold logger_call. apply writes_gets. intros self _.
  destruct (logger self).
  - pose proof (writes_record n c) as Hr. now rewrite Hc in Hr.
  - intros s s' a _ E. discriminate E.
Qed.

(** A validation that returns has written one checkpoint. *)
Lemma writes_validate (tc : TrainerClass) (n epoch tb : Z) (use_apex : bool) :
  writes n 1 (validate tc epoch tb use_apex).
Proof.
  unfold validate. change 1%nat with (0 + 1)%nat.
  apply writes_bind; [apply writes_reads_only, validation_pass_reads_only|].
  intros metrics. apply writes_gets. intros self _.
  destruct (saver self).
  - apply writes_gets. intros s1 _. apply writes_gets. intros s2 _.
    apply (writes_record n
             (SaverSave (model_parts s1) (optimizers s2) use_apex epoch tb metrics)).
  - intros s s' a _ E. discriminate E.
Qed.

Lemma writes_train_batch (tc : TrainerClass) (using_apex : bool)
  (triggers : gset Z) (n epoch : Z) (ib : Z * batch) :
  writes n (if decide (fst ib ∈ triggers) then 1 else 0)
    (train_batch tc using_apex triggers epoch ib).
Proof.
  unfold train_batch.
  set (k := (if decide (fst ib ∈ triggers) then 1 else 0)%nat).
  apply writes_gets. intros s0 _.
  apply (writes_bind n 0 k).
  { rewrite <- (Nat.mul_0_r (length (dvalues (optimizers s0)))), <- list_sum_const.
    apply writes_for_each. intros o. apply (writes_record n (ZeroGrad o)). }
  intros _. apply writes_gets. intros s1 _. apply writes_gets. intros s2 _.
  apply (writes_bind n 0 k); [apply writes_reads_only, reads_only_lift|]. intros l.
  apply (writes_bind n 0 k); [apply (writes_record n (Backward l using_apex))|].
  intros _. apply writes_gets. intros s3 _.
  apply (writes_bind n 0 k).
  { rewrite <- (Nat.mul_0_r (length (dvalues (optimizers s3)))), <- list_sum_const.
    apply writes_for_each. intros o. apply (writes_record n (Step o)). }
  intros _. apply (writes_bind n 0 k); [now apply writes_logger_call|].
  intros _. subst k. destruct (decide (fst ib ∈ triggers)).
  - apply writes_validate.
  - apply writes_ret.
Qed.

Lemma enumerate_from_indices {A} (xs : list A) : forall s : Z,
  map fst (enumerate_from s xs) = seqZ s (Z.of_nat (length xs)).
Proof.
  induction xs as [|x xs IH]; intros s; [reflexivity|].
  cbn [enumerate_from map fst length]. rewrite IH, (seqZ_cons s) by lia.
  f_equal. f_equal; lia.
Qed.

Lemma triggered_filter {A} (triggers : gset Z) (ibs : list (Z * A)) :
  triggered triggers ibs = length (filter (fun i => i ∈ triggers) (map fst ibs)).
Proof.
  unfold triggered. induction ibs as [|ib ibs IH]; [reflexivity|].
  assert (Hcons : forall x l, list_sum (x :: l) = (x + list_sum l)%nat) by reflexivity.
  cbn [map]. rewrite Hcons, IH, filter_cons.
  destruct (decide (fst ib ∈ triggers)); reflexivity.
Qed.

(** Every trigger is the index of one batch of the epoch. *)
Lemma triggered_size {A} (triggers : gset Z) (xs : list A) :
  (forall i, i ∈ triggers -> (0 <= i < Z.of_nat (length xs))%Z) ->
  triggered triggers (enumerate xs) = size triggers.
Proof.
  intros Hin. rewrite triggered_filter. unfold enumerate.
  rewrite enumerate_from_indices. symmetry.
  change (size triggers) with (length (elements triggers)).
  apply Permutation_length, NoDup_Permutation.
  - apply NoDup_elements.
  - apply NoDup_filter, NoDup_seqZ.
  - intros i. rewrite elem_of_elements, list_elem_of_filter, elem_of_seqZ.
    split; [intros Hi; split; [exact Hi|apply Hin in Hi; lia]|tauto].
Qed.

(** The triggers are indices of batches. *)
Lemma validation_triggers_bound (v n : Z) (triggers : gset Z) :
  (0 <= n)%Z -> validation_triggers v n = Ok triggers ->
  forall i, i ∈ triggers -> (0 <= i < n)%Z.
Proof.
  intros Hn E i Hi. unfold validation_triggers in E.
  destruct (Z.eqb_spec v (-1)) as [_|Hne].
  { injection E as <-. now apply elem_of_empty in Hi. }
  destruct (Z_lt_le_dec 0 v) as [Hpos|Hneg].
  - destruct (py_range_positive_step v n v Hpos) as (r & Er & Hr).
    rewrite Er in E. cbn [rbind] in E. injection E as <-.
    apply elem_of_difference in Hi as [Hi _].
    apply elem_of_list_to_set, list_elem_of_In, Hr in Hi as (k & Hk & -> & Hlt). nia.
  - unfold py_range in E. destruct (Z.eqb_spec v 0) as [|Hv0]; [discriminate|].
    destruct (Z.ltb_spec 0 v) as [|_]; [lia|]. cbn [rbind] in E.
    assert (Hcount : Z.to_nat ((v - n - v - 1) / - v) = 0%nat).
    { assert ((v - n - v - 1) / - v < 0)%Z; [|lia].
      apply Z.div_lt_upper_bound; lia. }
    rewrite Hcount in E. cbn [seq map] in E. injection E as <-.
    apply elem_of_difference in Hi as [Hi _]. now apply elem_of_empty in Hi.
Qed.

(** One epoch writes a checkpoint at each trigger and one at its end. *)
Lemma writes_train_epoch (tc : TrainerClass) (using_apex : bool)
  (triggers : gset Z) (n epoch : Z) :
  (forall i, i ∈ triggers -> (0 <= i < n)%Z) ->
  writes n (size triggers + 1) (train_epoch tc using_apex triggers epoch).
Proof.
  intros Hin. unfold train_epoch. apply writes_gets. intros s0 Hn.
  apply (writes_bind n (size triggers) 1).
  { rewrite <- (triggered_size triggers (dataloader s0)) by (rewrite Hn; exact Hin).
    apply writes_for_each. intros ib. apply writes_train_batch. }
  intros _. apply (writes_bind n 0 1); [now apply writes_logger_call|].
  intros _. apply writes_gets. intros s1 _. apply writes_validate.
Qed.

Lemma writes_apex_wrap `{!Apex} (n : Z) (level : node) : writes n 0 (apex_wrap level).
Proof.
  intros self self' a _ E. unfold apex_wrap in E.
  repeat match type of E with
  | context [match ?x with _ => _ end] => destruct x; try discriminate
  end.
  injection E as <- _. unfold count_saves. cbn. auto.
Qed.

(** X17: a run of [train] that returns has written, in each epoch, one
    checkpoint for every batch index of the trigger set and one at the
    end of the epoch, and no other. *)
Theorem train_checkpoint_count `{!Apex} (tc : TrainerClass) (validate_every min_wait : Z)
  (self self' : BaseTrainer) :
  train tc validate_every min_wait self = (self', Ok tt) ->
  exists triggers epoch_list,
    validation_triggers validate_every (Z.of_nat (length (dataloader self))) =
      Ok triggers /\
    range_of (epochs self) = Ok epoch_list /\
    count_saves self' =
      (count_saves self + length epoch_list * (size triggers + 1))%nat.
Proof.
  set (n := Z.of_nat (length (dataloader self))).
  unfold train. intros E.
  apply bind_ok in E as (s0 & n0 & E0 & E). injection E0 as <- <-.
  apply bind_ok in E as (s0 & triggers & E0 & E). apply lift_ok in E0 as [-> Etr].
  apply bind_ok in E as (s0 & lg & E0 & E). injection E0 as <- <-.
  apply bind_ok in E as (s1 & [] & E1 & E).
  assert (Hfr1 : dataloader s1 = dataloader self /\ epochs s1 = epochs self /\
               count_saves s1 = count_saves self).
  { destruct (logger self); [|discriminate]. injection E1 as <-. auto. }
  destruct Hfr1 as (Hd1 & He1 & Hs1).
  apply bind_ok in E as (s2 & c & E2 & E). injection E2 as <- <-.
  apply bind_ok in E as (s2 & conf & E2 & E). apply lift_ok in E2 as [-> _].
  apply bind_ok in E as (s2 & [] & E2 & E).
  assert (Hn1 : Z.of_nat (length (dataloader s1)) = n) by now rewrite Hd1.
  assert (Hfr2 : dataloader s2 = dataloader s1 /\ epochs s2 = epochs s1 /\
               count_saves s2 = (count_saves s1 + 0)%nat).
  { destruct (truthy (conf_get "apex" (Leaf (SBool false)) conf) && HAS_APEX).
    - exact (writes_apex_wrap n _ _ _ _ Hn1 E2).
    - exact (writes_ret n tt _ _ _ Hn1 E2). }
  destruct Hfr2 as (Hd2 & He2 & Hs2).
  apply bind_ok in E as (s3 & [] & E3 & E).
  assert (Hn2 : Z.of_nat (length (dataloader s2)) = n) by congruence.
  destruct (writes_logger_call n LoggerStart eq_refl _ _ _ Hn2 E3)
    as (Hd3 & He3 & Hs3).
  apply bind_ok in E as (s4 & ep & E4 & E). injection E4 as <- <-.
  apply bind_ok in E as (s4 & epoch_list & E4 & E). apply lift_ok in E4 as [-> E4].
  assert (Hn3 : Z.of_nat (length (dataloader s3)) = n) by congruence.
  assert (Hin : forall i, i ∈ triggers -> (0 <= i < n)%Z).
  { apply (validation_triggers_bound validate_every n); [lia|exact Etr]. }
  destruct (writes_for_each n (fun _ => (size triggers + 1)%nat) epoch_list
              (train_epoch tc _ triggers)
              (fun x => writes_train_epoch tc _ triggers n x Hin)
              _ _ _ Hn3 E) as (_ & _ & Hs4).
  rewrite list_sum_const in Hs4.
  exists triggers, epoch_list. split; [exact Etr|]. split; [congruence|]. lia.
Qed.

End CheckpointCountFacts.

Lemma train_checkpoint_count_witness :
  (exists triggers epoch_list,
     validation_triggers 1 (Z.of_nat (length (dataloader example_trainer_assigned))) =
       Ok triggers /\
     range_of (epochs example_trainer_assigned) = Ok epoch_list /\
     count_saves (fst (train (H0 := example_apex) example_trainer_class 1 5
                         example_trainer_assigned)) =
       (count_saves example_trainer_assigned +
        length epoch_list * (size triggers + 1))%nat) /\
  count_saves (fst (train (H0 := example_apex) example_trainer_class 1 5
                      example_trainer_assigned)) = 4%nat.
Proof.
  split.
  - apply (train_checkpoint_count (H0 := example_apex) example_trainer_class 1 5
             example_trainer_assigned).
    vm_compute. reflexivity.
  - vm_compute. reflexivity.
Defined.

(** ** The rendezvous file *)

Lemma append_empty_r (s : string) : (s ++ EmptyString = s)%string.
Proof. induction s as [|x s IH]; [reflexivity|]. now rewrite append_String, IH. Qed.

Lemma append_underscore (path : string) (k : nat) :
  ((path ++ "_") ++ underscores k = path ++ underscores (S k))%string.
Proof. rewrite append_assoc_string. reflexivity. Qed.

Lemma length_append_string (a b : string) :
  String.length (a ++ b) = (String.length a + String.length b)%nat.
Proof.
  induction a as [|x a IH]; [reflexivity|].
  rewrite append_String. cbn [String.length]. now rewrite IH.
Qed.

Lemma length_underscores (k : nat) : String.length (underscores k) = k.
Proof. induction k as [|k IH]; [reflexivity|]. cbn [underscores String.length]. now rewrite IH. Qed.

(** What the loop returns is free, and every shorter candidate is
    taken. *)
Lemma free_path_some (disk : gset string) (fuel : nat) : forall path r : string,
  free_path fuel disk path = Some r ->
  exists k, (k < fuel)%nat /\ r = (path ++ underscores k)%string /\ (r ∉ disk) /\
    forall j, (j < k)%nat -> (path ++ underscores j)%string ∈ disk.
Proof.
  induction fuel as [|fuel IH]; intros path r E; [discriminate|].
  cbn [free_path] in E. destruct (decide (path ∈ disk)) as [Hin|Hout].
  - destruct (IH _ _ E) as (k & Hk & -> & Hfree & Hbelow).
    exists (S k). split; [lia|]. split; [apply append_underscore|].
    split; [exact Hfree|]. intros [|j] Hj.
    + cbn [underscores]. now rewrite append_empty_r.
    + rewrite <- append_underscore. apply Hbelow. lia.
  - injection E as <-. exists 0%nat. split; [lia|].
    cbn [underscores]. rewrite append_empty_r.
    split; [reflexivity|]. split; [exact Hout|]. intros j Hj. lia.
Qed.

(** Out of fuel, every candidate tried is on the disk. *)
Lemma free_path_none (disk : gset string) (fuel : nat) : forall path : string,
  free_path fuel disk path = None ->
  forall j, (j < fuel)%nat -> (path ++ underscores j)%string ∈ disk.
Proof.
  induction fuel as [|fuel IH]; intros path E j Hj; [lia|].
  cbn [free_path] in E. destruct (decide (path ∈ disk)) as [Hin|Hout]; [|discriminate].
  destruct j as [|j].
  - cbn [underscores]. now rewrite append_empty_r.
  - rewrite <- append_underscore. apply (IH _ E). lia.
Qed.

(** The candidates are pairwise different, so a finite disk cannot hold
    more of them than it has paths. *)
Lemma candidates_exceed_disk (disk : gset string) (path : string) (n : nat) :
  (forall j, (j < n)%nat -> (path ++ underscores j)%string ∈ disk) ->
  (n <= size disk)%nat.
Proof.
  intros Hall.
  set (l := map (fun j => (path ++ underscores j)%string) (seq 0 n)).
  assert (Hnd : NoDup l).
  { apply (NoDup_fmap_1 String.length). unfold l.
    change (NoDup (map String.length
                     (map (fun j => (path ++ underscores j)%string) (seq 0 n)))).
    rewrite map_map.
    rewrite (map_ext _ (fun j => (String.length path + j)%nat))
      by (intros j; now rewrite length_append_string, length_underscores).
    assert (Hinj : Inj (=) (=) (fun j => (String.length path + j)%nat))
      by (intros a b Hab; lia).
    apply (NoDup_fmap_2 _). apply NoDup_ListNoDup, seq_NoDup. }
  assert (Hsub : list_to_set l ⊆ disk).
  { intros s Hs. apply elem_of_list_to_set, list_elem_of_In in Hs.
    apply in_map_iff in Hs as (j & <- & Hj). apply in_seq in Hj. apply Hall. lia. }
  apply subseteq_size in Hsub. rewrite (size_list_to_set l Hnd) in Hsub.
  unfold l in Hsub. rewrite length_map, length_seq in Hsub. exact Hsub.
Qed.

(** X18: the loop that looks for a rendezvous file stops on every disk
    (after at most as many rounds as the disk has paths); the path it
    leaves in [shared_file_path] is the original one followed by [k]
    underscores, is not on the disk, and every candidate with fewer
    underscores is; the folders of the manager are kept. *)
Theorem choose_shared_file_free (disk : gset string) (self : Erlich) :
  exists k self',
    choose_shared_file disk self = Some self' /\
    (k <= size disk)%nat /\
    shared_file_path self' = (shared_file_path self ++ underscores k)%string /\
    (shared_file_path self' ∉ disk) /\
    (forall j, (j < k)%nat -> (shared_file_path self ++ underscores j)%string ∈ disk) /\
    config_folder self' = config_folder self /\
    model_folder self' = model_folder self.
Proof.
  unfold choose_shared_file.
  destruct (free_path (S (size disk)) disk (shared_file_path self)) as [r|] eqn:E.
  - destruct (free_path_some _ _ _ _ E) as (k & Hk & -> & Hfree & Hbelow).
    exists k. eexists. split; [reflexivity|]. cbn [shared_file_path config_folder model_folder].
    repeat split; [lia|exact Hfree|exact Hbelow].
  - pose proof (candidates_exceed_disk disk (shared_file_path self) (S (size disk))
                  (free_path_none _ _ _ E)). lia.
Qed.

(** ** The models on disk and the next model id *)

Section ModelsFacts.
Context `{Disk}.

Lemma insert_int_In (i j : Z) (l : list Z) :
  In j (insert_int i l) <-> j = i \/ In j l.
Proof.
  induction l as [|k l IH]; cbn [insert_int]; [cbn; intuition|].
  destruct (i <=? k)%Z; cbn [In]; [intuition|]. rewrite IH. intuition.
Qed.

Lemma insert_int_sorted (i : Z) (l : list Z) :
  ascending l -> ascending (insert_int i l).
Proof.
  induction l as [|k l IH]; cbn [insert_int ascending]; intros Hl.
  - split; [intros j []|exact I].
  - destruct Hl as [Hk Hl]. destruct (Z.leb_spec i k) as [Hle|Hgt]; cbn [ascending].
    + split; [|split; assumption].
      intros j [<-|Hj]; [exact Hle|]. pose proof (Hk j Hj). lia.
    + split; [|now apply IH].
      intros j Hj. apply insert_int_In in Hj as [->|Hj]; [lia|now apply Hk].
Qed.

Lemma sorted_ints_In (j : Z) (l : list Z) : In j (sorted_ints l) <-> In j l.
Proof.
  induction l as [|i l IH]; [reflexivity|].
  cbn [sorted_ints fold_right]. fold (sorted_ints l).
  rewrite insert_int_In, IH. cbn [In]. intuition.
Qed.

Lemma sorted_ints_sorted (l : list Z) : ascending (sorted_ints l).
Proof.
  induction l as [|i l IH]; [exact I|].
  cbn [sorted_ints fold_right]. now apply insert_int_sorted.
Qed.

Lemma rmap_In {A B} (f : A -> result B) (xs : list A) (ys : list B) :
  rmap f xs = Ok ys -> forall y, In y ys -> exists x, In x xs /\ f x = Ok y.
Proof.
  revert ys. induction xs as [|x xs IH]; intros ys E y Hy; cbn [rmap] in E.
  - injection E as <-. destruct Hy.
  - apply rbind_ok in E as (y0 & Ey0 & E). apply rbind_ok in E as (ys0 & Eys & E).
    injection E as <-. destruct Hy as [<-|Hy].
    + exists x. split; [now left|exact Ey0].
    + destruct (IH _ Eys y Hy) as (x' & Hx' & Ex'). exists x'. split; [now right|exact Ex'].
Qed.

Lemma rfilter_ok {A} (p : A -> result bool) (xs ys : list A) :
  rfilter p xs = Ok ys -> forall y, In y ys <-> In y xs /\ p y = Ok true.
Proof.
  revert ys. induction xs as [|x xs IH]; intros ys E; cbn [rfilter] in E.
  - injection E as <-. cbn; intuition.
  - apply rbind_ok in E as (b & Eb & E). apply rbind_ok in E as (ys0 & Eys & E).
    injection E as <-. pose proof (IH _ Eys) as Hin.
    intros y. destruct b; cbn [In]; rewrite ?Hin.
    + split; [intros [<-|[? ?]]; auto|intros [[<-|?] ?]; auto].
    + split; [intros [? ?]; auto|].
      intros [[<-|?] Hy]; [congruence|auto].
Qed.

Lemma rfilter_ascending (p : Z -> result bool) (xs ys : list Z) :
  rfilter p xs = Ok ys -> ascending xs -> ascending ys.
Proof.
  revert ys. induction xs as [|x xs IH]; intros ys E Hs; cbn [rfilter] in E.
  - injection E as <-. exact I.
  - apply rbind_ok in E as (b & Eb & E). apply rbind_ok in E as (ys0 & Eys & E).
    injection E as <-. destruct Hs as [Hx Hs].
    destruct b; [|now apply IH]. split; [|now apply IH].
    intros j Hj. apply (rfilter_ok _ _ _ Eys) in Hj as [Hj _]. now apply Hx.
Qed.

Lemma last_sorted_max (l : list Z) (d : Z) :
  ascending l -> forall i, In i l -> (i <= List.last l d)%Z.
Proof.
  induction l as [|k l IH]; intros Hl i Hi; [destruct Hi|].
  destruct Hl as [Hk Hl]. destruct l as [|k' l'].
  - destruct Hi as [<-|[]]. cbn. lia.
  - change (List.last (k :: k' :: l') d) with (List.last (k' :: l') d).
    destruct Hi as [<-|Hi]; [|now apply IH].
    pose proof (Hk k' (or_introl eq_refl)).
    pose proof (IH Hl k' (or_introl eq_refl)). lia.
Qed.

Lemma list_models_ok (self : Erlich) (ids : list Z) :
  list_models self = Ok ids ->
  ascending ids /\
  forall i, In i ids <->
    model_actually_exists self i = Ok true /\
    exists path, In path (glob (path_join (model_folder self) "*.yaml")) /\
      py_int (stem path) = Ok i.
Proof.
  unfold list_models. intros E. apply rbind_ok in E as (model_ids & Emap & E).
  pose proof (rfilter_ok _ _ _ E) as Hin. split.
  - apply (rfilter_ascending _ _ _ E), sorted_ints_sorted.
  - intros i. rewrite Hin, sorted_ints_In. split.
    + intros [Hi Hex]. split; [exact Hex|]. exact (rmap_In _ _ _ Emap i Hi).
    + intros [Hex (path & Hpath & Eint)]. split; [|exact Hex].
      clear E Hin. revert model_ids Emap.
      induction (glob (path_join (model_folder self) "*.yaml")) as [|x xs IH];
        intros model_ids Emap; [destruct Hpath|].
      cbn [rmap] in Emap. apply rbind_ok in Emap as (y0 & Ey0 & Emap).
      apply rbind_ok in Emap as (ys0 & Eys & Emap). injection Emap as <-.
      destruct Hpath as [->|Hpath].
      * left. unfold stem in Eint. congruence.
      * right. exact (IH Hpath _ Eys).
Qed.

(** X19: when [list_models] returns, its list is in ascending order and
    holds exactly the integers read off the names of the yaml files of
    the model folder for which [model_actually_exists] holds: the yaml
    file and the folder of the id as [str] writes it exist, and the
    folder is not empty. *)
Theorem list_models_sound (self : Erlich) (ids : list Z) :
  list_models self = Ok ids ->
  ascending ids /\
  forall i, In i ids <->
    (exists path, In path (glob (path_join (model_folder self) "*.yaml")) /\
       py_int (stem path) = Ok i) /\
    path_exists (path_join (model_folder self) (pretty i ++ ".yaml")) = true /\
    path_exists (path_join (model_folder self) (pretty i)) = true /\
    exists names, listdir (path_join (model_folder self) (pretty i)) = Ok names /\
      names <> [].
Proof.
  intros E. destruct (list_models_ok self ids E) as [Hsort Hin].
  split; [exact Hsort|]. intros i. rewrite Hin. unfold model_actually_exists.
  destruct (path_exists (path_join (model_folder self) (pretty i ++ ".yaml")));
    [|split; [intros [? _]; discriminate|intros (_ & ? & _); discriminate]].
  destruct (path_exists (path_join (model_folder self) (pretty i)));
    [|split; [intros [? _]; discriminate|intros (_ & _ & ? & _); discriminate]].
  destruct (listdir (path_join (model_folder self) (pretty i))) as [names|e];
    cbn [rbind].
  - split.
    + intros [Hlen Hpath]. split; [exact Hpath|]. repeat split.
      exists names. split; [reflexivity|]. intros ->. discriminate Hlen.
    + intros (Hpath & _ & _ & names' & Enames & Hne). split; [|exact Hpath].
      injection Enames as <-. destruct names; [contradiction|reflexivity].
  - split; [intros [? _]; discriminate|].
    intros (_ & _ & _ & names & ? & _). discriminate.
Qed.

(** X20: [get_next_id] returns exactly when [list_models] does; the id
    is ["0"] when no model exists, and otherwise the text of the
    greatest existing id plus one, so that it is the id of no model of
    the list. *)
Theorem get_next_id_fresh (self : Erlich) :
  is_ok (get_next_id self) = is_ok (list_models self) /\
  forall next ids, get_next_id self = Ok next -> list_models self = Ok ids ->
    (ids = [] -> next = "0") /\
    (ids <> [] -> exists m, In m ids /\ (forall i, In i ids -> (i <= m)%Z) /\
                    next = pretty (m + 1)%Z) /\
    (forall i, In i ids -> next <> pretty i).
Proof.
  unfold get_next_id. destruct (list_models self) as [models|e] eqn:E; cbn [rbind is_ok].
  - destruct (list_models_ok self models E) as [Hsort _].
    split; [destruct models; reflexivity|]. intros next ids Enext Eids.
    injection Eids as <-. destruct models as [|i0 models].
    + injection Enext as <-. split; [reflexivity|]. split; [congruence|]. intros i [].
    + injection Enext as <-.
      assert (Hmax : forall i, In i (i0 :: models) ->
                (i <= List.last (i0 :: models) 0)%Z)
        by (apply last_sorted_max; exact Hsort).
      assert (Hlast : In (List.last (i0 :: models) 0%Z) (i0 :: models)).
      { clear. revert i0. induction models as [|j l IH]; intros i0; [now left|].
        right. exact (IH j). }
      split; [discriminate|]. split.
      * intros _. exists (List.last (i0 :: models) 0%Z). auto.
      * intros i Hi Heq. apply (inj pretty) in Heq. apply Hmax in Hi.
        change (List.last (i0 :: models) 0 + 1 = i)%Z in Heq. lia.
  - split; [reflexivity|]. intros next ids Enext. discriminate Enext.
Qed.

End ModelsFacts.

Lemma list_models_sound_witness :
  ascending [0; 2]%Z /\
  forall i, In i [0; 2]%Z <->
    (exists path,
       In path (@glob example_disk (path_join (model_folder example_erlich) "*.yaml")) /\
       @py_int example_disk (stem path) = Ok i) /\
    @path_exists example_disk
      (path_join (model_folder example_erlich) (pretty i ++ ".yaml")) = true /\
    @path_exists example_disk (path_join (model_folder example_erlich) (pretty i)) = true /\
    exists names,
      @listdir example_disk (path_join (model_folder example_erlich) (pretty i)) =
        Ok names /\
      names <> [].
Proof.
  apply (list_models_sound (H := example_disk) example_erlich [0; 2]%Z).
  vm_compute. reflexivity.
Defined.

Lemma get_next_id_fresh_witness :
  (is_ok (get_next_id (H := example_disk) example_erlich) =
     is_ok (list_models (H := example_disk) example_erlich) /\
   forall next ids,
     get_next_id (H := example_disk) example_erlich = Ok next ->
     list_models (H := example_disk) example_erlich = Ok ids ->
     (ids = [] -> next = "0") /\
     (ids <> [] -> exists m, In m ids /\ (forall i, In i ids -> (i <= m)%Z) /\
                     next = pretty (m + 1)%Z) /\
     (forall i, In i ids -> next <> pretty i)) /\
  get_next_id (H := example_disk) example_erlich = Ok "3".
Proof.
  split; [apply (get_next_id_fresh (H := example_disk) example_erlich)|].
  vm_compute. reflexivity.
Defined.

(** ** The layers of the dense blocks *)

Lemma py_range_count (n : Z) :
  exists indices, py_range 0 n 1 = Ok indices /\ length indices = Z.to_nat n.
Proof.
  unfold py_range. change (1 =? 0)%Z with false. change (0 <? 1)%Z with true.
  cbv beta iota zeta. eexists. split; [reflexivity|].
  rewrite length_map, length_seq, Z.div_1_r. lia.
Qed.

Lemma dense_layers_spec (growth_rate : Z) (activation normalization : option string)
  (indices : list Z) : forall ch : Z,
  let layers := dense_layers indices ch growth_rate activation normalization in
  length layers = length indices /\
  chained ch layers (ch + Z.of_nat (length indices) * growth_rate)%Z /\
  forall i : nat, (i < length indices)%nat ->
    layers !! i =
      Some (Single (mkConv (ch + Z.of_nat i * growth_rate) growth_rate 3
                      activation normalization)).
Proof.
  induction indices as [|x indices IH]; intros ch; cbn zeta.
  - cbn. repeat split; [lia|]. intros i Hi. lia.
  - cbn [dense_layers length]. destruct (IH (ch + growth_rate)%Z) as (Hlen & Hch & Hnth).
    split; [now rewrite Hlen|]. split.
    + cbn [chained layer_in layer_out layer_fits conv_in conv_out].
      repeat split.
      replace (ch + Z.of_nat (S (length indices)) * growth_rate)%Z
        with (ch + growth_rate + Z.of_nat (length indices) * growth_rate)%Z by lia.
      exact Hch.
    + intros [|i] Hi.
      * cbn [lookup list_lookup]. replace (ch + Z.of_nat 0 * growth_rate)%Z with ch by lia.
        reflexivity.
      * cbn [lookup list_lookup]. rewrite Hnth by lia.
        replace (ch + growth_rate + Z.of_nat i * growth_rate)%Z
          with (ch + Z.of_nat (S i) * growth_rate)%Z by lia.
        reflexivity.
Qed.

(** X21: [DenseBlock.__init__] always builds its layers: [n_layers] of
    them (none for a negative [n_layers]); layer [i] is the convolution
    from [input_channels + i * growth_rate] channels to [growth_rate]
    channels with kernel 3; so in [forward] every layer is given the
    number of channels it was built for, and [input_channels + n *
    growth_rate] channels come out. *)
Theorem DenseBlock_layers (input_channels growth_rate n_layers : Z)
  (activation normalization : option string) :
  exists layers,
    DenseBlock_init input_channels growth_rate n_layers activation normalization =
      Ok layers /\
    length layers = Z.to_nat n_layers /\
    chained input_channels layers
      (input_channels + Z.of_nat (Z.to_nat n_layers) * growth_rate)%Z /\
    forall i : nat, (i < Z.to_nat n_layers)%nat ->
      layers !! i =
        Some (Single (mkConv (input_channels + Z.of_nat i * growth_rate) growth_rate 3
                        activation normalization)).
Proof.
  unfold DenseBlock_init. destruct (py_range_count n_layers) as (indices & -> & Hlen).
  cbn [rbind]. eexists. split; [reflexivity|].
  destruct (dense_layers_spec growth_rate activation normalization indices input_channels)
    as (Hl & Hch & Hnth).
  rewrite <- Hlen. auto.
Qed.

Lemma bottleneck_layers_spec (growth_rate bottleneck : Z)
  (activation normalization : option string) (indices : list Z) : forall ch : Z,
  let layers := bottleneck_layers indices ch growth_rate bottleneck
                  activation normalization in
  length layers = length indices /\
  chained ch layers (ch + Z.of_nat (length indices) * growth_rate)%Z /\
  forall i : nat, (i < length indices)%nat ->
    layers !! i =
      Some (if (ch + Z.of_nat i * growth_rate <? bottleneck)%Z
            then Single (mkConv (ch + Z.of_nat i * growth_rate) growth_rate 3
                           activation normalization)
            else Sequential2
                   (mkConv (ch + Z.of_nat i * growth_rate) bottleneck 1
                      activation normalization)
                   (mkConv bottleneck growth_rate 3 activation normalization)).
Proof.
  induction indices as [|x indices IH]; intros ch; cbn zeta.
  - cbn. repeat split; [lia|]. intros i Hi. lia.
  - cbn [bottleneck_layers length].
    destruct (IH (ch + growth_rate)%Z) as (Hlen & Hch & Hnth).
    split; [now rewrite Hlen|]. split.
    + cbn [chained].
      replace (ch + Z.of_nat (S (length indices)) * growth_rate)%Z
        with (ch + growth_rate + Z.of_nat (length indices) * growth_rate)%Z by lia.
      destruct (ch <? bottleneck)%Z;
        cbn [layer_in layer_out layer_fits conv_in conv_out]; repeat split; exact Hch.
    + intros [|i] Hi.
      * cbn [lookup list_lookup]. replace (ch + Z.of_nat 0 * growth_rate)%Z with ch by lia.
        reflexivity.
      * cbn [lookup list_lookup]. rewrite Hnth by lia.
        replace (ch + growth_rate + Z.of_nat i * growth_rate)%Z
          with (ch + Z.of_nat (S i) * growth_rate)%Z by lia.
        reflexivity.
Qed.

(** X22: [DenseBottleneckBlock.__init__] always builds [n_layers]
    layers; with [b] the bottleneck width ([bottleneck] when positive,
    [4 * growth_rate] otherwise), layer [i] is the plain convolution
    when [input_channels + i * growth_rate < b] and otherwise goes
    through a 1x1 convolution to [b] channels; the channels line up in
    [forward]; the argument [threshold] changes nothing; and with a
    non-negative growth rate, once a layer has a bottleneck all the
    later ones have. *)
Theorem DenseBottleneckBlock_layers (input_channels growth_rate n_layers : Z)
  (bottleneck threshold : Z) (activation normalization : option string) :
  let b := if (0 <? bottleneck)%Z then bottleneck else (4 * growth_rate)%Z in
  exists layers,
    (forall t : Z,
       DenseBottleneckBlock_init input_channels growth_rate n_layers bottleneck t
         activation normalization = Ok layers) /\
    length layers = Z.to_nat n_layers /\
    chained input_channels layers
      (input_channels + Z.of_nat (Z.to_nat n_layers) * growth_rate)%Z /\
    (forall i : nat, (i < Z.to_nat n_layers)%nat ->
       layers !! i =
         Some (if (input_channels + Z.of_nat i * growth_rate <? b)%Z
               then Single (mkConv (input_channels + Z.of_nat i * growth_rate)
                              growth_rate 3 activation normalization)
               else Sequential2
                      (mkConv (input_channels + Z.of_nat i * growth_rate) b 1
                         activation normalization)
                      (mkConv b growth_rate 3 activation normalization))) /\
    ((0 <= growth_rate)%Z ->
     forall (i j : nat) (li lj : layer), (i <= j)%nat ->
       layers !! i = Some li -> layers !! j = Some lj ->
       is_bottleneck li = true -> is_bottleneck lj = true).
Proof.
  intros b. unfold DenseBottleneckBlock_init. fold b.
  destruct (py_range_count n_layers) as (indices & -> & Hlen). cbn [rbind].
  eexists. split; [intros t; reflexivity|].
  destruct (bottleneck_layers_spec growth_rate b activation normalization indices
              input_channels) as (Hl & Hch & Hnth).
  rewrite <- Hlen. split; [exact Hl|]. split; [exact Hch|]. split; [exact Hnth|].
  intros Hg i j li lj Hij Hi Hj Hbi.
  assert (Hjlt : (j < length indices)%nat).
  { rewrite <- Hl. apply lookup_lt_is_Some. eauto. }
  rewrite Hnth in Hi, Hj by lia. injection Hi as <-. injection Hj as <-.
  destruct (Z.ltb_spec (input_channels + Z.of_nat i * growth_rate) b) as [|Hge];
    [discriminate Hbi|].
  destruct (Z.ltb_spec (input_channels + Z.of_nat j * growth_rate) b) as [Hlt|];
    [|reflexivity].
  exfalso. nia.
Qed.
